(** * subnetcalculator: the allocator and the exporter, verified

    A shallow embedding of [src/subnetcalculator/subnetcalculator.py].

    - Python integers are [Z]; the 32-bit IPv4 quantities keep their bit
      operations ([Z.lxor], [Z.lor], [Z.land], [Z.shiftr]).
    - [Calculator.result] is a Python [dict]: insertion ordered, and an
      assignment to a key that is present keeps the key where it is.  It is
      an association list with exactly that update.
    - [Calculator._compute] mutates [self.result] and may raise; an
      exception does not undo the mutations.  The monad [M] below threads
      the dictionary and returns it next to the outcome, also for a raise.
    - The classes of the Python standard library that the program uses
      ([ipaddress.IPv4Network], [range], [str.split], [int], [str]) are
      modelled in the module [ipaddress] and in the string helpers. *)

From Stdlib Require Import ZArith List String Ascii Bool Lia Permutation.
From Stdlib Require Import DecimalString.
Import ListNotations.

Local Open Scope string_scope.
Local Open Scope list_scope.
Local Open Scope Z_scope.

(** ** Exceptions and results *)

(** The exceptions that the modelled code can raise. *)
Inductive exn : Type :=
| CannotFindPrefix (value : Z)
    (* ValueError('Cannot find prefix for {value}.'), find_prefix *)
| TooManySubnets (total_prefix : Z)
    (* ValueError('Too many subnets! (Prefix is {...})'), _compute *)
| IndexError
    (* child_subnets[i] with i out of range *)
| KeyError
    (* item['__placeholder__'] on a dict without that key *)
| SubnetsValueError
    (* the ValueErrors of IPv4Network.subnets *)
| TypeError
    (* len(None) *)
| ValidationError
    (* pydantic: a [str] field of SubnetInfo given None *)
| AddressValueError
    (* ipaddress: a string that is no IPv4 address *)
| NetmaskValueError
    (* ipaddress: a string that is no prefix length or mask *)
| HostBitsSet.
    (* ValueError('... has host bits set'), strict IPv4Network *)

Inductive res (A : Type) : Type :=
| Ok (a : A)
| Raise (e : exn).
Arguments Ok {A} a.
Arguments Raise {A} e.

Definition res_bind {A B} (r : res A) (k : A -> res B) : res B :=
  match r with
  | Ok a => k a
  | Raise e => Raise e
  end.

(** ** The standard library: [range] and [ipaddress.IPv4Network] *)

(** [range(start, stop, step)] for [step > 0]; the callers below establish
    [step > 0] before they build a range. *)
Definition range3 (start stop step : Z) : list Z :=
  map (fun k => start + Z.of_nat k * step)
      (seq 0 (Z.to_nat ((stop - start + step - 1) / step))).

(** [range(start, stop)]. *)
Definition range (start stop : Z) : list Z := range3 start stop 1.

Module ipaddress.

(** An [IPv4Network] object: the integer of its network address and its
    prefix length. *)
Record IPv4Network : Type := mkNet {
  network_address : Z;
  prefixlen : Z
}.

Definition max_prefixlen : Z := 32.
Definition ALL_ONES : Z := 2 ^ 32 - 1.

(** [_ip_int_from_prefix]: [ALL_ONES ^ (ALL_ONES >> prefixlen)]. *)
Definition netmask (n : IPv4Network) : Z :=
  Z.lxor ALL_ONES (Z.shiftr ALL_ONES (prefixlen n)).

(** [hostmask]: [int(self.netmask) ^ ALL_ONES]. *)
Definition hostmask (n : IPv4Network) : Z :=
  Z.lxor (netmask n) ALL_ONES.

(** [broadcast_address]: [network_address | hostmask]. *)
Definition broadcast_address (n : IPv4Network) : Z :=
  Z.lor (network_address n) (hostmask n).

(** What the constructor of [IPv4Network] (strict) guarantees of every
    object: a prefix length in 0..32, a 32-bit address, no host bit set. *)
Definition valid (n : IPv4Network) : Prop :=
  0 <= prefixlen n <= 32 /\
  0 <= network_address n < 2 ^ 32 /\
  Z.land (network_address n) (netmask n) = network_address n.

Definition validb (n : IPv4Network) : bool :=
  (0 <=? prefixlen n) && (prefixlen n <=? 32) &&
  (0 <=? network_address n) && (network_address n <? 2 ^ 32) &&
  (Z.land (network_address n) (netmask n) =? network_address n).

(** [subnets(prefixlen_diff)], the generator collected in a list.  The
    program passes [prefixlen_diff] positionally and never [new_prefix].
    The last test stands for [range] refusing a step of 0. *)
Definition subnets (self : IPv4Network) (prefixlen_diff : Z)
  : res (list IPv4Network) :=
  if prefixlen self =? max_prefixlen then Ok [self]
  else if prefixlen_diff <? 0 then Raise SubnetsValueError
  else
    let new_prefixlen := prefixlen self + prefixlen_diff in
    if new_prefixlen >? max_prefixlen then Raise SubnetsValueError
    else
      let start := network_address self in
      let end_ := broadcast_address self + 1 in
      let step := Z.shiftr (hostmask self + 1) prefixlen_diff in
      if step =? 0 then Raise SubnetsValueError
      else Ok (map (fun new_addr => mkNet new_addr new_prefixlen)
                   (range3 start end_ step)).

(** [self[n]]: the n-th address, from the end for a negative n. *)
Definition getitem (self : IPv4Network) (n : Z) : res Z :=
  let network := network_address self in
  let broadcast := broadcast_address self in
  if n >=? 0 then
    if network + n >? broadcast then Raise IndexError
    else Ok (network + n)
  else
    let n := n + 1 in
    if broadcast + n <? network then Raise IndexError
    else Ok (broadcast + n).

(** [other in self] for an address. *)
Definition contains (self : IPv4Network) (address : Z) : bool :=
  Z.land address (netmask self) =? network_address self.

(** [self.overlaps(other)]. *)
Definition overlaps (self other : IPv4Network) : bool :=
  contains other (network_address self) ||
  contains other (broadcast_address self) ||
  contains self (network_address other) ||
  contains self (broadcast_address other).

(** [self.subnet_of(other)]. *)
Definition subnet_of (self other : IPv4Network) : bool :=
  (network_address other <=? network_address self) &&
  (broadcast_address self <=? broadcast_address other).

End ipaddress.
Import ipaddress.

(** ** Strings of the standard library *)

(** [str(n)] for an int. *)
Definition str_of_int (n : Z) : string :=
  NilZero.string_of_int (Z.to_int n).

(** [sep.join(parts)]. *)
Fixpoint join (sep : string) (parts : list string) : string :=
  match parts with
  | [] => ""
  | [p] => p
  | p :: rest => (p ++ sep ++ join sep rest)%string
  end.

(** [s.split(sep)] for a separator of one character; the result is never
    empty. *)
Fixpoint split (sep : ascii) (s : string) : list string :=
  match s with
  | EmptyString => [""]
  | String c s' =>
      if Ascii.eqb c sep then "" :: split sep s'
      else match split sep s' with
           | [] => [String c ""]
           | w :: ws => String c w :: ws
           end
  end.

Definition is_ascii_digit (c : ascii) : bool :=
  (48 <=? nat_of_ascii c)%nat && (nat_of_ascii c <=? 57)%nat.

Fixpoint all_digits (s : string) : bool :=
  match s with
  | EmptyString => true
  | String c s' => is_ascii_digit c && all_digits s'
  end.

(** [s.isascii() and s.isdigit()]: false for the empty string. *)
Definition isdigit (s : string) : bool :=
  negb (String.eqb s "") && all_digits s.

Fixpoint int_of_digits_from (acc : Z) (s : string) : Z :=
  match s with
  | EmptyString => acc
  | String c s' =>
      int_of_digits_from (10 * acc + (Z.of_nat (nat_of_ascii c) - 48)) s'
  end.

(** [int(s, 10)] for a string of ASCII digits. *)
Definition int_of_digits (s : string) : Z := int_of_digits_from 0 s.

(** [str(IPv4Address(ip_int))]: the four bytes, big end first, joined by
    dots. *)
Definition to_bytes4 (ip_int : Z) : list Z :=
  [Z.land (Z.shiftr ip_int 24) 255; Z.land (Z.shiftr ip_int 16) 255;
   Z.land (Z.shiftr ip_int 8) 255; Z.land ip_int 255].

Definition address_compressed (ip_int : Z) : string :=
  join "." (map str_of_int (to_bytes4 ip_int)).

(** [IPv4Network.compressed]: ['%s/%d' % (network_address, prefixlen)]. *)
Definition compressed (n : IPv4Network) : string :=
  (address_compressed (network_address n) ++ "/"
   ++ str_of_int (prefixlen n))%string.

(** ** Reading networks back from strings *)

(** [IPv4Address._parse_octet] *)
Definition _parse_octet (octet_str : string) : res Z :=
  if String.eqb octet_str "" then Raise AddressValueError
  else if negb (isdigit octet_str) then Raise AddressValueError
  else if (3 <? String.length octet_str)%nat then Raise AddressValueError
  else if negb (String.eqb octet_str "0") && prefix "0" octet_str
       then Raise AddressValueError
  else
    let octet_int := int_of_digits octet_str in
    if octet_int >? 255 then Raise AddressValueError else Ok octet_int.

Fixpoint parse_octets (octets : list string) : res (list Z) :=
  match octets with
  | [] => Ok []
  | o :: rest =>
      res_bind (_parse_octet o) (fun b =>
      res_bind (parse_octets rest) (fun bs => Ok (b :: bs)))
  end.

(** [int.from_bytes(bs, 'big')] *)
Definition from_bytes (bs : list Z) : Z :=
  fold_left (fun acc b => acc * 256 + b) bs 0.

(** [IPv4Address._ip_int_from_string] *)
Definition _ip_int_from_string (ip_str : string) : res Z :=
  if String.eqb ip_str "" then Raise AddressValueError
  else
    let octets := split "." ip_str in
    if negb (List.length octets =? 4)%nat then Raise AddressValueError
    else res_bind (parse_octets octets) (fun bs => Ok (from_bytes bs)).

(** [_prefix_from_prefix_string] *)
Definition _prefix_from_prefix_string (prefixlen_str : string) : res Z :=
  if negb (isdigit prefixlen_str) then Raise NetmaskValueError
  else
    let prefixlen := int_of_digits prefixlen_str in
    if (0 <=? prefixlen) && (prefixlen <=? max_prefixlen) then Ok prefixlen
    else Raise NetmaskValueError.

(** [_prefix_from_ip_int]: the prefix length whose netmask is [ip_int];
    the library counts the trailing zero bits and compares the rest with
    all ones, which finds the same length. *)
Definition _prefix_from_ip_int (ip_int : Z) : res Z :=
  match find (fun p => ip_int =? netmask (mkNet 0 p)) (range 0 33) with
  | Some p => Ok p
  | None => Raise NetmaskValueError
  end.

(** [_prefix_from_ip_string]: a netmask or a hostmask as a dotted quad. *)
Definition _prefix_from_ip_string (ip_str : string) : res Z :=
  match _ip_int_from_string ip_str with
  | Raise _ => Raise NetmaskValueError
  | Ok ip_int =>
      match _prefix_from_ip_int ip_int with
      | Ok p => Ok p
      | Raise _ => _prefix_from_ip_int (Z.lxor ip_int ALL_ONES)
      end
  end.

(** [_make_netmask] for a string. *)
Definition _make_netmask (arg : string) : res Z :=
  match _prefix_from_prefix_string arg with
  | Ok p => Ok p
  | Raise _ => _prefix_from_ip_string arg
  end.

(** [IPv4Network(address)] for a string, strict. *)
Definition IPv4Network_of_string (address : string) : res IPv4Network :=
  match split "/" address with
  | [addr] =>
      res_bind (_ip_int_from_string addr) (fun a => Ok (mkNet a max_prefixlen))
  | [addr; mask] =>
      res_bind (_ip_int_from_string addr) (fun a =>
      res_bind (_make_netmask mask) (fun p =>
      if Z.land a (netmask (mkNet a p)) =? a then Ok (mkNet a p)
      else Raise HostBitsSet))
  | _ => Raise AddressValueError
  end.

(** ** The input of the program *)

#[local] Set Warnings "-register-all".

(** One element of a structure list, as the code tells them apart:
    [None], a string (a subnet id, or the token '__placeholder__'), a nested
    list, or a dict, which has the key '__placeholder__' or has not.  The
    type of the configuration admits strings, lists and dicts with an int
    at the top level and leaves the elements of a nested list open; what
    else can stand in a nested list (another scalar, a dict with something
    else than an int under the key) has no item, see [item_of]. *)
Inductive item : Type :=
| INone
| IStr (s : string)
| IList (l : list item)
| IDict (placeholder : option Z).

Definition StructureType : Type := list item.

(** [self.result]: an insertion-ordered dict from ids to networks. *)
Definition dict (V : Type) : Type := list (string * V).

Fixpoint dict_get {V} (k : string) (d : dict V) : option V :=
  match d with
  | [] => None
  | (k', v) :: d' => if String.eqb k k' then Some v else dict_get k d'
  end.

(** [d[k] = v]: overwrite in place when [k] is present, else append. *)
Fixpoint dict_set {V} (k : string) (v : V) (d : dict V) : dict V :=
  match d with
  | [] => [(k, v)]
  | (k', v') :: d' =>
      if String.eqb k k' then (k, v) :: d' else (k', v') :: dict_set k v d'
  end.

(** The state-and-exception monad of the [Calculator] methods: the state is
    [self.result], and it survives a raise. *)
Definition M (A : Type) : Type :=
  dict IPv4Network -> res A * dict IPv4Network.

Definition ret {A} (a : A) : M A := fun result => (Ok a, result).

Definition bind {A B} (m : M A) (k : A -> M B) : M B :=
  fun result =>
    match m result with
    | (Ok a, result') => k a result'
    | (Raise e, result') => (Raise e, result')
    end.

Definition lift {A} (r : res A) : M A := fun result => (r, result).

(** [self.result[k] = v] *)
Definition set_result (k : string) (v : IPv4Network) : M unit :=
  fun result => (Ok tt, dict_set k v result).

Definition get_result : M (dict IPv4Network) :=
  fun result => (Ok result, result).

Declare Scope py_scope.
Delimit Scope py_scope with py.
Notation "x <- m ;; k" := (bind m (fun x => k))
  (at level 100, m at next level, right associativity) : py_scope.
Notation "m ;;; k" := (bind m (fun _ => k))
  (at level 100, right associativity) : py_scope.

(** [for i, x in enumerate(xs): body], counting from [i]. *)
Definition for_enumerate {A} (body : nat -> A -> M unit)
  : nat -> list A -> M unit :=
  fix go (i : nat) (xs : list A) {struct xs} : M unit :=
    match xs with
    | [] => ret tt
    | x :: xs' => bind (body i x) (fun _ => go (S i) xs')
    end.

(** [xs[i]] for a list and [i >= 0]. *)
Definition list_getitem {A} (xs : list A) (i : nat) : res A :=
  match nth_error xs i with
  | Some x => Ok x
  | None => Raise IndexError
  end.

(** [SubnetMetadata]: three [str] fields that default to [None]. *)
Module SubnetMetadata.
Record t : Type := make {
  name : option string;
  description : option string;
  tier : option string
}.
End SubnetMetadata.

Record NetworkStructureConfiguration : Type := mkConfig {
  network_cidr : IPv4Network;
  metadata : dict SubnetMetadata.t;
  structure : StructureType
}.

(** ** [Calculator] *)

Module Calculator.

(** [Calculator.find_structure_len] (lines 80-88). *)
Fixpoint find_structure_len_from (count : Z) (structure : StructureType)
  : res Z :=
  match structure with
  | [] => Ok count
  | IDict (Some n) :: rest => find_structure_len_from (count + n) rest
  | IDict None :: _ => Raise KeyError
  | _ :: rest => find_structure_len_from (count + 1) rest
  end.

Definition find_structure_len (structure : StructureType) : res Z :=
  find_structure_len_from 0 structure.

(** [Calculator.find_prefix] (lines 90-95).  [math.pow(2, i)] is a float
    that holds 2^i exactly for i < 32, and Python compares an int with a
    float by value. *)
Definition find_prefix (value : Z) : res Z :=
  match find (fun i => value <=? 2 ^ i) (range 0 32) with
  | Some i => Ok i
  | None => Raise (CannotFindPrefix value)
  end.

Definition placeholder_token : string := "__placeholder__".

(** Lines 63-68 of [_compute]: the sub-blocks of this level. *)
Definition child_subnets_of (parent_subnet : IPv4Network)
  (structure : StructureType) : res (list IPv4Network) :=
  res_bind (find_structure_len structure) (fun structure_len =>
  res_bind (find_prefix structure_len) (fun prefix =>
  if prefix + prefixlen parent_subnet >? 32
  then Raise (TooManySubnets (prefix + prefixlen parent_subnet))
  else subnets parent_subnet prefix)).

(** [Calculator._compute] (lines 62-78), with the recursive call left open:
    [rec child_subnet structure_item] is the body of the loop. *)
Definition _compute_level (rec : IPv4Network -> item -> M unit)
  (parent_subnet : IPv4Network) (structure : StructureType) : M unit :=
  (child_subnets <- lift (child_subnets_of parent_subnet structure) ;;
   for_enumerate
     (fun i structure_item =>
        child_subnet <- lift (list_getitem child_subnets i) ;;
        rec child_subnet structure_item)
     0%nat structure)%py.

(** The body of the loop (lines 70-78) for one item and its sub-block. *)
Fixpoint _compute_item (child_subnet : IPv4Network) (structure_item : item)
  {struct structure_item} : M unit :=
  match structure_item with
  | INone => ret tt
  | IStr s =>
      if String.eqb s placeholder_token then ret tt
      else set_result s child_subnet
  | IList l => _compute_level _compute_item child_subnet l
  | IDict _ => ret tt
  end.

Definition _compute (parent_subnet : IPv4Network) (structure : StructureType)
  : M unit :=
  _compute_level _compute_item parent_subnet structure.

(** [Calculator.compute] (lines 58-60). *)
Definition compute (config : NetworkStructureConfiguration)
  : M (dict IPv4Network) :=
  (_compute (network_cidr config) (structure config) ;;;
   get_result)%py.

(** [Calculator(configuration).compute()]: a fresh calculator starts with
    an empty [result].  The first component is what the call returns or
    raises, the second is [calculator.result] afterwards. *)
Definition allocate (config : NetworkStructureConfiguration)
  : res (dict IPv4Network) * dict IPv4Network :=
  compute config [].

End Calculator.
Import Calculator.

(** ** [Exporter] *)

(** [SubnetInfo]: a pydantic model whose fields are all required. *)
Module SubnetInfo.
Record t : Type := make {
  id : string;
  name : string;
  description : string;
  cidr : IPv4Network;
  first_address : string;
  last_address : string
}.

(** The constructor as [build_data] calls it.  Of its arguments only
    [description] can be [None] there, which the validation of a [str]
    field refuses. *)
Definition new (id name : string) (cidr : IPv4Network)
  (description : option string) (first_address last_address : string)
  : res t :=
  match description with
  | None => Raise ValidationError
  | Some d => Ok (make id name d cidr first_address last_address)
  end.
End SubnetInfo.

(** One element of the list under 'subnets' in the result of [to_dict]. *)
Module SubnetDict.
Record t : Type := make {
  id : string;
  name : string;
  cidr : string;
  description : string;
  first_address : string;
  last_address : string
}.
End SubnetDict.

(** The result of [to_dict]. *)
Module ExportDict.
Record t : Type := make {
  network_cidr : string;
  subnets : list SubnetDict.t
}.
End ExportDict.

(** [d.get(k, default)] *)
Definition dict_get_default {V} (k : string) (default : V) (d : dict V) : V :=
  match dict_get k d with
  | Some v => v
  | None => default
  end.

Module Exporter.

Record t : Type := make {
  config : NetworkStructureConfiguration;
  structure : dict IPv4Network;
  default_metadata : SubnetMetadata.t;
  data : list SubnetInfo.t
}.

(** The default of [__init__] (lines 116-117). *)
Definition fallback_metadata : SubnetMetadata.t :=
  SubnetMetadata.make (Some "") (Some "---") (Some "---").

(** Lines 126-134: the record of one entry.  The arguments of
    [SubnetInfo(...)] are evaluated in the order they are written. *)
Definition build_info (config : NetworkStructureConfiguration)
  (default_metadata : SubnetMetadata.t)
  (subnet_id : string) (subnet_cidr : IPv4Network) : res SubnetInfo.t :=
  let subnet_metadata :=
    dict_get_default subnet_id default_metadata (metadata config) in
  res_bind
    (match SubnetMetadata.name subnet_metadata with
     | None => Raise TypeError
     | Some n => Ok (if (0 <? String.length n)%nat then n else subnet_id)
     end) (fun name =>
  res_bind (getitem subnet_cidr 0) (fun first =>
  res_bind (getitem subnet_cidr (-1)) (fun last =>
  SubnetInfo.new subnet_id name subnet_cidr
    (SubnetMetadata.description subnet_metadata)
    (address_compressed first) (address_compressed last)))).

(** The loop of [build_data] (lines 125-135) over [structure.items()]. *)
Fixpoint build_loop (config : NetworkStructureConfiguration)
  (default_metadata : SubnetMetadata.t)
  (items : dict IPv4Network) (data : list SubnetInfo.t)
  : res (list SubnetInfo.t) :=
  match items with
  | [] => Ok data
  | (subnet_id, subnet_cidr) :: rest =>
      res_bind (build_info config default_metadata subnet_id subnet_cidr)
        (fun subnet_result =>
           build_loop config default_metadata rest
             (data ++ [subnet_result]))
  end.

(** [build_data] (lines 121-135): the new value of [self.data]. *)
Definition build_data (self : t) : res (list SubnetInfo.t) :=
  if (0 <? List.length (data self))%nat then Ok (data self)
  else build_loop (config self) (default_metadata self)
         (structure self) (data self).

(** [Exporter(config, structure, default_metadata)] (lines 108-119). *)
Definition init (config : NetworkStructureConfiguration)
  (structure : dict IPv4Network)
  (default_metadata : option SubnetMetadata.t) : res t :=
  let dm := match default_metadata with
            | Some m => m
            | None => fallback_metadata
            end in
  res_bind (build_data (make config structure dm []))
    (fun data => Ok (make config structure dm data)).

(** [to_dict] (lines 153-164). *)
Definition to_dict (self : t) : ExportDict.t :=
  ExportDict.make
    (compressed (network_cidr (config self)))
    (map (fun info =>
            SubnetDict.make
              (SubnetInfo.id info)
              (SubnetInfo.name info)
              (compressed (SubnetInfo.cidr info))
              (SubnetInfo.description info)
              (SubnetInfo.first_address info)
              (SubnetInfo.last_address info))
         (data self)).

End Exporter.

(** Modelled from the spec: the repository has no reader of its own
    output; "re-deriving SubnetRecord fields" from one element of the
    structured form is taken as: read the 'cidr' string as a network, then
    form [cidr], [first_address] and [last_address] from that network the way
    [build_data] and [to_dict] form them. *)
Definition rederive (d : SubnetDict.t) : res (string * string * string) :=
  res_bind (IPv4Network_of_string (SubnetDict.cidr d)) (fun subnet_cidr =>
  res_bind (getitem subnet_cidr 0) (fun first =>
  res_bind (getitem subnet_cidr (-1)) (fun last =>
  Ok (compressed subnet_cidr,
      address_compressed first, address_compressed last)))).

(** ** The vocabulary of the properties *)

(** The identifiers of the leaves in pre-order.  A leaf is what the loop
    of [_compute] records: a string other than the placeholder token. *)
Fixpoint item_leaf_ids (it : item) : list string :=
  match it with
  | IStr s => if String.eqb s placeholder_token then [] else [s]
  | IList l => flat_map item_leaf_ids l
  | INone | IDict _ => []
  end.

Definition leaf_ids (s : StructureType) : list string :=
  flat_map item_leaf_ids s.

(** The count of a placeholder dict is at least 1; the other items have
    no count. *)
Definition count_positive (it : item) : bool :=
  match it with
  | IDict (Some n) => 1 <=? n
  | _ => true
  end.

(** All placeholder counts are at least 1, at every level. *)
Fixpoint item_counts_positive (it : item) : bool :=
  match it with
  | IList l => forallb item_counts_positive l
  | _ => count_positive it
  end.

Definition counts_positive (s : StructureType) : bool :=
  forallb item_counts_positive s.

Definition flat_map_enumerate {A B} (f : nat -> A -> list B)
  : nat -> list A -> list B :=
  fix go (i : nat) (xs : list A) {struct xs} : list B :=
    match xs with
    | [] => []
    | x :: xs' => f i x ++ go (S i) xs'
    end.

Definition forallb_enumerate {A} (f : nat -> A -> bool)
  : nat -> list A -> bool :=
  fix go (i : nat) (xs : list A) {struct xs} : bool :=
    match xs with
    | [] => true
    | x :: xs' => f i x && go (S i) xs'
    end.

(** A leaf with the block it is given and the block of the sequence it
    stands in (its structural parent). *)
Record placement : Type := mkPlacement {
  leaf : string;
  block : IPv4Network;
  parent_block : IPv4Network
}.

(** The leaves of an item in pre-order, each with the sub-block at the
    position of its item: what a run without an exception records. *)
Fixpoint item_placements (parent child : IPv4Network) (it : item)
  {struct it} : list placement :=
  match it with
  | IStr s =>
      if String.eqb s placeholder_token then []
      else [mkPlacement s child parent]
  | IList l =>
      match child_subnets_of child l with
      | Ok cs =>
          flat_map_enumerate
            (fun i x =>
               match nth_error cs i with
               | Some c => item_placements child c x
               | None => []
               end) 0%nat l
      | Raise _ => []
      end
  | INone | IDict _ => []
  end.

Definition placements (parent : IPv4Network) (s : StructureType)
  : list placement :=
  item_placements parent parent (IList s).

(** Whether a tree can be allocated in a block: no level fails to size,
    exceeds the 32 bits or has more items than sub-blocks.  The
    identifiers play no part in it. *)
Fixpoint item_feasible (child : IPv4Network) (it : item) {struct it}
  : bool :=
  match it with
  | IList l =>
      match child_subnets_of child l with
      | Ok cs =>
          forallb_enumerate
            (fun i x =>
               match nth_error cs i with
               | Some c => item_feasible c x
               | None => false
               end) 0%nat l
      | Raise _ => false
      end
  | _ => true
  end.

Definition feasible (parent : IPv4Network) (s : StructureType) : bool :=
  item_feasible parent (IList s).

(** Recording placements in a dict, in order. *)
Definition record (d : dict IPv4Network) (p : placement)
  : dict IPv4Network :=
  dict_set (leaf p) (block p) d.

Definition replay (d : dict IPv4Network) (ps : list placement)
  : dict IPv4Network :=
  fold_left record ps d.

Definition entry_of (p : placement) : string * IPv4Network :=
  (leaf p, block p).

(** The block of the last placement of [id]. *)
Definition last_block (id : string) (ps : list placement)
  : option IPv4Network :=
  option_map block (find (fun p => String.eqb id (leaf p)) (rev ps)).

(** The loop of [_compute] over a part of the items, from index [i]. *)
Definition walk (child_subnets : list IPv4Network)
  : nat -> StructureType -> M unit :=
  for_enumerate
    (fun i structure_item =>
       bind (lift (list_getitem child_subnets i))
            (fun child_subnet => _compute_item child_subnet structure_item)).

(** The search of one level for the branch that exceeds the 32 bits:
    the items are taken in order, each at the sub-block of its index; [rec]
    looks into an item; an item in which nothing fails hands on its
    placements, and any other failure ends the search without a find. *)
Definition overflow_in_level
  (rec : IPv4Network -> item -> option (list placement * Z))
  (parent : IPv4Network) (cs : list IPv4Network)
  : nat -> StructureType -> option (list placement * Z) :=
  fix go (i : nat) (xs : StructureType) {struct xs}
    : option (list placement * Z) :=
    match xs with
    | [] => None
    | x :: xs' =>
        match nth_error cs i with
        | None => None
        | Some c =>
            match rec c x with
            | Some found => Some found
            | None =>
                if item_feasible c x then
                  match go (S i) xs' with
                  | Some (ps, k) => Some (item_placements parent c x ++ ps, k)
                  | None => None
                  end
                else None
            end
        end
    end.

(** [item_overflow child it = Some (ps, k)]: taken in pre-order, the tree
    [it] in the block [child] comes, before anything else goes wrong, to a
    level whose prefix plus the prefix length of its block is [k > 32]; [ps]
    are the leaves that come before that level in pre-order, each with the
    block of its position. *)
Fixpoint item_overflow (child : IPv4Network) (it : item) {struct it}
  : option (list placement * Z) :=
  match it with
  | IList l =>
      match find_structure_len l with
      | Ok n =>
          match find_prefix n with
          | Ok p =>
              if p + prefixlen child >? 32
              then Some ([], p + prefixlen child)
              else
                match subnets child p with
                | Ok cs => overflow_in_level item_overflow child cs 0%nat l
                | Raise _ => None
                end
          | Raise _ => None
          end
      | Raise _ => None
      end
  | _ => None
  end.

Definition leaves_before_overflow (root : IPv4Network) (s : StructureType)
  : option (list placement * Z) :=
  item_overflow root (IList s).

(** The k-th sub-block of [n] for a prefix longer by [d]. *)
Definition nth_subnet (n : IPv4Network) (d : Z) (k : nat) : IPv4Network :=
  mkNet (network_address n + Z.of_nat k * 2 ^ (32 - prefixlen n - d))
        (prefixlen n + d).

(** Two networks share no address; one network lies in another. *)
Definition apart (a b : IPv4Network) : Prop :=
  broadcast_address a < network_address b \/
  broadcast_address b < network_address a.

Definition inside (a b : IPv4Network) : Prop :=
  network_address b <= network_address a /\
  broadcast_address a <= broadcast_address b.

(** The sub-blocks of a level: valid, inside the parent, in increasing
    order without a common address. *)
Definition well_split (parent : IPv4Network) (cs : list IPv4Network) : Prop :=
  forall i c, nth_error cs i = Some c ->
    valid c /\ inside c parent /\
    forall j c', (j < i)%nat -> nth_error cs j = Some c' ->
                 broadcast_address c' < network_address c.

(** A placement made in the sequence of [parent] at the sub-block [child]:
    its block is a network inside [child] and inside the block of its own
    structural parent, which lies inside [parent]. *)
Definition placement_ok (parent child : IPv4Network) (p : placement) : Prop :=
  valid (block p) /\ inside (block p) child /\
  inside (block p) (parent_block p) /\ inside (parent_block p) parent.

Definition blocks_apart (p q : placement) : Prop :=
  apart (block p) (block q).

(** A strict descendant: inside, with a longer prefix. *)
Definition strictly_inside (a b : IPv4Network) : Prop :=
  inside a b /\ prefixlen b < prefixlen a.

(** No identifier twice, as a test. *)
Fixpoint distinct (l : list string) : bool :=
  match l with
  | [] => true
  | x :: xs => negb (existsb (String.eqb x) xs) && distinct xs
  end.

(** [p] is the smallest exponent with [2^p >= n]. *)
Definition smallest_exponent (n p : Z) : Prop :=
  0 <= p /\ n <= 2 ^ p /\ forall q, 0 <= q -> n <= 2 ^ q -> p <= q.

(** Addresses as dotted quads, for the examples. *)
Definition ip (a b c d : Z) : Z :=
  a * 2 ^ 24 + b * 2 ^ 16 + c * 2 ^ 8 + d.

Definition cidr (a b c d p : Z) : IPv4Network := mkNet (ip a b c d) p.

(** The structure of the example 'company' of the program (lines
    305-317). *)
Definition cfg_company : NetworkStructureConfiguration :=
  mkConfig (cidr 10 0 0 0 8) []
    [IStr "vpc-1"; IStr "vpc-2";
     IList [IList [IList [IStr "vpc-3-data-1"; IStr "vpc-3-data-2";
                          IStr "__placeholder__"];
                   IList [IStr "vpc-3-public-1"; IStr "vpc-3-public-2";
                          IStr "__placeholder__"]];
            IStr "vpc-3-compute-1"; IDict (Some 2)];
     IDict (Some 253)].

(** Configurations for the examples. *)
Definition cfg_nested : NetworkStructureConfiguration :=
  mkConfig (cidr 10 1 0 0 16) []
    [IStr "public"; IList [IStr "a"; IDict (Some 2); INone]; IStr "data"].

Definition cfg_single_leaf : NetworkStructureConfiguration :=
  mkConfig (cidr 10 0 0 0 8) [] [IStr "a"].

Definition cfg_twice : NetworkStructureConfiguration :=
  mkConfig (cidr 10 0 0 0 8) [] [IStr "a"; IStr "a"].

Definition cfg_twice_nested : NetworkStructureConfiguration :=
  mkConfig (cidr 10 0 0 0 8) []
    [IStr "a"; IList [IStr "b"; IStr "a"]; IStr "c"].

Definition cfg_too_deep : NetworkStructureConfiguration :=
  mkConfig (cidr 10 0 0 0 31) []
    [IStr "a"; IList [IStr "b"; IStr "c"; IStr "d"]].

Definition cfg_placeholder_inside : NetworkStructureConfiguration :=
  mkConfig (cidr 10 0 0 0 8) [] [IStr "a"; IDict (Some 2); IStr "b"].

(** Metadata that gives "a" a description and no name. *)
Definition cfg_unnamed : NetworkStructureConfiguration :=
  mkConfig (cidr 10 0 0 0 8)
    [("a", SubnetMetadata.make None (Some "first") None)] [IStr "a"].

(** Metadata that gives "a" a name and no description. *)
Definition cfg_undescribed : NetworkStructureConfiguration :=
  mkConfig (cidr 10 0 0 0 8)
    [("a", SubnetMetadata.make (Some "A") None None)] [IStr "a"].

(** The example 'simple' of the program (lines 239-254) and its plan. *)
Definition cfg_simple : NetworkStructureConfiguration :=
  mkConfig (cidr 10 1 0 0 16)
    [("public", SubnetMetadata.make (Some "PUBLIC")
                  (Some "Hosts internet facing resources.") None);
     ("private", SubnetMetadata.make (Some "PRIVATE")
                   (Some "Hosts compute resources.") None);
     ("data", SubnetMetadata.make (Some "DATA")
                (Some "Hosts databases.") None)]
    [IStr "public"; IStr "private"; IStr "data"].

Definition plan_simple : dict IPv4Network :=
  [("public", cidr 10 1 0 0 18); ("private", cidr 10 1 64 0 18);
   ("data", cidr 10 1 128 0 18)].

(** The character [c] does not occur in [s]. *)
Fixpoint lacks (c : ascii) (s : string) : bool :=
  match s with
  | EmptyString => true
  | String c' s' => negb (Ascii.eqb c' c) && lacks c s'
  end.

(** A number whose decimal form is read back as an octet, and has neither
    a dot nor a slash in it. *)
Definition octet_round_trips (b : Z) : bool :=
  match _parse_octet (str_of_int b) with
  | Ok b' => b' =? b
  | Raise _ => false
  end && lacks "." (str_of_int b) && lacks "/" (str_of_int b).

(** The same for a prefix length. *)
Definition prefix_round_trips (p : Z) : bool :=
  match _prefix_from_prefix_string (str_of_int p) with
  | Ok p' => p' =? p
  | Raise _ => false
  end && lacks "/" (str_of_int p).

(** What [build_data] puts in a record besides the names: the network, and
    its lowest and highest address as strings. *)
Definition info_of_network (info : SubnetInfo.t) : Prop :=
  valid (SubnetInfo.cidr info) /\
  SubnetInfo.first_address info
  = address_compressed (network_address (SubnetInfo.cidr info)) /\
  SubnetInfo.last_address info
  = address_compressed (broadcast_address (SubnetInfo.cidr info)).

(** ** More vocabulary: slots, kinds of items *)

(** The slots an item stands for in the sizing of its level. *)
Definition slot_weight (it : item) : Z :=
  match it with
  | IDict (Some n) => n
  | _ => 1
  end.

Definition slot_count (s : StructureType) : Z :=
  fold_right Z.add 0 (map slot_weight s).

(** A dict without the key '__placeholder__'. *)
Definition lacks_key (it : item) : bool :=
  match it with
  | IDict None => true
  | _ => false
  end.


(** An item that is no list and no dict: a leaf or a single placeholder. *)
Definition is_scalar (it : item) : bool :=
  match it with
  | INone | IStr _ => true
  | IList _ | IDict _ => false
  end.

(** An item that records nothing, itself or below. *)
Definition records_nothing (it : item) : bool :=
  match item_leaf_ids it with
  | [] => true
  | _ :: _ => false
  end.

(** [st'] comes from [st] by writes to identifiers of [ids] only: keys
    are appended, never removed or moved, and an identifier outside [ids]
    keeps what it had. *)
Definition extends_by (ids : list string) (st st' : dict IPv4Network)
  : Prop :=
  (exists new, map fst st' = map fst st ++ new /\ incl new ids) /\
  forall id, ~ In id ids -> dict_get id st' = dict_get id st.

(** The mapping of [cfg_twice_nested]: "a" keeps its first place and holds
    the block of its second occurrence. *)
Definition plan_twice_nested : dict IPv4Network :=
  [("a", cidr 10 96 0 0 11); ("b", cidr 10 64 0 0 11);
   ("c", cidr 10 128 0 0 10)].

(** ** The text table of the exporter *)

(** [IPv4Network.num_addresses]: [broadcast_address - network_address + 1]. *)
Definition num_addresses (n : IPv4Network) : Z :=
  broadcast_address n - network_address n + 1.

Fixpoint spaces (n : nat) : string :=
  match n with
  | O => ""
  | S n' => String " " (spaces n')
  end.

(** [f'{s:<width}']: [s] padded with spaces on the right up to [width]
    characters, and left as it is when it is longer.  A character of a
    string stands for one character of the Python [str]. *)
Definition ljust (width : nat) (s : string) : string :=
  (s ++ spaces (width - String.length s))%string.

Definition newline : ascii := "010"%char.

(** The header row of [export_txt] (lines 139-140). *)
Definition txt_header : string :=
  (ljust 20 "NAME" ++ ljust 25 "CIDR" ++ ljust 15 "ADDRCOUNT"
   ++ ljust 20 "FIRSTADDR" ++ ljust 20 "LASTADDR"
   ++ ljust 50 "DESCRIPTION")%string.

(** The row of one record (lines 144-149). *)
Definition txt_row (info : SubnetInfo.t) : string :=
  (ljust 20 (SubnetInfo.name info)
   ++ ljust 25 (compressed (SubnetInfo.cidr info))
   ++ ljust 15 (str_of_int (num_addresses (SubnetInfo.cidr info)))
   ++ ljust 20 (SubnetInfo.first_address info)
   ++ ljust 20 (SubnetInfo.last_address info)
   ++ ljust 50 (SubnetInfo.description info))%string.

(** [Exporter.export_txt] (lines 137-151). *)
Definition export_txt (self : Exporter.t) : string :=
  join (String newline "") (txt_header :: map txt_row (Exporter.data self)).

(** The decimal form of a number is short and has no line break. *)
Definition prints_within (width : nat) (n : Z) : bool :=
  (String.length (str_of_int n) <=? width)%nat &&
  lacks newline (str_of_int n).

(** ** The metadata an entry resolves to *)

(** [self.config.metadata.get(subnet_id, self.default_metadata)] with the
    default that a constructor argument [dm] leaves in [self]. *)
Definition resolved (cfg : NetworkStructureConfiguration)
  (dm : option SubnetMetadata.t) (id : string) : SubnetMetadata.t :=
  dict_get_default id
    (match dm with Some m => m | None => Exporter.fallback_metadata end)
    (metadata cfg).

(** Metadata with a name and a description. *)
Definition complete (md : SubnetMetadata.t) : bool :=
  match SubnetMetadata.name md, SubnetMetadata.description md with
  | Some _, Some _ => true
  | _, _ => false
  end.

(** The record of an entry that has no metadata of its own, under the
    built-in default: named by its identifier, described by '---'. *)
Definition default_record (kv : string * IPv4Network) : SubnetInfo.t :=
  SubnetInfo.make (fst kv) (fst kv) "---" (snd kv)
    (address_compressed (network_address (snd kv)))
    (address_compressed (broadcast_address (snd kv))).

(** ** The elements of a structure before they are items *)

(** A value as [yaml.safe_load] hands it over.  The type of the
    configuration checks the top level of [structure] (strings, lists, dicts
    from '__placeholder__' to an int) and leaves the elements of a nested
    list as they are, so that anything can stand there.  A dict is given by
    what it holds under '__placeholder__', if anything: the code reads no
    other key.  [VOther] is any other value (a float, a set, a date). *)
Inductive pyval : Type :=
| VNone
| VStr (s : string)
| VInt (z : Z)
| VList (l : list pyval)
| VDict (placeholder : option pyval)
| VOther.

(** All of the list, or nothing. *)
Fixpoint sequence {A} (l : list (option A)) : option (list A) :=
  match l with
  | [] => Some []
  | None :: _ => None
  | Some a :: rest =>
      match sequence rest with
      | Some r => Some (a :: r)
      | None => None
      end
  end.

(** The item that stands for a value, for the values that [item] has a
    place for: None, a string, a list of such values, a dict without the
    key or with an int under it.  An element that is an int or any other
    value, and a dict with anything but an int under '__placeholder__', has
    none: on those the program raises a TypeError or uses a key that is no
    string, which the embedding does not follow. *)
Fixpoint item_of (v : pyval) : option item :=
  match v with
  | VNone => Some INone
  | VStr s => Some (IStr s)
  | VList l => option_map IList (sequence (map item_of l))
  | VDict None => Some (IDict None)
  | VDict (Some (VInt z)) => Some (IDict (Some z))
  | VDict (Some _) => None
  | VInt _ | VOther => None
  end.

Definition structure_of (raw : list pyval) : option StructureType :=
  sequence (map item_of raw).

(** * Properties *)

(** ** [range] *)

Lemma range_eq (a b : Z) :
  range a b = map (fun k => a + Z.of_nat k) (seq 0 (Z.to_nat (b - a))).
Proof.
  unfold range, range3.
  replace ((b - a + 1 - 1) / 1) with (b - a) by (rewrite Z.div_1_r; lia).
  apply map_ext. intros k. lia.
Qed.

Lemma In_range (x a b : Z) : In x (range a b) <-> a <= x < b.
Proof.
  rewrite range_eq, in_map_iff. split.
  - intros [k [<- Hk]]. apply in_seq in Hk. lia.
  - intros H. exists (Z.to_nat (x - a)). split; [lia|].
    apply in_seq. lia.
Qed.

(** A property checked on every number of an interval holds on the
    interval. *)
Lemma forallb_range (P : Z -> bool) (a b : Z) :
  forallb P (range a b) = true -> forall x, a <= x < b -> P x = true.
Proof.
  intros H x Hx. rewrite forallb_forall in H. apply H. now apply In_range.
Qed.

(** ** Masks *)

Section Masks.

Variable n : IPv4Network.
Hypothesis Hpl : 0 <= prefixlen n <= 32.

Local Notation "'h'" := (32 - prefixlen n).

Lemma mask_facts :
  hostmask n = Z.ones h /\
  Z.land (netmask n) (Z.ones h) = 0 /\
  Z.lor (netmask n) (Z.ones h) = Z.ones 32.
Proof.
  unfold hostmask, netmask.
  assert (H := forallb_range
    (fun p =>
       let nm := Z.lxor ALL_ONES (Z.shiftr ALL_ONES p) in
       (Z.lxor nm ALL_ONES =? Z.ones (32 - p)) &&
       (Z.land nm (Z.ones (32 - p)) =? 0) &&
       (Z.lor nm (Z.ones (32 - p)) =? Z.ones 32)) 0 33
    eq_refl (prefixlen n) ltac:(lia)).
  cbv beta zeta in H.
  apply andb_prop in H. destruct H as [H H3].
  apply andb_prop in H. destruct H as [H1 H2].
  apply Z.eqb_eq in H1, H2, H3. auto.
Qed.

Lemma hostmask_eq : hostmask n = 2 ^ h - 1.
Proof.
  destruct mask_facts as [-> _]. rewrite Z.ones_equiv. lia.
Qed.

Lemma pow_h_pos : 0 < 2 ^ h.
Proof. apply Z.pow_pos_nonneg; lia. Qed.

(** Every 32-bit number is its network part plus its host part. *)
Lemma land_netmask (x : Z) :
  0 <= x < 2 ^ 32 -> Z.land x (netmask n) = x - x mod 2 ^ h.
Proof.
  intros Hx. destruct mask_facts as [_ [Hd Hu]].
  assert (Hx32 : Z.land x (Z.ones 32) = x).
  { rewrite Z.land_ones by lia. apply Z.mod_small. exact Hx. }
  assert (Hsplit : x = Z.land x (netmask n) + Z.land x (Z.ones h)).
  { rewrite Z.add_nocarry_lxor, Z.lxor_lor.
    - rewrite <- Z.land_lor_distr_r, Hu. symmetry. exact Hx32.
    - rewrite Z.land_assoc, (Z.land_comm (Z.land x (netmask n)) x),
        Z.land_assoc, Z.land_diag, <- Z.land_assoc, Hd. apply Z.land_0_r.
    - rewrite Z.land_assoc, (Z.land_comm (Z.land x (netmask n)) x),
        Z.land_assoc, Z.land_diag, <- Z.land_assoc, Hd. apply Z.land_0_r. }
  rewrite Z.land_ones in Hsplit by lia. lia.
Qed.

End Masks.

(** The invariant of an [IPv4Network] in arithmetic. *)
Lemma valid_iff (n : IPv4Network) :
  valid n <->
  0 <= prefixlen n <= 32 /\ 0 <= network_address n < 2 ^ 32 /\
  network_address n mod 2 ^ (32 - prefixlen n) = 0.
Proof.
  unfold valid. split; intros (Hp & Ha & H); repeat split; try lia.
  - rewrite land_netmask in H by assumption. lia.
  - rewrite land_netmask by assumption. lia.
Qed.

Lemma validb_spec (n : IPv4Network) : validb n = true <-> valid n.
Proof.
  unfold validb, valid. rewrite !andb_true_iff, !Z.leb_le, Z.ltb_lt, Z.eqb_eq.
  tauto.
Qed.

Lemma broadcast_eq (n : IPv4Network) :
  valid n ->
  broadcast_address n = network_address n + 2 ^ (32 - prefixlen n) - 1.
Proof.
  intros Hv. apply valid_iff in Hv. destruct Hv as (Hp & Ha & Hm).
  unfold broadcast_address.
  destruct (mask_facts n Hp) as [Hh _]. rewrite Hh.
  rewrite <- Z.lxor_lor, <- Z.add_nocarry_lxor.
  - rewrite Z.ones_equiv. lia.
  - rewrite Z.land_ones by lia. exact Hm.
  - rewrite Z.land_ones by lia. exact Hm.
Qed.

Lemma broadcast_bounds (n : IPv4Network) :
  valid n -> network_address n <= broadcast_address n < 2 ^ 32.
Proof.
  intros Hv. rewrite (broadcast_eq n Hv).
  apply valid_iff in Hv. destruct Hv as (Hp & Ha & Hm).
  assert (Hpos := pow_h_pos n Hp).
  split; [lia|].
  assert (Hsplit : 2 ^ 32 = 2 ^ (32 - prefixlen n) * 2 ^ prefixlen n).
  { rewrite <- Z.pow_add_r by lia. f_equal. lia. }
  apply Z.mod_divide in Hm; [|lia]. destruct Hm as [q Hq].
  rewrite Hq in *. 
  assert (q < 2 ^ prefixlen n) by nia.
  nia.
Qed.

(** [address in n] is: between the network and the broadcast address. *)
Lemma contains_iff (n : IPv4Network) (x : Z) :
  valid n -> 0 <= x < 2 ^ 32 ->
  contains n x = true <-> network_address n <= x <= broadcast_address n.
Proof.
  intros Hv Hx. rewrite (broadcast_eq n Hv).
  apply valid_iff in Hv. destruct Hv as (Hp & Ha & Hm).
  unfold contains. rewrite Z.eqb_eq, (land_netmask n Hp x Hx).
  assert (Hpos := pow_h_pos n Hp).
  set (s := 2 ^ (32 - prefixlen n)) in *.
  pose proof (Z.mod_pos_bound x s Hpos) as Hb.
  pose proof (Z.div_mod x s ltac:(lia)) as Hdx.
  apply Z.mod_divide in Hm; [|lia]. destruct Hm as [q Hq].
  split; intros H.
  - lia.
  - rewrite Hq in *.
    assert (x / s = q) by nia. subst q. lia.
Qed.

(** ** [subnets] *)

Lemma subnets_eq (n : IPv4Network) (d : Z) :
  valid n -> 0 <= d -> prefixlen n + d <= 32 ->
  subnets n d = Ok (map (nth_subnet n d) (seq 0 (Z.to_nat (2 ^ d)))).
Proof.
  intros Hv Hd Hsum.
  pose proof (broadcast_eq n Hv) as Hb.
  apply valid_iff in Hv. destruct Hv as (Hp & Ha & Hm).
  unfold subnets, max_prefixlen.
  destruct (Z.eqb_spec (prefixlen n) 32) as [E|NE].
  - assert (d = 0) by lia. subst d. simpl. unfold nth_subnet.
    destruct n as [a p]. simpl in *. subst p. simpl.
    rewrite Z.add_0_r. reflexivity.
  - destruct (Z.ltb_spec d 0) as [|_]; [lia|].
    destruct (Z.gtb_spec (prefixlen n + d) 32) as [|_]; [lia|].
    rewrite (hostmask_eq n Hp), Hb.
    replace (2 ^ (32 - prefixlen n) - 1 + 1) with (2 ^ (32 - prefixlen n))
      by lia.
    rewrite Z.shiftr_div_pow2 by lia.
    assert (Hsplit : 2 ^ (32 - prefixlen n)
                     = 2 ^ d * 2 ^ (32 - prefixlen n - d)).
    { rewrite <- Z.pow_add_r by lia. f_equal. lia. }
    assert (Hs : 0 < 2 ^ (32 - prefixlen n - d))
      by (apply Z.pow_pos_nonneg; lia).
    assert (Hdpos : 0 < 2 ^ d) by (apply Z.pow_pos_nonneg; lia).
    set (s := 2 ^ (32 - prefixlen n - d)) in *.
    assert (Hstep : 2 ^ (32 - prefixlen n) / 2 ^ d = s).
    { rewrite Hsplit, Z.mul_comm. apply Z.div_mul. lia. }
    rewrite Hstep.
    destruct (Z.eqb_spec s 0) as [|_]; [lia|].
    unfold range3. rewrite map_map. f_equal.
    replace ((network_address n + 2 ^ (32 - prefixlen n) - 1 + 1
              - network_address n + s - 1) / s) with (2 ^ d).
    + reflexivity.
    + rewrite Hsplit.
      replace (network_address n + 2 ^ d * s - 1 + 1 - network_address n
               + s - 1) with (2 ^ d * s + (s - 1)) by lia.
      rewrite Z.div_add_l by lia.
      rewrite (Z.div_small (s - 1)) by lia. lia.
Qed.

Section Children.

Variables (n : IPv4Network) (d : Z).
Hypothesis Hv : valid n.
Hypothesis Hd : 0 <= d.
Hypothesis Hsum : prefixlen n + d <= 32.

Local Notation "'s'" := (2 ^ (32 - prefixlen n - d)).

Lemma split_size : 2 ^ (32 - prefixlen n) = 2 ^ d * s /\ 0 < s /\ 0 < 2 ^ d.
Proof.
  apply valid_iff in Hv. repeat split.
  - rewrite <- Z.pow_add_r by lia. f_equal. lia.
  - apply Z.pow_pos_nonneg; lia.
  - apply Z.pow_pos_nonneg; lia.
Qed.

Lemma nth_subnet_valid (k : nat) :
  Z.of_nat k < 2 ^ d -> valid (nth_subnet n d k).
Proof.
  intros Hk. destruct split_size as (Hsplit & Hs & Hdpos).
  pose proof (broadcast_bounds n Hv) as Hbb.
  rewrite (broadcast_eq n Hv) in Hbb.
  pose proof Hv as Hv'. apply valid_iff in Hv'.
  destruct Hv' as (Hp & Ha & Hm).
  apply valid_iff. unfold nth_subnet. cbn [network_address prefixlen].
  replace (32 - (prefixlen n + d)) with (32 - prefixlen n - d) by lia.
  repeat split; try lia; try nia.
  apply Z.mod_divide in Hm; [|lia]. destruct Hm as [q Hq].
  rewrite Hq, Hsplit.
  replace (q * (2 ^ d * s) + Z.of_nat k * s)
    with ((q * 2 ^ d + Z.of_nat k) * s) by ring.
  apply Z.mod_mul. lia.
Qed.

Lemma nth_subnet_range (k : nat) :
  Z.of_nat k < 2 ^ d ->
  network_address (nth_subnet n d k) = network_address n + Z.of_nat k * s /\
  broadcast_address (nth_subnet n d k)
  = network_address n + Z.of_nat k * s + s - 1.
Proof.
  intros Hk. split; [reflexivity|].
  rewrite (broadcast_eq _ (nth_subnet_valid k Hk)).
  unfold nth_subnet. cbn [network_address prefixlen].
  replace (32 - (prefixlen n + d)) with (32 - prefixlen n - d) by lia.
  reflexivity.
Qed.

Lemma nth_subnet_inside (k : nat) :
  Z.of_nat k < 2 ^ d ->
  network_address n <= network_address (nth_subnet n d k) /\
  broadcast_address (nth_subnet n d k) <= broadcast_address n.
Proof.
  intros Hk. destruct (nth_subnet_range k Hk) as [-> ->].
  rewrite (broadcast_eq n Hv).
  destruct split_size as (-> & Hs & Hdpos).
  assert ((Z.of_nat k + 1) * s <= 2 ^ d * s)
    by (apply Z.mul_le_mono_nonneg_r; lia).
  assert (0 <= Z.of_nat k * s) by (apply Z.mul_nonneg_nonneg; lia).
  lia.
Qed.

Lemma nth_subnet_apart (j k : nat) :
  (j < k)%nat -> Z.of_nat k < 2 ^ d ->
  broadcast_address (nth_subnet n d j) < network_address (nth_subnet n d k).
Proof.
  intros Hjk Hk.
  destruct (nth_subnet_range k Hk) as [-> _].
  destruct (nth_subnet_range j ltac:(lia)) as [_ ->].
  destruct split_size as (_ & Hs & _).
  assert ((Z.of_nat j + 1) * s <= Z.of_nat k * s)
    by (apply Z.mul_le_mono_nonneg_r; lia).
  lia.
Qed.

End Children.

Lemma subnet_of_iff (a b : IPv4Network) :
  subnet_of a b = true <-> inside a b.
Proof.
  unfold subnet_of, inside. now rewrite andb_true_iff, !Z.leb_le.
Qed.

Lemma inside_refl (a : IPv4Network) : inside a a.
Proof. unfold inside. lia. Qed.

Lemma inside_trans (a b c : IPv4Network) :
  inside a b -> inside b c -> inside a c.
Proof. unfold inside. lia. Qed.

Lemma apart_sym (a b : IPv4Network) : apart a b -> apart b a.
Proof. unfold apart. tauto. Qed.

Lemma apart_inside (a b a' b' : IPv4Network) :
  valid a' -> valid b' ->
  apart a b -> inside a' a -> inside b' b -> apart a' b'.
Proof.
  unfold apart, inside. intros Ha Hb H Hia Hib.
  pose proof (broadcast_bounds a' Ha). pose proof (broadcast_bounds b' Hb).
  lia.
Qed.

(** Networks that are apart do not overlap in the sense of
    [IPv4Network.overlaps]. *)
Lemma apart_overlaps (a b : IPv4Network) :
  valid a -> valid b -> apart a b -> overlaps a b = false.
Proof.
  intros Ha Hb H.
  pose proof (broadcast_bounds a Ha) as Hba.
  pose proof (broadcast_bounds b Hb) as Hbb.
  pose proof Ha as Ha'. apply valid_iff in Ha'.
  pose proof Hb as Hb'. apply valid_iff in Hb'.
  unfold overlaps.
  assert (F : forall n x, valid n -> 0 <= x < 2 ^ 32 ->
              ~ (network_address n <= x <= broadcast_address n) ->
              contains n x = false).
  { intros n x Hn Hx Hout. destruct (contains n x) eqn:E; [|reflexivity].
    apply contains_iff in E; tauto. }
  unfold apart in H.
  rewrite (F b (network_address a)), (F b (broadcast_address a)),
    (F a (network_address b)), (F a (broadcast_address b));
    try assumption; try lia.
Qed.

Lemma inside_prefixlen (a b : IPv4Network) :
  valid a -> valid b -> inside a b -> prefixlen b <= prefixlen a.
Proof.
  intros Ha Hb [H1 H2].
  rewrite (broadcast_eq a Ha), (broadcast_eq b Hb) in H2.
  apply valid_iff in Ha, Hb.
  destruct (Z.le_gt_cases (prefixlen b) (prefixlen a)) as [|Hgt];
    [assumption|].
  assert (2 * 2 ^ (32 - prefixlen b) <= 2 ^ (32 - prefixlen a)).
  { rewrite <- Z.pow_succ_r by lia. apply Z.pow_le_mono_r; lia. }
  assert (0 < 2 ^ (32 - prefixlen b)) by (apply Z.pow_pos_nonneg; lia).
  lia.
Qed.

(** A network inside another with the same prefix length is that
    network. *)
Lemma inside_same_prefixlen (a b : IPv4Network) :
  valid a -> valid b -> inside a b -> prefixlen a = prefixlen b -> a = b.
Proof.
  intros Ha Hb [H1 H2] Hp.
  rewrite (broadcast_eq a Ha), (broadcast_eq b Hb), Hp in H2.
  destruct a as [aa pa], b as [ab pb]. cbn [network_address prefixlen] in *.
  subst pb. f_equal. lia.
Qed.

(** ** [find_prefix] *)

Lemma range_cons (a b : Z) : a < b -> range a b = a :: range (a + 1) b.
Proof.
  intros H. rewrite !range_eq.
  replace (Z.to_nat (b - a)) with (S (Z.to_nat (b - (a + 1)))) by lia.
  cbn [seq map]. f_equal; [lia|].
  rewrite <- seq_shift, map_map. apply map_ext. intros k. lia.
Qed.

Lemma range_nil (a b : Z) : b <= a -> range a b = [].
Proof.
  intros H. rewrite range_eq.
  replace (Z.to_nat (b - a)) with 0%nat by lia. reflexivity.
Qed.

(** [find] over a range returns the first number that passes the test. *)
Lemma find_range (P : Z -> bool) (b : Z) :
  forall (k : nat) (a : Z), Z.of_nat k = b - a ->
  match find P (range a b) with
  | Some i => a <= i < b /\ P i = true /\ forall j, a <= j < i -> P j = false
  | None => forall j, a <= j < b -> P j = false
  end.
Proof.
  induction k as [|k IH]; intros a Hk.
  - rewrite range_nil by lia. simpl. intros j Hj. lia.
  - rewrite range_cons by lia. simpl.
    destruct (P a) eqn:Ea.
    + split; [lia|]. split; [assumption|]. intros j Hj. lia.
    + specialize (IH (a + 1) ltac:(lia)).
      destruct (find P (range (a + 1) b)) as [i|].
      * destruct IH as (Hi & HP & Hmin).
        split; [lia|]. split; [assumption|].
        intros j Hj. destruct (Z.eq_dec j a) as [->|]; [assumption|].
        apply Hmin. lia.
      * intros j Hj. destruct (Z.eq_dec j a) as [->|]; [assumption|].
        apply IH. lia.
Qed.

Lemma find_prefix_ok (n p : Z) :
  find_prefix n = Ok p ->
  0 <= p < 32 /\ n <= 2 ^ p /\ forall q, 0 <= q < p -> 2 ^ q < n.
Proof.
  unfold find_prefix. intros H.
  pose proof (find_range (fun i => n <=? 2 ^ i) 32 32 0 eq_refl) as F.
  destruct (find (fun i => n <=? 2 ^ i) (range 0 32)) as [i|];
    [|discriminate].
  injection H as ->. destruct F as (Hp & Hle & Hmin).
  repeat split; try lia.
  intros q Hq. specialize (Hmin q Hq). lia.
Qed.

Lemma find_prefix_raise (n : Z) (e : exn) :
  find_prefix n = Raise e ->
  e = CannotFindPrefix n /\ forall q, 0 <= q < 32 -> 2 ^ q < n.
Proof.
  unfold find_prefix. intros H.
  pose proof (find_range (fun i => n <=? 2 ^ i) 32 32 0 eq_refl) as F.
  destruct (find (fun i => n <=? 2 ^ i) (range 0 32)) as [i|];
    [discriminate|].
  injection H as <-. split; [reflexivity|].
  intros q Hq. specialize (F q Hq). lia.
Qed.

Lemma find_prefix_small (n : Z) :
  n <= 2 ^ 31 -> exists p, find_prefix n = Ok p.
Proof.
  intros H. destruct (find_prefix n) as [p|e] eqn:E; [now exists p|].
  apply find_prefix_raise in E. destruct E as [_ E].
  specialize (E 31 ltac:(lia)). lia.
Qed.

(** C3, amended.  For every n in [0, 2^32]: when n <= 2^31, [find_prefix n]
    returns the smallest p with 2^p >= n, and that p is below 32; when
    n > 2^31 it raises the sizing error, and then no p in [0, 32) has
    2^p >= n.  Moreover find_prefix(0) = 0, find_prefix(1) = 0,
    find_prefix(2) = 1 and find_prefix(3) = 2. *)
Theorem find_prefix_smallest_below_32 (n : Z) :
  0 <= n <= 2 ^ 32 ->
  (n <= 2 ^ 31 ->
   exists p, find_prefix n = Ok p /\ p < 32 /\ smallest_exponent n p) /\
  (2 ^ 31 < n ->
   find_prefix n = Raise (CannotFindPrefix n) /\
   forall p, 0 <= p < 32 -> 2 ^ p < n) /\
  find_prefix 0 = Ok 0 /\ find_prefix 1 = Ok 0 /\
  find_prefix 2 = Ok 1 /\ find_prefix 3 = Ok 2.
Proof.
  intros Hn. split; [|split].
  - intros Hs. destruct (find_prefix_small n Hs) as [p Hp].
    exists p. split; [assumption|].
    apply find_prefix_ok in Hp. destruct Hp as (Hr & Hle & Hmin).
    split; [lia|]. repeat split; try lia.
    intros q Hq Hnq. destruct (Z.le_gt_cases p q) as [|Hlt]; [assumption|].
    specialize (Hmin q ltac:(lia)). lia.
  - intros Hb. destruct (find_prefix n) as [p|e] eqn:E.
    + apply find_prefix_ok in E. destruct E as (Hr & Hle & _).
      assert (2 ^ p <= 2 ^ 31) by (apply Z.pow_le_mono_r; lia). lia.
    + apply find_prefix_raise in E. destruct E as [-> E]. auto.
  - repeat split; reflexivity.
Qed.

Lemma find_prefix_smallest_below_32_witness :
  0 <= 3 <= 2 ^ 32 /\
  exists p, find_prefix 3 = Ok p /\ p < 32 /\ smallest_exponent 3 p.
Proof.
  split; [lia|].
  apply (find_prefix_smallest_below_32 3); lia.
Defined.

(** C3 as stated fails at n = 2^32: the smallest p with 2^p >= n is 32, and
    [find_prefix] raises. *)
Lemma find_prefix_refuses_2_pow_32 :
  0 <= 2 ^ 32 <= 2 ^ 32 /\ smallest_exponent (2 ^ 32) 32 /\
  find_prefix (2 ^ 32) = Raise (CannotFindPrefix (2 ^ 32)).
Proof.
  split; [lia|]. split.
  - repeat split; try lia. intros q Hq H.
    destruct (Z.le_gt_cases 32 q) as [|Hlt]; [assumption|].
    assert (2 ^ q <= 2 ^ 31) by (apply Z.pow_le_mono_r; lia). lia.
  - vm_compute. reflexivity.
Qed.

(** ** [find_structure_len] and the sub-blocks of a level *)

Lemma find_structure_len_from_ge (s : StructureType) :
  forallb count_positive s = true ->
  forall c n,
    find_structure_len_from c s = Ok n -> c + Z.of_nat (List.length s) <= n.
Proof.
  induction s as [|it s IH]; intros Hs c n Hn.
  - simpl in *. injection Hn as <-. lia.
  - simpl in Hs. apply andb_prop in Hs. destruct Hs as [Hit Hs].
    specialize (IH Hs).
    destruct it as [| id | l | [k|]]; simpl in Hit;
      cbn [find_structure_len_from List.length] in *;
      try discriminate;
      try (specialize (IH (c + 1) n Hn); lia).
    apply Z.leb_le in Hit. specialize (IH (c + k) n Hn). lia.
Qed.

(** What the header of [_compute] yields when it raises nothing. *)
Lemma child_subnets_of_ok (parent : IPv4Network) (s : StructureType)
  (cs : list IPv4Network) :
  valid parent -> child_subnets_of parent s = Ok cs ->
  exists n p,
    find_structure_len s = Ok n /\ find_prefix n = Ok p /\
    0 <= p /\ n <= 2 ^ p /\ p + prefixlen parent <= 32 /\
    cs = map (nth_subnet parent p) (seq 0 (Z.to_nat (2 ^ p))).
Proof.
  intros Hv H. unfold child_subnets_of in H.
  destruct (find_structure_len s) as [n|e] eqn:En; [|discriminate].
  simpl in H.
  destruct (find_prefix n) as [p|e] eqn:Ep; [|discriminate].
  simpl in H.
  destruct (Z.gtb_spec (p + prefixlen parent) 32) as [|Hle]; [discriminate|].
  pose proof (find_prefix_ok n p Ep) as (Hp & Hnp & _).
  rewrite subnets_eq in H by (try assumption; lia).
  injection H as <-. exists n, p. repeat split; try assumption; lia.
Qed.

Lemma nth_error_children (parent : IPv4Network) (p : Z) (i : nat)
  (c : IPv4Network) :
  0 <= p ->
  nth_error (map (nth_subnet parent p) (seq 0 (Z.to_nat (2 ^ p)))) i = Some c ->
  c = nth_subnet parent p i /\ Z.of_nat i < 2 ^ p.
Proof.
  intros Hp H.
  assert (Hlen : (i < Z.to_nat (2 ^ p))%nat).
  { assert (Hn : nth_error (map (nth_subnet parent p)
                              (seq 0 (Z.to_nat (2 ^ p)))) i <> None)
      by congruence.
    apply nth_error_Some in Hn. now rewrite length_map, length_seq in Hn. }
  rewrite nth_error_map, nth_error_seq in H.
  destruct (Nat.ltb_spec i (Z.to_nat (2 ^ p))) as [_|]; [|lia].
  simpl in H. injection H as <-. split; [reflexivity|lia].
Qed.

Lemma child_subnets_well_split (parent : IPv4Network) (s : StructureType)
  (cs : list IPv4Network) :
  valid parent -> child_subnets_of parent s = Ok cs -> well_split parent cs.
Proof.
  intros Hv H.
  destruct (child_subnets_of_ok parent s cs Hv H)
    as (n & p & _ & _ & Hp & _ & Hsum & ->).
  intros i c Hc. apply nth_error_children in Hc; [|assumption].
  destruct Hc as [-> Hi]. split; [|split].
  - apply nth_subnet_valid; try assumption; lia.
  - apply nth_subnet_inside; try assumption; lia.
  - intros j c' Hj Hc'. apply nth_error_children in Hc'; [|assumption].
    destruct Hc' as [-> _].
    apply nth_subnet_apart; try assumption; lia.
Qed.

(** ** The loop of [_compute] *)

Lemma _compute_eq (parent : IPv4Network) (s : StructureType)
  (st : dict IPv4Network) :
  _compute parent s st =
  match child_subnets_of parent s with
  | Ok cs => walk cs 0%nat s st
  | Raise e => (Raise e, st)
  end.
Proof.
  unfold _compute, _compute_level, bind, lift, walk.
  destruct (child_subnets_of parent s); reflexivity.
Qed.

Lemma _compute_item_list (c : IPv4Network) (l : StructureType) :
  _compute_item c (IList l) = _compute c l.
Proof. reflexivity. Qed.

Lemma walk_nil (cs : list IPv4Network) (i : nat) (st : dict IPv4Network) :
  walk cs i [] st = (Ok tt, st).
Proof. reflexivity. Qed.

Lemma walk_cons (cs : list IPv4Network) (i : nat) (x : item)
  (xs : StructureType) (st : dict IPv4Network) :
  walk cs i (x :: xs) st =
  match nth_error cs i with
  | None => (Raise IndexError, st)
  | Some c =>
      match _compute_item c x st with
      | (Ok _, st') => walk cs (S i) xs st'
      | (Raise e, st') => (Raise e, st')
      end
  end.
Proof.
  unfold walk. cbn [for_enumerate]. unfold bind, lift, list_getitem.
  destruct (nth_error cs i); reflexivity.
Qed.

Lemma walk_app (cs : list IPv4Network) (xs ys : StructureType) :
  forall (i : nat) (st : dict IPv4Network),
  walk cs i (xs ++ ys) st =
  match walk cs i xs st with
  | (Ok _, st') => walk cs (i + List.length xs) ys st'
  | (Raise e, st') => (Raise e, st')
  end.
Proof.
  induction xs as [|x xs IH]; intros i st.
  - rewrite walk_nil. simpl. now rewrite Nat.add_0_r.
  - cbn [app List.length]. rewrite !walk_cons.
    destruct (nth_error cs i) as [c|]; [|reflexivity].
    destruct (_compute_item c x st) as [[[]|e] st1]; [|reflexivity].
    rewrite IH. now rewrite Nat.add_succ_r.
Qed.

(** Induction on items, with the hypothesis for every element of a nested
    list. *)
Lemma item_nested_ind (P : item -> Prop) :
  P INone ->
  (forall s, P (IStr s)) ->
  (forall l, Forall P l -> P (IList l)) ->
  (forall n, P (IDict n)) ->
  forall it, P it.
Proof.
  intros HN HS HL HD. fix IH 1. intros [| s | l | n].
  - exact HN.
  - apply HS.
  - apply HL. induction l as [|x xs IHxs]; constructor.
    + apply IH.
    + exact IHxs.
  - apply HD.
Qed.

(** ** The empty structure, and the bounds of the positional lookup *)

Lemma subnets_0 (n : IPv4Network) : valid n -> subnets n 0 = Ok [n].
Proof.
  intros Hv. pose proof Hv as Hv'. apply valid_iff in Hv'.
  rewrite subnets_eq by (try assumption; lia).
  change (Z.to_nat (2 ^ 0)) with 1%nat. cbn [seq map]. unfold nth_subnet.
  destruct n as [a p]. cbn [network_address prefixlen].
  do 2 f_equal. f_equal; lia.
Qed.

(** A level of at most one slot is not split: its one sub-block is the
    block itself. *)
Lemma single_slot_level (root : IPv4Network) (s : StructureType) (n : Z) :
  valid root -> find_structure_len s = Ok n -> n <= 1 ->
  child_subnets_of root s = Ok [root].
Proof.
  intros Hv Hn Hle.
  assert (Hp : 0 <= prefixlen root <= 32) by (apply valid_iff in Hv; tauto).
  unfold child_subnets_of. rewrite Hn. cbn [res_bind].
  assert (Hfp : find_prefix n = Ok 0).
  { destruct (find_prefix_small n ltac:(lia)) as [p Ep]. rewrite Ep.
    apply find_prefix_ok in Ep. destruct Ep as (Hr & _ & Hmin).
    destruct (Z.eq_dec p 0) as [->|]; [reflexivity|].
    specialize (Hmin 0 ltac:(lia)). simpl in Hmin. lia. }
  rewrite Hfp. cbn [res_bind].
  destruct (Z.gtb_spec (0 + prefixlen root) 32) as [|_]; [lia|].
  now apply subnets_0.
Qed.

(** C7.  On an empty structure and any valid root block (prefix length 0
    to 32): the slot count is 0, the prefix is 0, [subnets] returns the
    block itself (no split), the mapping is empty and nothing is raised.
    A group without children does the same in its branch: its call leaves
    the result as it is and raises nothing. *)
Theorem empty_structure_allocates_nothing (root : IPv4Network)
  (md : dict SubnetMetadata.t) :
  valid root ->
  find_structure_len [] = Ok 0 /\
  find_prefix 0 = Ok 0 /\
  child_subnets_of root [] = Ok [root] /\
  allocate (mkConfig root md []) = (Ok [], []) /\
  (forall st, _compute_item root (IList []) st = (Ok tt, st)) /\
  (forall st, _compute root [IList []] st = (Ok tt, st)).
Proof.
  intros Hv.
  assert (Hp : 0 <= prefixlen root <= 32) by (apply valid_iff in Hv; tauto).
  assert (Hcs : forall s n, find_structure_len s = Ok n -> n <= 1 ->
                child_subnets_of root s = Ok [root]).
  { intros s n Hn Hle. unfold child_subnets_of. rewrite Hn. simpl.
    assert (Hfp : find_prefix n = Ok 0).
    { destruct (find_prefix_small n ltac:(lia)) as [p Ep]. rewrite Ep.
      apply find_prefix_ok in Ep. destruct Ep as (Hr & _ & Hmin).
      destruct (Z.eq_dec p 0) as [->|]; [reflexivity|].
      specialize (Hmin 0 ltac:(lia)). simpl in Hmin. lia. }
    rewrite Hfp. simpl.
    destruct (Z.gtb_spec (prefixlen root) 32) as [|_]; [lia|].
    now apply subnets_0. }
  assert (He : forall st, _compute root [] st = (Ok tt, st)).
  { intros st. rewrite _compute_eq, (Hcs [] 0 eq_refl ltac:(lia)).
    apply walk_nil. }
  repeat split.
  - apply (Hcs [] 0 eq_refl). lia.
  - unfold allocate, compute, bind. cbn [network_cidr structure].
    rewrite He. reflexivity.
  - intros st. rewrite _compute_item_list. apply He.
  - intros st. rewrite _compute_eq, (Hcs [IList []] 1 eq_refl ltac:(lia)).
    rewrite walk_cons. cbn [nth_error]. rewrite _compute_item_list, He.
    apply walk_nil.
Qed.

Lemma empty_structure_allocates_nothing_witness :
  valid (cidr 10 0 0 0 8) /\
  allocate (mkConfig (cidr 10 0 0 0 8) [] []) = (Ok [], []).
Proof.
  assert (Hv : valid (cidr 10 0 0 0 8))
    by (apply validb_spec; vm_compute; reflexivity).
  split; [exact Hv|].
  apply (empty_structure_allocates_nothing (cidr 10 0 0 0 8) [] Hv).
Defined.

Lemma length_children (parent : IPv4Network) (p : Z) :
  0 <= p ->
  Z.of_nat (List.length (map (nth_subnet parent p)
                           (seq 0 (Z.to_nat (2 ^ p))))) = 2 ^ p.
Proof.
  intros Hp. rewrite length_map, length_seq.
  assert (0 < 2 ^ p) by (apply Z.pow_pos_nonneg; lia). lia.
Qed.

Lemma level_lookup_in_bounds (parent : IPv4Network) (s : StructureType)
  (cs : list IPv4Network) :
  valid parent -> forallb count_positive s = true ->
  child_subnets_of parent s = Ok cs ->
  exists n p,
    find_structure_len s = Ok n /\ find_prefix n = Ok p /\
    Z.of_nat (List.length cs) = 2 ^ p /\
    (List.length s <= List.length cs)%nat.
Proof.
  intros Hv Hs Hcs.
  destruct (child_subnets_of_ok parent s cs Hv Hcs)
    as (n & p & En & Ep & Hp & Hnp & Hsum & ->).
  exists n, p. pose proof (length_children parent p Hp) as Hlen.
  repeat split; try assumption.
  pose proof (find_structure_len_from_ge s Hs 0 n En) as Hn.
  lia.
Qed.

Lemma find_structure_len_from_raise (s : StructureType) :
  forall c e, find_structure_len_from c s = Raise e -> e = KeyError.
Proof.
  induction s as [|it s IH]; intros c e H; [discriminate|].
  destruct it as [| id | l | [k|]]; cbn [find_structure_len_from] in H;
    try (eapply IH; eassumption).
  congruence.
Qed.

Lemma child_subnets_of_no_IndexError (parent : IPv4Network)
  (s : StructureType) : child_subnets_of parent s <> Raise IndexError.
Proof.
  unfold child_subnets_of, find_structure_len. intros H.
  destruct (find_structure_len_from 0 s) as [n|e] eqn:En; simpl in H.
  - destruct (find_prefix n) as [p|e] eqn:Ep; simpl in H.
    + destruct (p + prefixlen parent >? 32); [discriminate|].
      unfold subnets in H.
      repeat match type of H with
             | (if ?b then _ else _) = _ => destruct b
             end; discriminate.
    + apply find_prefix_raise in Ep. destruct Ep as [-> _]. discriminate.
  - apply find_structure_len_from_raise in En. congruence.
Qed.

(** With all counts positive at every level, no lookup of a sub-block
    fails anywhere in the recursion. *)
Lemma item_never_IndexError :
  forall it, item_counts_positive it = true ->
  forall c st, valid c -> fst (_compute_item c it st) <> Raise IndexError.
Proof.
  induction it as [| id | l IHl | k] using item_nested_ind;
    intros Hpos c st Hv; try (simpl; discriminate).
  - simpl. destruct (String.eqb id placeholder_token); simpl; discriminate.
  - rewrite _compute_item_list, _compute_eq.
    destruct (child_subnets_of c l) as [cs|e] eqn:Ecs.
    + cbn [item_counts_positive] in Hpos.
      assert (Hlvl : forallb count_positive l = true).
      { rewrite forallb_forall in *. intros x Hx. specialize (Hpos x Hx).
        destruct x; try reflexivity; exact Hpos. }
      destruct (level_lookup_in_bounds c l cs Hv Hlvl Ecs)
        as (_ & _ & _ & _ & _ & Hlen).
      pose proof (child_subnets_well_split c l cs Hv Ecs) as Hws.
      assert (G : forall xs i st0, Forall
                   (fun it => item_counts_positive it = true ->
                      forall c st, valid c ->
                      fst (_compute_item c it st) <> Raise IndexError) xs ->
                  forallb item_counts_positive xs = true ->
                  (i + List.length xs <= List.length cs)%nat ->
                  fst (walk cs i xs st0) <> Raise IndexError).
      { induction xs as [|x xs IHxs]; intros i st0 HF Hp Hb.
        - rewrite walk_nil. simpl. discriminate.
        - rewrite walk_cons. cbn [List.length] in Hb.
          inversion HF as [|? ? Hx HF']; subst.
          simpl in Hp. apply andb_prop in Hp. destruct Hp as [Hpx Hpxs].
          destruct (nth_error cs i) as [ci|] eqn:Ei.
          + specialize (Hx Hpx ci st0 (proj1 (Hws i ci Ei))).
            destruct (_compute_item ci x st0) as [[[]|e] st1].
            * apply IHxs; try assumption. lia.
            * simpl in *. exact Hx.
          + apply nth_error_None in Ei. lia. }
      apply G; try assumption; simpl; lia.
    + simpl. intros H. injection H as ->.
      revert Ecs. apply child_subnets_of_no_IndexError.
Qed.

(** C10.  At a level whose placeholder counts are all at least 1 and
    whose capacity check passes, the split yields 2^prefix sub-blocks, no
    fewer than the level has items, so that [child_subnets[i]] is in bounds
    for every index of the walk; hence no level of a tree with such counts
    raises an IndexError.  With a count of 0 or below, the lookup can be out
    of range. *)
Theorem child_subnets_lookup_in_bounds :
  (forall parent s cs,
     valid parent -> forallb count_positive s = true ->
     child_subnets_of parent s = Ok cs ->
     (exists n p, find_structure_len s = Ok n /\ find_prefix n = Ok p /\
                  Z.of_nat (List.length cs) = 2 ^ p) /\
     (List.length s <= List.length cs)%nat /\
     forall i, (i < List.length s)%nat ->
               exists c, list_getitem cs i = Ok c) /\
  (forall root s st,
     valid root -> counts_positive s = true ->
     fst (_compute root s st) <> Raise IndexError) /\
  (exists cs,
     child_subnets_of (cidr 10 0 0 0 8) [IStr "a"; IDict (Some 0)] = Ok cs /\
     list_getitem cs 1 = Raise IndexError /\
     fst (_compute (cidr 10 0 0 0 8) [IStr "a"; IDict (Some 0)] [])
     = Raise IndexError) /\
  (exists cs,
     child_subnets_of (cidr 10 0 0 0 8)
       [IStr "a"; IStr "b"; IDict (Some (-1))] = Ok cs /\
     list_getitem cs 1 = Raise IndexError /\
     fst (_compute (cidr 10 0 0 0 8)
            [IStr "a"; IStr "b"; IDict (Some (-1))] [])
     = Raise IndexError).
Proof.
  split; [|split; [|split]].
  - intros parent s cs Hv Hs Hcs.
    destruct (level_lookup_in_bounds parent s cs Hv Hs Hcs)
      as (n & p & En & Ep & Hlen & Hle).
    split; [exists n, p; auto|]. split; [assumption|].
    intros i Hi. unfold list_getitem.
    destruct (nth_error cs i) as [c|] eqn:Ei; [now exists c|].
    apply nth_error_None in Ei. lia.
  - intros root s st Hv Hs.
    rewrite <- _compute_item_list.
    apply item_never_IndexError; assumption.
  - exists [cidr 10 0 0 0 8]. vm_compute. auto.
  - exists [cidr 10 0 0 0 8]. vm_compute. auto.
Qed.

Lemma child_subnets_lookup_in_bounds_witness :
  valid (cidr 10 1 0 0 16) /\
  forallb count_positive [IStr "a"; IDict (Some 2); IStr "b"] = true /\
  (List.length [IStr "a"; IDict (Some 2%Z); IStr "b"]
   <= List.length (map (nth_subnet (cidr 10 1 0 0 16) 2%Z) (seq 0 4)))%nat.
Proof.
  assert (Hv : valid (cidr 10 1 0 0 16))
    by (apply validb_spec; vm_compute; reflexivity).
  split; [exact Hv|]. split; [reflexivity|].
  apply (proj1 child_subnets_lookup_in_bounds (cidr 10 1 0 0 16)
           [IStr "a"; IDict (Some 2); IStr "b"] _ Hv eq_refl).
  vm_compute. reflexivity.
Defined.

(** ** The dict *)

Section Dict.

Context {V : Type}.
Implicit Types (d : dict V) (k : string) (v : V).

Lemma dict_get_set_same k v d : dict_get k (dict_set k v d) = Some v.
Proof.
  induction d as [|[k' v'] d IH]; simpl.
  - now rewrite String.eqb_refl.
  - destruct (String.eqb k k') eqn:E; simpl.
    + now rewrite String.eqb_refl.
    + now rewrite E.
Qed.

Lemma dict_get_set_other k k' v d :
  k <> k' -> dict_get k' (dict_set k v d) = dict_get k' d.
Proof.
  intros Hne. induction d as [|[k0 v0] d IH]; simpl.
  - destruct (String.eqb_spec k' k); [congruence|reflexivity].
  - destruct (String.eqb_spec k k0) as [->|]; simpl.
    + destruct (String.eqb_spec k' k0); [congruence|reflexivity].
    + destruct (String.eqb_spec k' k0); [reflexivity|exact IH].
Qed.

Lemma dict_set_fresh k v d :
  ~ In k (map fst d) -> dict_set k v d = d ++ [(k, v)].
Proof.
  induction d as [|[k' v'] d IH]; simpl; intros Hk; [reflexivity|].
  destruct (String.eqb_spec k k') as [->|]; [tauto|].
  f_equal. apply IH. tauto.
Qed.

Lemma keys_dict_set k v d k' :
  In k' (map fst (dict_set k v d)) <-> k' = k \/ In k' (map fst d).
Proof.
  induction d as [|[k0 v0] d IH]; simpl.
  - intuition congruence.
  - destruct (String.eqb_spec k k0) as [->|]; simpl.
    + intuition congruence.
    + rewrite IH. intuition congruence.
Qed.

Lemma NoDup_keys_dict_set k v d :
  NoDup (map fst d) -> NoDup (map fst (dict_set k v d)).
Proof.
  induction d as [|[k0 v0] d IH]; simpl; intros Hd.
  - constructor; [simpl; tauto|constructor].
  - inversion Hd as [|? ? Hnin Hd']; subst.
    destruct (String.eqb_spec k k0) as [->|Hne]; simpl.
    + constructor; assumption.
    + constructor; [|auto].
      rewrite keys_dict_set. intuition congruence.
Qed.

End Dict.

(** ** Replaying placements *)

Lemma replay_app (st : dict IPv4Network) (ps qs : list placement) :
  replay st (ps ++ qs) = replay (replay st ps) qs.
Proof. apply fold_left_app. Qed.

Lemma replay_snoc (st : dict IPv4Network) (ps : list placement)
  (p : placement) :
  replay st (ps ++ [p]) = dict_set (leaf p) (block p) (replay st ps).
Proof. now rewrite replay_app. Qed.

(** Without a repeated identifier, replaying appends the entries. *)
Lemma replay_fresh (ps : list placement) :
  forall st, NoDup (map fst st ++ map leaf ps) ->
  replay st ps = st ++ map entry_of ps.
Proof.
  induction ps as [|p ps IH]; intros st Hnd; simpl.
  - now rewrite app_nil_r.
  - unfold record at 1. rewrite dict_set_fresh.
    + rewrite IH.
      * now rewrite <- app_assoc.
      * rewrite map_app, <- app_assoc. exact Hnd.
    + simpl in Hnd. apply NoDup_remove_2 in Hnd.
      intros Hin. apply Hnd. apply in_or_app. now left.
Qed.

Lemma keys_replay (ps : list placement) :
  forall st k,
  In k (map fst (replay st ps)) <-> In k (map fst st) \/ In k (map leaf ps).
Proof.
  induction ps as [|p ps IH]; intros st k; simpl.
  - tauto.
  - rewrite IH. unfold record. rewrite keys_dict_set. intuition congruence.
Qed.

Lemma NoDup_keys_replay (ps : list placement) :
  forall st, NoDup (map fst st) -> NoDup (map fst (replay st ps)).
Proof.
  induction ps as [|p ps IH]; intros st Hst; simpl; [assumption|].
  apply IH. now apply NoDup_keys_dict_set.
Qed.

(** The last placement of an identifier decides its entry. *)
Lemma dict_get_replay (id : string) (ps : list placement) :
  forall st,
  dict_get id (replay st ps) =
  match last_block id ps with
  | Some b => Some b
  | None => dict_get id st
  end.
Proof.
  induction ps as [|p ps IH] using rev_ind; intros st.
  - reflexivity.
  - rewrite replay_snoc. unfold last_block. rewrite rev_unit.
    cbn [find]. destruct (String.eqb_spec id (leaf p)) as [->|Hne].
    + simpl. apply dict_get_set_same.
    + rewrite dict_get_set_other by congruence. apply IH.
Qed.

(** ** A run is the replay of the placements *)

Lemma walk_replay (cs : list IPv4Network) (parent : IPv4Network)
  (xs : StructureType) :
  Forall (fun it => forall parent child st,
            (item_feasible child it = true ->
             _compute_item child it st
             = (Ok tt, replay st (item_placements parent child it))) /\
            (item_feasible child it = false ->
             exists e st', _compute_item child it st = (Raise e, st'))) xs ->
  forall i st,
    let ok := forallb_enumerate
                (fun i x => match nth_error cs i with
                            | Some c => item_feasible c x
                            | None => false
                            end) i xs in
    let ps := flat_map_enumerate
                (fun i x => match nth_error cs i with
                            | Some c => item_placements parent c x
                            | None => []
                            end) i xs in
    (ok = true -> walk cs i xs st = (Ok tt, replay st ps)) /\
    (ok = false -> exists e st', walk cs i xs st = (Raise e, st')).
Proof.
  induction xs as [|x xs IH]; intros HF i st; cbn zeta.
  - split; [intros _; apply walk_nil|discriminate].
  - inversion HF as [|? ? Hx HF']; subst. specialize (IH HF').
    cbn [forallb_enumerate flat_map_enumerate]. rewrite walk_cons.
    destruct (nth_error cs i) as [c|]; cbn [andb].
    + destruct (Hx parent c st) as [Hok Hbad].
      destruct (item_feasible c x); cbn [andb].
      * rewrite (Hok eq_refl). rewrite replay_app.
        apply (IH (S i)).
      * split; [discriminate|]. intros _.
        destruct (Hbad eq_refl) as (e & st' & ->). eauto.
    + split; [discriminate|]. eauto.
Qed.

Lemma item_run :
  forall it parent child st,
    (item_feasible child it = true ->
     _compute_item child it st
     = (Ok tt, replay st (item_placements parent child it))) /\
    (item_feasible child it = false ->
     exists e st', _compute_item child it st = (Raise e, st')).
Proof.
  induction it as [| id | l IHl | k] using item_nested_ind;
    intros parent child st; simpl; try (split; [reflexivity|discriminate]).
  - split; [|discriminate]. intros _.
    unfold set_result, ret.
    destruct (String.eqb id placeholder_token); reflexivity.
  - change (_compute_level _compute_item child l st)
      with (_compute child l st).
    rewrite _compute_eq.
    destruct (child_subnets_of child l) as [cs|e].
    + apply (walk_replay cs child l IHl 0%nat st).
    + split; [discriminate|]. eauto.
Qed.

Lemma _compute_feasible (parent : IPv4Network) (s : StructureType)
  (st : dict IPv4Network) :
  feasible parent s = true ->
  _compute parent s st = (Ok tt, replay st (placements parent s)).
Proof.
  intros H. rewrite <- _compute_item_list.
  now apply (item_run (IList s) parent parent st).
Qed.

Lemma _compute_infeasible (parent : IPv4Network) (s : StructureType)
  (st : dict IPv4Network) :
  feasible parent s = false ->
  exists e st', _compute parent s st = (Raise e, st').
Proof.
  intros H. rewrite <- _compute_item_list.
  now apply (item_run (IList s) parent parent st).
Qed.

Lemma allocate_feasible (cfg : NetworkStructureConfiguration) :
  feasible (network_cidr cfg) (structure cfg) = true ->
  allocate cfg
  = (Ok (replay [] (placements (network_cidr cfg) (structure cfg))),
     replay [] (placements (network_cidr cfg) (structure cfg))).
Proof.
  intros H. unfold allocate, compute, bind.
  now rewrite (_compute_feasible _ _ [] H).
Qed.

Lemma allocate_ok_feasible (cfg : NetworkStructureConfiguration)
  (m : dict IPv4Network) :
  fst (allocate cfg) = Ok m ->
  feasible (network_cidr cfg) (structure cfg) = true.
Proof.
  intros H.
  destruct (feasible (network_cidr cfg) (structure cfg)) eqn:E;
    [reflexivity|].
  destruct (_compute_infeasible _ _ [] E) as (e & st' & He).
  unfold allocate, compute, bind in H. rewrite He in H. discriminate.
Qed.

(** ** Where the leaves are placed *)

Lemma FOP_app {A} (R : A -> A -> Prop) (l1 l2 : list A) :
  ForallOrdPairs R l1 -> ForallOrdPairs R l2 ->
  (forall a b, In a l1 -> In b l2 -> R a b) ->
  ForallOrdPairs R (l1 ++ l2).
Proof.
  induction l1 as [|a l1 IH]; intros H1 H2 Hx; simpl; [assumption|].
  inversion H1 as [|? ? Ha H1']; subst. constructor.
  - apply Forall_app. split; [assumption|].
    apply Forall_forall. intros b Hb. apply Hx; [now left|assumption].
  - apply IH; try assumption. intros a' b Ha' Hb. apply Hx; [now right|assumption].
Qed.

Lemma FOP_nth {A} (R : A -> A -> Prop) (l : list A) :
  ForallOrdPairs R l ->
  forall i j a b, (i < j)%nat ->
  nth_error l i = Some a -> nth_error l j = Some b -> R a b.
Proof.
  induction 1 as [|x l Hx Hl IH]; intros i j a b Hij Hi Hj.
  - destruct i; discriminate.
  - destruct j as [|j]; [lia|]. cbn [nth_error] in Hj.
    destruct i as [|i]; cbn [nth_error] in Hi.
    + injection Hi as <-. rewrite Forall_forall in Hx. apply Hx.
      eapply nth_error_In; eassumption.
    + apply (IH i j); try assumption. lia.
Qed.

Section Level.

Variables (parent : IPv4Network) (cs : list IPv4Network).
Hypothesis Hsplit : well_split parent cs.

Local Notation "'place'" :=
  (fun (i : nat) (x : item) =>
     match nth_error cs i with
     | Some c => item_placements parent c x
     | None => []
     end).

(** Every placement of the items from index [i] on lies in a sub-block
    of index [i] or more. *)
Lemma level_placements_ok (grand : IPv4Network) (xs : StructureType) :
  inside parent grand ->
  Forall (fun it => forall parent child, valid child ->
            inside child parent ->
            Forall (placement_ok parent child)
                   (item_placements parent child it)) xs ->
  forall i,
    Forall (fun p => placement_ok grand parent p /\
                     exists j c, (i <= j)%nat /\ nth_error cs j = Some c /\
                                 inside (block p) c)
           (flat_map_enumerate place i xs).
Proof.
  intros Hg. induction xs as [|x xs IH]; intros HF i; simpl.
  - constructor.
  - inversion HF as [|? ? Hx HF']; subst.
    apply Forall_app. split.
    + destruct (nth_error cs i) as [c|] eqn:Ec; [|constructor].
      destruct (Hsplit i c Ec) as (Hvc & Hic & _).
      specialize (Hx parent c Hvc Hic).
      eapply Forall_impl; [|exact Hx].
      intros p (Hv & Hin & Hpb & Hpp). split.
      * refine (conj Hv (conj _ (conj Hpb _))).
        -- eapply inside_trans; eassumption.
        -- eapply inside_trans; eassumption.
      * exists i, c. auto.
    + eapply Forall_impl; [|apply (IH HF' (S i))].
      intros p (Hok & j & c & Hj & Hc & Hin). split; [assumption|].
      exists j, c. split; [lia|]. split; assumption.
Qed.

Lemma level_placements_apart (xs : StructureType) :
  Forall (fun it => forall parent child, valid child ->
            inside child parent ->
            Forall (placement_ok parent child)
                   (item_placements parent child it)) xs ->
  Forall (fun it => forall parent child, valid child ->
            ForallOrdPairs blocks_apart
              (item_placements parent child it)) xs ->
  forall i, ForallOrdPairs blocks_apart (flat_map_enumerate place i xs).
Proof.
  induction xs as [|x xs IH]; intros HF HA i; simpl.
  - constructor.
  - inversion HF as [|? ? Hx HF']; subst.
    inversion HA as [|? ? Ax HA']; subst.
    apply FOP_app.
    + destruct (nth_error cs i) as [c|] eqn:Ec; [|constructor].
      apply Ax. apply (Hsplit i c Ec).
    + apply IH; assumption.
    + intros p q Hp Hq.
      destruct (nth_error cs i) as [c|] eqn:Ec; [|destruct Hp].
      destruct (Hsplit i c Ec) as (Hvc & Hic & _).
      pose proof (Hx parent c Hvc Hic) as Hpok.
      rewrite Forall_forall in Hpok.
      destruct (Hpok p Hp) as (Hvp & Hinp & _ & _).
      pose proof (level_placements_ok parent xs (inside_refl parent)
                    HF' (S i)) as Hrest.
      rewrite Forall_forall in Hrest.
      destruct (Hrest q Hq) as ((Hvq & _) & j & c' & Hj & Hc' & Hinq).
      destruct (Hsplit j c' Hc') as (_ & _ & Hlt).
      specialize (Hlt i c ltac:(lia) Ec).
      unfold blocks_apart.
      apply (apart_inside c c'); try assumption.
      left. exact Hlt.
Qed.

End Level.

Lemma item_placements_ok :
  forall it parent child, valid child -> inside child parent ->
  Forall (placement_ok parent child) (item_placements parent child it).
Proof.
  induction it as [| id | l IHl | k] using item_nested_ind;
    intros parent child Hv Hin; simpl; try constructor.
  - destruct (String.eqb id placeholder_token); constructor; [|constructor].
    exact (conj Hv (conj (inside_refl child)
                   (conj Hin (inside_refl parent)))).
  - destruct (child_subnets_of child l) as [cs|e] eqn:Ecs; [|constructor].
    pose proof (child_subnets_well_split child l cs Hv Ecs) as Hws.
    eapply Forall_impl;
      [|apply (level_placements_ok child cs Hws parent l Hin IHl 0%nat)].
    intros p [Hok _]. exact Hok.
Qed.

Lemma item_placements_apart :
  forall it parent child, valid child ->
  ForallOrdPairs blocks_apart (item_placements parent child it).
Proof.
  induction it as [| id | l IHl | k] using item_nested_ind;
    intros parent child Hv; simpl; try constructor.
  - destruct (String.eqb id placeholder_token); repeat constructor.
  - destruct (child_subnets_of child l) as [cs|e] eqn:Ecs; [|constructor].
    pose proof (child_subnets_well_split child l cs Hv Ecs) as Hws.
    apply (level_placements_apart child cs Hws l); [|assumption].
    apply Forall_forall. intros x _. apply item_placements_ok.
Qed.

Lemma level_placements_ids (parent : IPv4Network) (cs : list IPv4Network)
  (xs : StructureType) :
  Forall (fun it => forall parent child, item_feasible child it = true ->
            map leaf (item_placements parent child it) = item_leaf_ids it)
         xs ->
  forall i,
    forallb_enumerate
      (fun i x => match nth_error cs i with
                  | Some c => item_feasible c x
                  | None => false
                  end) i xs = true ->
    map leaf (flat_map_enumerate
                (fun i x => match nth_error cs i with
                            | Some c => item_placements parent c x
                            | None => []
                            end) i xs)
    = flat_map item_leaf_ids xs.
Proof.
  induction xs as [|x xs IH]; intros HF i Hok; simpl; [reflexivity|].
  inversion HF as [|? ? Hx HF']; subst.
  simpl in Hok. apply andb_prop in Hok. destruct Hok as [Hxo Hxs].
  rewrite map_app. destruct (nth_error cs i) as [c|]; [|discriminate].
  rewrite (Hx parent c Hxo), (IH HF' (S i) Hxs). reflexivity.
Qed.

Lemma item_placements_ids :
  forall it parent child, item_feasible child it = true ->
  map leaf (item_placements parent child it) = item_leaf_ids it.
Proof.
  induction it as [| id | l IHl | k] using item_nested_ind;
    intros parent child Hok; simpl; try reflexivity.
  - destruct (String.eqb id placeholder_token); reflexivity.
  - simpl in Hok. destruct (child_subnets_of child l) as [cs|e];
      [|discriminate].
    now apply level_placements_ids.
Qed.

Lemma placements_ids (root : IPv4Network) (s : StructureType) :
  feasible root s = true -> map leaf (placements root s) = leaf_ids s.
Proof. apply (item_placements_ids (IList s)). Qed.

(** ** The allocation *)

Lemma distinct_spec (l : list string) : distinct l = true <-> NoDup l.
Proof.
  induction l as [|x xs IH]; simpl.
  - split; [constructor|reflexivity].
  - rewrite andb_true_iff, negb_true_iff, IH. split.
    + intros [Hx Hxs]. constructor; [|assumption].
      intros Hin. assert (E : existsb (String.eqb x) xs = true).
      { apply existsb_exists. exists x. split; [assumption|].
        apply String.eqb_refl. }
      congruence.
    + intros H. inversion H as [|? ? Hnin Hnd]; subst. split; [|assumption].
      destruct (existsb (String.eqb x) xs) eqn:E; [|reflexivity].
      apply existsb_exists in E. destruct E as (y & Hy & Exy).
      apply String.eqb_eq in Exy. subst y. contradiction.
Qed.

Lemma last_block_some (id : string) (ps : list placement) :
  In id (map leaf ps) -> exists b, last_block id ps = Some b.
Proof.
  intros Hin. unfold last_block.
  destruct (find (fun p => String.eqb id (leaf p)) (rev ps)) as [p|] eqn:E.
  - exists (block p). reflexivity.
  - exfalso. apply in_map_iff in Hin. destruct Hin as (p & <- & Hp).
    assert (Hf := find_none _ _ E p ltac:(now apply in_rev in Hp)).
    simpl in Hf. rewrite String.eqb_refl in Hf. discriminate.
Qed.

(** C2, amended.  For every valid input (a valid root block, all
    placeholder counts at least 1, no identifier twice, allocation
    succeeds) the mapping has exactly one entry per leaf, in pre-order, and
    none for a placeholder or a group; the assigned blocks pairwise do not
    overlap; every assigned block lies in the block of its structural
    parent, and it is a strict descendant of the root block or the root
    block itself.  It is a strict descendant whenever the root level has two
    slots or more.  Only a root level of a single slot, which is not split,
    lets a block be the root block: a structure of one leaf gives the leaf
    the root block, and a structure of one group is allocated as the
    children of the group are in the root block. *)
Theorem allocation_disjoint_one_entry_per_leaf
  (cfg : NetworkStructureConfiguration) (m : dict IPv4Network) :
  valid (network_cidr cfg) ->
  counts_positive (structure cfg) = true ->
  NoDup (leaf_ids (structure cfg)) ->
  fst (allocate cfg) = Ok m ->
  let ps := placements (network_cidr cfg) (structure cfg) in
  snd (allocate cfg) = m /\
  m = map entry_of ps /\
  map fst m = leaf_ids (structure cfg) /\
  (forall i j e1 e2, i <> j ->
     nth_error m i = Some e1 -> nth_error m j = Some e2 ->
     overlaps (snd e1) (snd e2) = false) /\
  Forall (fun p => subnet_of (block p) (parent_block p) = true /\
                   subnet_of (block p) (network_cidr cfg) = true) ps /\
  Forall (fun p => strictly_inside (block p) (network_cidr cfg) \/
                   block p = network_cidr cfg) ps /\
  (forall n, find_structure_len (structure cfg) = Ok n -> 2 <= n ->
             Forall (fun p => strictly_inside (block p) (network_cidr cfg))
                    ps) /\
  (forall id, structure cfg = [IStr id] -> id <> placeholder_token ->
              ps = [mkPlacement id (network_cidr cfg) (network_cidr cfg)]) /\
  (forall l, structure cfg = [IList l] ->
             ps = placements (network_cidr cfg) l).
Proof.
  intros Hv _ Hnd Hok ps.
  pose proof (allocate_ok_feasible cfg m Hok) as Hf.
  pose proof (allocate_feasible cfg Hf) as Ha.
  pose proof (placements_ids _ _ Hf) as Hids. fold ps in Ha, Hids.
  rewrite Ha in Hok |- *. cbn [fst snd] in *. injection Hok as Hm.
  assert (Hmap : m = map entry_of ps).
  { rewrite <- Hm. rewrite replay_fresh; [reflexivity|].
    simpl. rewrite Hids. exact Hnd. }
  pose proof (item_placements_ok (IList (structure cfg)) _ _ Hv
                (inside_refl _)) as Hpok.
  pose proof (item_placements_apart (IList (structure cfg))
                (network_cidr cfg) _ Hv) as Hap.
  change (item_placements _ _ _) with ps in Hpok, Hap.
  rewrite Forall_forall in Hpok.
  split; [assumption|]. split; [assumption|]. split; [|split].
  - rewrite Hmap, map_map. exact Hids.
  - assert (G : forall i j e1 e2, (i < j)%nat ->
               nth_error m i = Some e1 -> nth_error m j = Some e2 ->
               valid (snd e1) /\ valid (snd e2) /\ apart (snd e1) (snd e2)).
    { intros i j e1 e2 Hij H1 H2. rewrite Hmap, nth_error_map in H1, H2.
      destruct (nth_error ps i) as [p|] eqn:Ep; [|discriminate].
      destruct (nth_error ps j) as [q|] eqn:Eq; [|discriminate].
      injection H1 as <-. injection H2 as <-. cbn [entry_of snd].
      split; [apply (Hpok p), (nth_error_In _ _ Ep)|].
      split; [apply (Hpok q), (nth_error_In _ _ Eq)|].
      exact (FOP_nth _ _ Hap i j p q Hij Ep Eq). }
    intros i j e1 e2 Hij H1 H2.
    destruct (Nat.lt_total i j) as [Hlt|[Heq|Hgt]]; [|contradiction|].
    + destruct (G i j e1 e2 Hlt H1 H2) as (V1 & V2 & A).
      now apply apart_overlaps.
    + destruct (G j i e2 e1 Hgt H2 H1) as (V2 & V1 & A).
      apply apart_overlaps; try assumption. now apply apart_sym.
  - split; [|split; [|split; [|split]]].
    + apply Forall_forall. intros p Hp.
      destruct (Hpok p Hp) as (_ & Hroot & Hpar & _).
      split; now apply subnet_of_iff.
    + apply Forall_forall. intros p Hp.
      destruct (Hpok p Hp) as (Hvb & Hroot & _ & _).
      pose proof (inside_prefixlen _ _ Hvb Hv Hroot) as Hle.
      destruct (Z.eq_dec (prefixlen (block p)) (prefixlen (network_cidr cfg)))
        as [E|Hne].
      * right. now apply inside_same_prefixlen.
      * left. split; [assumption|lia].
    + intros n Hn H2.
      unfold feasible in Hf. cbn [item_feasible] in Hf.
      destruct (child_subnets_of (network_cidr cfg) (structure cfg))
        as [cs|e] eqn:Ecs; [|discriminate].
      pose proof (child_subnets_well_split _ _ _ Hv Ecs) as Hws.
      destruct (child_subnets_of_ok _ _ _ Hv Ecs)
        as (n' & p & En & Ep & Hp0 & Hnp & Hsum & Hcs).
      rewrite Hn in En. injection En as <-.
      assert (Hp1 : 1 <= p).
      { destruct (Z.eq_dec p 0) as [->|]; [simpl in Hnp; lia|lia]. }
      pose proof (level_placements_ok (network_cidr cfg) cs Hws
                    (network_cidr cfg) (structure cfg) (inside_refl _)) as Hl.
      assert (Hitems : Forall (fun it => forall parent child, valid child ->
                  inside child parent ->
                  Forall (placement_ok parent child)
                         (item_placements parent child it)) (structure cfg)).
      { apply Forall_forall. intros x _. apply item_placements_ok. }
      specialize (Hl Hitems 0%nat).
      unfold ps, placements. cbn [item_placements]. rewrite Ecs.
      eapply Forall_impl; [|exact Hl].
      intros q ((Hvq & Hrootq & _ & _) & j & c & _ & Hc & Hqc).
      split; [assumption|].
      destruct (Hws j c Hc) as (Hvc & _ & _).
      pose proof (inside_prefixlen _ _ Hvq Hvc Hqc) as Hle.
      rewrite Hcs in Hc. apply nth_error_children in Hc; [|assumption].
      destruct Hc as [-> _]. cbn [nth_subnet prefixlen] in Hle. lia.
    + intros id Hs Hid. unfold ps, placements. rewrite Hs.
      cbn [item_placements].
      rewrite (single_slot_level _ [IStr id] 1 Hv eq_refl ltac:(lia)).
      cbn [flat_map_enumerate nth_error item_placements].
      destruct (String.eqb_spec id placeholder_token); [contradiction|].
      reflexivity.
    + intros l Hs. unfold ps, placements at 1. rewrite Hs.
      cbn [item_placements].
      rewrite (single_slot_level _ [IList l] 1 Hv eq_refl ltac:(lia)).
      cbn [flat_map_enumerate nth_error]. now rewrite app_nil_r.
Qed.

Lemma allocation_disjoint_one_entry_per_leaf_witness :
  map fst [("public", cidr 10 1 0 0 18); ("a", cidr 10 1 64 0 20);
           ("data", cidr 10 1 128 0 18)]
  = leaf_ids (structure cfg_nested) /\
  overlaps (cidr 10 1 64 0 20) (cidr 10 1 128 0 18) = false.
Proof.
  pose (cfg := cfg_nested).
  pose (m := [("public", cidr 10 1 0 0 18); ("a", cidr 10 1 64 0 20);
              ("data", cidr 10 1 128 0 18)]).
  assert (Hv : valid (network_cidr cfg))
    by (apply validb_spec; vm_compute; reflexivity).
  assert (Hc : counts_positive (structure cfg) = true) by reflexivity.
  assert (Hnd : NoDup (leaf_ids (structure cfg)))
    by (apply distinct_spec; vm_compute; reflexivity).
  assert (Hok : fst (allocate cfg) = Ok m) by (vm_compute; reflexivity).
  destruct (allocation_disjoint_one_entry_per_leaf cfg m Hv Hc Hnd Hok)
    as (_ & _ & Hkeys & Hov & _).
  split; [exact Hkeys|].
  apply (Hov 1%nat 2%nat ("a", cidr 10 1 64 0 20)
           ("data", cidr 10 1 128 0 18)); [lia|reflexivity|reflexivity].
Defined.

(** C2 as stated fails for a single leaf: it is given the root block
    itself, which is no strict descendant of the root block. *)
Lemma single_leaf_is_given_the_root_block :
  valid (network_cidr cfg_single_leaf) /\
  counts_positive (structure cfg_single_leaf) = true /\
  NoDup (leaf_ids (structure cfg_single_leaf)) /\
  fst (allocate cfg_single_leaf)
  = Ok [("a", network_cidr cfg_single_leaf)] /\
  ~ strictly_inside (network_cidr cfg_single_leaf)
                    (network_cidr cfg_single_leaf).
Proof.
  split; [apply validb_spec; vm_compute; reflexivity|].
  split; [reflexivity|].
  split; [apply distinct_spec; vm_compute; reflexivity|].
  split; [vm_compute; reflexivity|].
  unfold strictly_inside. lia.
Qed.

(** C6.  When a leaf identifier occurs more than once, the allocation of
    a tree that can be allocated at all still succeeds: the mapping has one
    entry for the identifier, and it holds the block of the last occurrence
    in pre-order. *)
Theorem duplicate_identifier_last_wins
  (cfg : NetworkStructureConfiguration) (id : string) :
  (2 <= count_occ string_dec (leaf_ids (structure cfg)) id)%nat ->
  feasible (network_cidr cfg) (structure cfg) = true ->
  exists m b,
    allocate cfg = (Ok m, m) /\
    last_block id (placements (network_cidr cfg) (structure cfg)) = Some b /\
    dict_get id m = Some b /\
    count_occ string_dec (map fst m) id = 1%nat.
Proof.
  intros Hdup Hf.
  set (ps := placements (network_cidr cfg) (structure cfg)).
  pose proof (placements_ids _ _ Hf) as Hids. fold ps in Hids.
  assert (Hin : In id (map leaf ps)).
  { rewrite Hids. apply (count_occ_In string_dec). lia. }
  destruct (last_block_some id ps Hin) as [b Hb].
  exists (replay [] ps), b. split; [now apply allocate_feasible|].
  split; [assumption|]. split.
  - rewrite dict_get_replay, Hb. reflexivity.
  - apply NoDup_count_occ'.
    + apply NoDup_keys_replay. constructor.
    + apply keys_replay. now right.
Qed.

Lemma duplicate_identifier_last_wins_witness :
  exists m b,
    allocate cfg_twice_nested = (Ok m, m) /\
    last_block "a" (placements (network_cidr cfg_twice_nested)
                               (structure cfg_twice_nested)) = Some b /\
    dict_get "a" m = Some b /\
    count_occ string_dec (map fst m) "a" = 1%nat.
Proof.
  apply (duplicate_identifier_last_wins cfg_twice_nested "a").
  - vm_compute. lia.
  - vm_compute. reflexivity.
Defined.

(** C5, amended.  A tree in which a leaf identifier occurs more than once
    raises no error for it: when the tree can be allocated at all, the
    allocation succeeds, and the mapping has one entry for each distinct
    identifier, fewer entries than the tree has leaves. *)
Theorem duplicate_identifier_is_not_refused
  (cfg : NetworkStructureConfiguration) :
  ~ NoDup (leaf_ids (structure cfg)) ->
  feasible (network_cidr cfg) (structure cfg) = true ->
  exists m,
    allocate cfg = (Ok m, m) /\
    NoDup (map fst m) /\
    (forall id, In id (map fst m) <-> In id (leaf_ids (structure cfg))) /\
    (List.length m < List.length (leaf_ids (structure cfg)))%nat.
Proof.
  intros Hdup Hf.
  set (ps := placements (network_cidr cfg) (structure cfg)).
  pose proof (placements_ids _ _ Hf) as Hids. fold ps in Hids.
  exists (replay [] ps). split; [now apply allocate_feasible|].
  assert (Hnd : NoDup (map fst (replay [] ps)))
    by (apply NoDup_keys_replay; constructor).
  assert (Hkeys : forall id, In id (map fst (replay [] ps))
                             <-> In id (leaf_ids (structure cfg))).
  { intros id. rewrite keys_replay, Hids. simpl. tauto. }
  split; [assumption|]. split; [assumption|].
  destruct (Nat.lt_ge_cases (List.length (replay [] ps))
              (List.length (leaf_ids (structure cfg)))) as [|Hge];
    [assumption|].
  exfalso. apply Hdup.
  apply (NoDup_incl_NoDup (l := map fst (replay [] ps))); try assumption.
  - now rewrite length_map.
  - intros id Hid. now apply Hkeys.
Qed.

Lemma duplicate_identifier_is_not_refused_witness :
  exists m,
    allocate cfg_twice = (Ok m, m) /\
    NoDup (map fst m) /\
    (forall id, In id (map fst m)
                <-> In id (leaf_ids (structure cfg_twice))) /\
    (List.length m < List.length (leaf_ids (structure cfg_twice)))%nat.
Proof.
  apply (duplicate_identifier_is_not_refused cfg_twice).
  - rewrite <- distinct_spec. vm_compute. discriminate.
  - vm_compute. reflexivity.
Defined.

(** C5 as stated fails: two leaves named "a" are allocated without an
    error, and the mapping is returned. *)
Lemma duplicate_identifier_is_allocated :
  ~ NoDup (leaf_ids (structure cfg_twice)) /\
  allocate cfg_twice
  = (Ok [("a", cidr 10 128 0 0 9)], [("a", cidr 10 128 0 0 9)]).
Proof.
  split.
  - rewrite <- distinct_spec. vm_compute. discriminate.
  - vm_compute. reflexivity.
Qed.

(** ** The capacity error *)

Lemma overflow_in_level_cons
  (rec : IPv4Network -> item -> option (list placement * Z))
  (parent : IPv4Network) (cs : list IPv4Network) (i : nat) (x : item)
  (xs : StructureType) :
  overflow_in_level rec parent cs i (x :: xs)
  = match nth_error cs i with
    | None => None
    | Some c =>
        match rec c x with
        | Some found => Some found
        | None =>
            if item_feasible c x then
              match overflow_in_level rec parent cs (S i) xs with
              | Some (ps, k) => Some (item_placements parent c x ++ ps, k)
              | None => None
              end
            else None
        end
    end.
Proof. reflexivity. Qed.

Lemma subnets_raise (n : IPv4Network) (d : Z) (e : exn) :
  subnets n d = Raise e -> e = SubnetsValueError.
Proof.
  unfold subnets. intros H.
  repeat match type of H with
         | (if ?b then _ else _) = _ => destruct b
         end; congruence.
Qed.

Lemma overflow_in_level_run (parent : IPv4Network)
  (cs : list IPv4Network) (xs : StructureType) :
  Forall (fun it => forall c st,
            match item_overflow c it with
            | Some (ps, k) =>
                _compute_item c it st
                = (Raise (TooManySubnets k), replay st ps) /\ 32 < k
            | None =>
                forall k, fst (_compute_item c it st)
                          <> Raise (TooManySubnets k)
            end) xs ->
  forall i st,
    match overflow_in_level item_overflow parent cs i xs with
    | Some (ps, k) =>
        walk cs i xs st = (Raise (TooManySubnets k), replay st ps) /\ 32 < k
    | None => forall k, fst (walk cs i xs st) <> Raise (TooManySubnets k)
    end.
Proof.
  induction 1 as [|x xs Hx HF IH]; intros i st.
  - simpl. discriminate.
  - rewrite overflow_in_level_cons, walk_cons.
    destruct (nth_error cs i) as [c|]; [|simpl; discriminate].
    specialize (Hx c st).
    destruct (item_overflow c x) as [[ps k]|].
    + destruct Hx as [-> Hk]. auto.
    + destruct (item_run x parent c st) as [Hok Hbad].
      destruct (item_feasible c x).
      * rewrite (Hok eq_refl).
        specialize (IH (S i) (replay st (item_placements parent c x))).
        destruct (overflow_in_level item_overflow parent cs (S i) xs)
          as [[ps k]|].
        -- destruct IH as [-> Hk]. now rewrite replay_app.
        -- exact IH.
      * destruct (Hbad eq_refl) as (e & st' & E). rewrite E in *.
        exact Hx.
Qed.

Lemma item_overflow_run :
  forall it c st,
    match item_overflow c it with
    | Some (ps, k) =>
        _compute_item c it st
        = (Raise (TooManySubnets k), replay st ps) /\ 32 < k
    | None =>
        forall k, fst (_compute_item c it st) <> Raise (TooManySubnets k)
    end.
Proof.
  induction it as [| id | l IHl | n0] using item_nested_ind; intros c st;
    try (simpl; discriminate).
  - simpl. destruct (String.eqb id placeholder_token); simpl; discriminate.
  - rewrite _compute_item_list, _compute_eq. cbn [item_overflow].
    unfold child_subnets_of.
    destruct (find_structure_len l) as [n|e] eqn:En; cbn [res_bind].
    + destruct (find_prefix n) as [p|e] eqn:Ep; cbn [res_bind].
      * destruct (Z.gtb_spec (p + prefixlen c) 32) as [Hgt|Hle].
        -- split; [reflexivity|lia].
        -- destruct (subnets c p) as [cs|e] eqn:Es.
           ++ apply (overflow_in_level_run c cs l IHl 0%nat st).
           ++ apply subnets_raise in Es. subst e. simpl. discriminate.
      * apply find_prefix_raise in Ep. destruct Ep as [-> _].
        simpl. discriminate.
    + apply find_structure_len_from_raise in En. subst e.
      simpl. discriminate.
Qed.

Lemma overflow_in_level_leaves (parent : IPv4Network)
  (cs : list IPv4Network) (xs : StructureType) :
  Forall (fun it => forall c ps k,
            item_overflow c it = Some (ps, k) ->
            exists rest, item_leaf_ids it = map leaf ps ++ rest) xs ->
  forall i ps k,
    overflow_in_level item_overflow parent cs i xs = Some (ps, k) ->
    exists rest, flat_map item_leaf_ids xs = map leaf ps ++ rest.
Proof.
  induction 1 as [|x xs Hx HF IH]; intros i ps k H; [discriminate|].
  rewrite overflow_in_level_cons in H. cbn [flat_map].
  destruct (nth_error cs i) as [c|]; [|discriminate].
  destruct (item_overflow c x) as [[ps' k']|] eqn:Ex.
  - injection H as -> ->. destruct (Hx c ps k Ex) as [rest Hrest].
    exists (rest ++ flat_map item_leaf_ids xs).
    now rewrite Hrest, <- app_assoc.
  - destruct (item_feasible c x) eqn:Ef; [|discriminate].
    destruct (overflow_in_level item_overflow parent cs (S i) xs)
      as [[ps' k']|] eqn:El; [|discriminate].
    injection H as <- <-. destruct (IH (S i) ps' k' El) as [rest Hrest].
    exists rest.
    now rewrite map_app, (item_placements_ids x parent c Ef), Hrest,
      <- app_assoc.
Qed.

Lemma item_overflow_leaves :
  forall it c ps k,
    item_overflow c it = Some (ps, k) ->
    exists rest, item_leaf_ids it = map leaf ps ++ rest.
Proof.
  induction it as [| id | l IHl | n0] using item_nested_ind;
    intros c ps k H; try discriminate.
  cbn [item_overflow item_leaf_ids] in *.
  destruct (find_structure_len l) as [n|]; [|discriminate].
  destruct (find_prefix n) as [p|]; [|discriminate].
  destruct (p + prefixlen c >? 32).
  - injection H as <- <-. exists (flat_map item_leaf_ids l). reflexivity.
  - destruct (subnets c p) as [cs|]; [|discriminate].
    eapply overflow_in_level_leaves; eassumption.
Qed.

Lemma replay_nil_iff (ps : list placement) :
  replay [] ps = [] <-> ps = [].
Proof.
  split; [|intros ->; reflexivity].
  destruct ps as [|p ps]; [reflexivity|]. intros H. exfalso.
  assert (Hin : In (leaf p) (map fst (replay [] (p :: ps))))
    by (apply keys_replay; right; now left).
  rewrite H in Hin. destruct Hin.
Qed.

(** C4, amended.  The allocation raises the capacity error exactly when
    the recursion comes, before anything else fails, to a level where the
    prefix length of the block plus the prefix needed exceeds 32; it raises
    it with that sum and returns no mapping.  The result of the calculator is
    not emptied: it holds exactly what the leaves before the failing branch,
    in pre-order, have recorded, each identifier with the block of its last
    such leaf, and it is empty only when there is no such leaf. *)
Theorem capacity_error_keeps_recorded_entries
  (cfg : NetworkStructureConfiguration) (k : Z) :
  (fst (allocate cfg) = Raise (TooManySubnets k) <->
   exists ps, leaves_before_overflow (network_cidr cfg) (structure cfg)
              = Some (ps, k)) /\
  forall ps,
    leaves_before_overflow (network_cidr cfg) (structure cfg)
    = Some (ps, k) ->
    allocate cfg = (Raise (TooManySubnets k), replay [] ps) /\
    32 < k /\
    (exists rest, leaf_ids (structure cfg) = map leaf ps ++ rest) /\
    (forall id, In id (map fst (snd (allocate cfg)))
                <-> In id (map leaf ps)) /\
    (forall id, dict_get id (snd (allocate cfg)) = last_block id ps) /\
    (snd (allocate cfg) = [] <-> ps = []).
Proof.
  pose proof (item_overflow_run (IList (structure cfg)) (network_cidr cfg) [])
    as Hrun.
  rewrite _compute_item_list in Hrun. unfold leaves_before_overflow.
  assert (Hall : forall ps,
            item_overflow (network_cidr cfg) (IList (structure cfg))
            = Some (ps, k) ->
            allocate cfg = (Raise (TooManySubnets k), replay [] ps) /\
            32 < k).
  { intros ps H. rewrite H in Hrun. destruct Hrun as [Hr Hk].
    split; [|assumption]. unfold allocate, compute, bind. now rewrite Hr. }
  split.
  - split.
    + intros Hr.
      destruct (item_overflow (network_cidr cfg) (IList (structure cfg)))
        as [[ps k']|].
      * destruct Hrun as [Hrun _]. unfold allocate, compute, bind in Hr.
        rewrite Hrun in Hr. cbn [fst] in Hr. injection Hr as ->.
        now exists ps.
      * exfalso. unfold allocate, compute, bind in Hr.
        destruct (_compute (network_cidr cfg) (structure cfg) [])
          as [[[]|e] st1] eqn:E; cbn [fst] in *; [discriminate|].
        apply (Hrun k). injection Hr as ->. reflexivity.
    + intros [ps H]. destruct (Hall ps H) as [-> _]. reflexivity.
  - intros ps H. destruct (Hall ps H) as [Ha Hk]. rewrite Ha. cbn [snd].
    split; [reflexivity|]. split; [assumption|].
    split; [exact (item_overflow_leaves _ _ _ _ H)|].
    split; [intros id; rewrite keys_replay; simpl; tauto|].
    split; [|apply replay_nil_iff].
    intros id. rewrite dict_get_replay.
    destruct (last_block id ps); reflexivity.
Qed.

Lemma capacity_error_keeps_recorded_entries_witness :
  leaves_before_overflow (network_cidr cfg_too_deep) (structure cfg_too_deep)
  = Some ([mkPlacement "a" (cidr 10 0 0 0 32) (cidr 10 0 0 0 31)], 34) /\
  allocate cfg_too_deep
  = (Raise (TooManySubnets 34),
     replay [] [mkPlacement "a" (cidr 10 0 0 0 32) (cidr 10 0 0 0 31)]) /\
  snd (allocate cfg_too_deep) = [("a", cidr 10 0 0 0 32)].
Proof.
  assert (H : leaves_before_overflow (network_cidr cfg_too_deep)
                (structure cfg_too_deep)
              = Some ([mkPlacement "a" (cidr 10 0 0 0 32)
                         (cidr 10 0 0 0 31)], 34))
    by (vm_compute; reflexivity).
  destruct (proj2 (capacity_error_keeps_recorded_entries cfg_too_deep 34)
              _ H) as (Ha & _).
  split; [exact H|]. split; [exact Ha|]. rewrite Ha. reflexivity.
Defined.

(** C4 as stated fails: after the capacity error the result of the
    calculator holds the entry of the leaf that came before the failing
    group. *)
Lemma capacity_error_leaves_partial_result :
  fst (allocate cfg_too_deep) = Raise (TooManySubnets 34) /\
  snd (allocate cfg_too_deep) = [("a", cidr 10 0 0 0 32)] /\
  snd (allocate cfg_too_deep) <> [].
Proof.
  split; [vm_compute; reflexivity|].
  split; [vm_compute; reflexivity|].
  vm_compute. discriminate.
Qed.

(** ** Placeholders with a count *)

(** C1 fails on the code.  In 10.0.0.0/8 with the structure
    [a, {__placeholder__: 2}, b] the level is sized for 4 slots and split in
    four /10 blocks; the walk takes [child_subnets[i]] for the i-th item, so
    the placeholder uses up one block and "b" is given the third block,
    10.128.0.0/10, not the fourth, 10.192.0.0/10, which its slot is. *)
Theorem placeholder_count_advances_one_block :
  find_structure_len (structure cfg_placeholder_inside) = Ok 4 /\
  child_subnets_of (network_cidr cfg_placeholder_inside)
    (structure cfg_placeholder_inside)
  = Ok [cidr 10 0 0 0 10; cidr 10 64 0 0 10; cidr 10 128 0 0 10;
        cidr 10 192 0 0 10] /\
  fst (allocate cfg_placeholder_inside)
  = Ok [("a", cidr 10 0 0 0 10); ("b", cidr 10 128 0 0 10)].
Proof.
  repeat split; vm_compute; reflexivity.
Qed.

(** Two of the examples that the program ships. *)
Example allocate_simple :
  allocate cfg_simple = (Ok plan_simple, plan_simple).
Proof. vm_compute. reflexivity. Qed.

Example allocate_company :
  find_structure_len (structure cfg_company) = Ok 256 /\
  find_prefix 256 = Ok 8 /\
  fst (allocate cfg_company)
  = Ok [("vpc-1", cidr 10 0 0 0 16); ("vpc-2", cidr 10 1 0 0 16);
        ("vpc-3-data-1", cidr 10 2 0 0 21);
        ("vpc-3-data-2", cidr 10 2 8 0 21);
        ("vpc-3-public-1", cidr 10 2 32 0 21);
        ("vpc-3-public-2", cidr 10 2 40 0 21);
        ("vpc-3-compute-1", cidr 10 2 64 0 18)].
Proof. repeat split; vm_compute; reflexivity. Qed.

(** ** [Exporter] *)

(** C8 fails on the code.  The fields of [SubnetMetadata] are optional and
    default to None; [build_data] takes [len(subnet_metadata.name)], which
    raises a TypeError for a metadata entry without a name, where the claim
    has the name fall back to the identifier.  (An entry with a name and
    without a description is refused by the validation of [SubnetInfo].) *)
Theorem build_data_raises_without_name :
  fst (allocate cfg_unnamed) = Ok [("a", cidr 10 0 0 0 8)] /\
  Exporter.init cfg_unnamed [("a", cidr 10 0 0 0 8)] None = Raise TypeError /\
  fst (allocate cfg_undescribed) = Ok [("a", cidr 10 0 0 0 8)] /\
  Exporter.init cfg_undescribed [("a", cidr 10 0 0 0 8)] None
  = Raise ValidationError.
Proof.
  repeat split; vm_compute; reflexivity.
Qed.

Lemma getitem_first_last (n : IPv4Network) :
  valid n ->
  getitem n 0 = Ok (network_address n) /\
  getitem n (-1) = Ok (broadcast_address n).
Proof.
  intros Hv. pose proof (broadcast_bounds n Hv) as Hb.
  unfold getitem. cbn [Z.geb Z.compare].
  rewrite Z.add_0_r.
  destruct (Z.gtb_spec (network_address n) (broadcast_address n));
    [lia|].
  change (-1 + 1) with 0. rewrite Z.add_0_r.
  destruct (Z.ltb_spec (broadcast_address n) (network_address n));
    [lia|]. split; reflexivity.
Qed.

(** With a name and a description at hand, the record of an entry has the
    name of the metadata unless it is empty, then the identifier, and the
    lowest and the highest address of the block. *)
Lemma build_info_named (cfg : NetworkStructureConfiguration)
  (dm : SubnetMetadata.t) (id : string) (n : IPv4Network)
  (nm ds : string) :
  valid n ->
  SubnetMetadata.name (dict_get_default id dm (metadata cfg)) = Some nm ->
  SubnetMetadata.description (dict_get_default id dm (metadata cfg))
  = Some ds ->
  Exporter.build_info cfg dm id n
  = Ok (SubnetInfo.make id
          (if (0 <? String.length nm)%nat then nm else id) ds n
          (address_compressed (network_address n))
          (address_compressed (broadcast_address n))).
Proof.
  intros Hv Hn Hd. unfold Exporter.build_info.
  destruct (getitem_first_last n Hv) as [-> ->].
  rewrite Hn, Hd. reflexivity.
Qed.

Lemma build_info_of_network (cfg : NetworkStructureConfiguration)
  (dm : SubnetMetadata.t) (id : string) (n : IPv4Network)
  (info : SubnetInfo.t) :
  valid n -> Exporter.build_info cfg dm id n = Ok info ->
  info_of_network info.
Proof.
  intros Hv H. unfold Exporter.build_info in H.
  destruct (getitem_first_last n Hv) as [E0 E1]. rewrite E0, E1 in H.
  destruct (SubnetMetadata.name _); [|discriminate]. simpl in H.
  unfold SubnetInfo.new in H.
  destruct (SubnetMetadata.description _); [|discriminate].
  injection H as <-. unfold info_of_network. simpl. auto.
Qed.

Lemma build_loop_of_network (cfg : NetworkStructureConfiguration)
  (dm : SubnetMetadata.t) (items : dict IPv4Network) :
  Forall (fun kv => valid (snd kv)) items ->
  forall data0 data,
    Forall info_of_network data0 ->
    Exporter.build_loop cfg dm items data0 = Ok data ->
    Forall info_of_network data.
Proof.
  induction 1 as [|[id n] items Hn Hitems IH]; intros data0 data H0 H.
  - simpl in H. injection H as <-. assumption.
  - cbn [Exporter.build_loop] in H.
    destruct (Exporter.build_info cfg dm id n) as [info|e] eqn:E;
      [|discriminate].
    simpl in H. apply (IH (data0 ++ [info]) data); [|assumption].
    apply Forall_app. split; [assumption|]. constructor; [|constructor].
    eapply build_info_of_network; eassumption.
Qed.

Lemma init_of_network (cfg : NetworkStructureConfiguration)
  (alloc : dict IPv4Network) (dm : option SubnetMetadata.t)
  (e : Exporter.t) :
  Forall (fun kv => valid (snd kv)) alloc ->
  Exporter.init cfg alloc dm = Ok e ->
  Forall info_of_network (Exporter.data e).
Proof.
  intros Hv H. unfold Exporter.init, Exporter.build_data in H.
  cbn [Exporter.data Exporter.config Exporter.structure
       Exporter.default_metadata List.length Nat.ltb Nat.leb] in H.
  destruct (Exporter.build_loop _ _ alloc []) as [data|err] eqn:E;
    [|discriminate].
  simpl in H. injection H as <-. cbn [Exporter.data].
  eapply build_loop_of_network; [exact Hv| |exact E]. constructor.
Qed.

Lemma build_info_ok_inv (cfg : NetworkStructureConfiguration)
  (dm : SubnetMetadata.t) (id : string) (n : IPv4Network)
  (info : SubnetInfo.t) :
  Exporter.build_info cfg dm id n = Ok info ->
  exists nm ds first last,
    SubnetMetadata.name (dict_get_default id dm (metadata cfg)) = Some nm /\
    SubnetMetadata.description (dict_get_default id dm (metadata cfg))
    = Some ds /\
    getitem n 0 = Ok first /\ getitem n (-1) = Ok last /\
    info = SubnetInfo.make id (if (0 <? String.length nm)%nat then nm else id)
             ds n (address_compressed first) (address_compressed last).
Proof.
  unfold Exporter.build_info. intros H.
  destruct (SubnetMetadata.name _) as [nm|]; [|discriminate].
  cbn [res_bind] in H.
  destruct (getitem n 0) as [first|]; [|discriminate]. cbn [res_bind] in H.
  destruct (getitem n (-1)) as [last|]; [|discriminate]. cbn [res_bind] in H.
  unfold SubnetInfo.new in H.
  destruct (SubnetMetadata.description _) as [ds|]; [|discriminate].
  injection H as <-. exists nm, ds, first, last. auto.
Qed.

Lemma build_loop_app (cfg : NetworkStructureConfiguration)
  (dm : SubnetMetadata.t) (items : dict IPv4Network) :
  forall data0 data,
    Exporter.build_loop cfg dm items data0 = Ok data ->
    exists rows,
      data = data0 ++ rows /\
      Forall2 (fun kv info =>
                 Exporter.build_info cfg dm (fst kv) (snd kv) = Ok info)
              items rows.
Proof.
  induction items as [|[id n] items IH]; intros data0 data H.
  - simpl in H. injection H as <-. exists []. split; [now rewrite app_nil_r|].
    constructor.
  - cbn [Exporter.build_loop] in H.
    destruct (Exporter.build_info cfg dm id n) as [info|e] eqn:E;
      [|discriminate].
    cbn [res_bind] in H. destruct (IH _ _ H) as (rows & -> & HF).
    exists (info :: rows). split; [now rewrite <- app_assoc|].
    constructor; assumption.
Qed.

Lemma init_rows (cfg : NetworkStructureConfiguration)
  (plan : dict IPv4Network) (dm : option SubnetMetadata.t) (e : Exporter.t) :
  Exporter.init cfg plan dm = Ok e ->
  Exporter.config e = cfg /\ Exporter.structure e = plan /\
  Exporter.default_metadata e
  = match dm with Some m => m | None => Exporter.fallback_metadata end /\
  Forall2 (fun kv info =>
             Exporter.build_info cfg (Exporter.default_metadata e)
               (fst kv) (snd kv) = Ok info)
          plan (Exporter.data e).
Proof.
  unfold Exporter.init, Exporter.build_data. intros H.
  cbn [Exporter.data Exporter.config Exporter.structure
       Exporter.default_metadata List.length Nat.ltb Nat.leb] in H.
  destruct (Exporter.build_loop _ _ plan []) as [data|err] eqn:E;
    [|discriminate].
  cbn [res_bind] in H. injection H as <-.
  cbn [Exporter.data Exporter.config Exporter.structure
       Exporter.default_metadata].
  apply build_loop_app in E. destruct E as (rows & -> & HF).
  repeat split. exact HF.
Qed.

(** ** Reading back what [compressed] writes *)

Lemma lacks_app (c : ascii) (s1 s2 : string) :
  lacks c (s1 ++ s2)%string = lacks c s1 && lacks c s2.
Proof.
  induction s1 as [|a s1 IH]; simpl; [reflexivity|].
  now rewrite IH, andb_assoc.
Qed.

Lemma split_lacks (c : ascii) (s : string) :
  lacks c s = true -> split c s = [s].
Proof.
  induction s as [|a s IH]; simpl; intros H; [reflexivity|].
  apply andb_prop in H. destruct H as [Ha Hs].
  apply negb_true_iff in Ha. rewrite Ha, (IH Hs). reflexivity.
Qed.

Lemma split_app (c : ascii) (s1 s2 : string) :
  lacks c s1 = true ->
  split c (s1 ++ String c s2)%string = s1 :: split c s2.
Proof.
  induction s1 as [|a s1 IH]; simpl; intros H.
  - now rewrite Ascii.eqb_refl.
  - apply andb_prop in H. destruct H as [Ha Hs].
    apply negb_true_iff in Ha. rewrite Ha, (IH Hs). reflexivity.
Qed.

Lemma append_nonempty (s1 s2 : string) (c : ascii) :
  String.eqb (s1 ++ String c s2)%string "" = false.
Proof. destruct s1; reflexivity. Qed.

Lemma octets_round_trip (b : Z) :
  0 <= b < 256 ->
  _parse_octet (str_of_int b) = Ok b /\
  lacks "." (str_of_int b) = true /\ lacks "/" (str_of_int b) = true.
Proof.
  intros Hb.
  assert (H : octet_round_trips b = true).
  { apply (forallb_range octet_round_trips 0 256); [|lia].
    vm_compute. reflexivity. }
  unfold octet_round_trips in H.
  apply andb_prop in H. destruct H as [H H3].
  apply andb_prop in H. destruct H as [H1 H2].
  destruct (_parse_octet (str_of_int b)) as [b'|]; [|discriminate].
  apply Z.eqb_eq in H1. subst b'. auto.
Qed.

Lemma prefixes_round_trip (p : Z) :
  0 <= p <= 32 ->
  _prefix_from_prefix_string (str_of_int p) = Ok p /\
  lacks "/" (str_of_int p) = true.
Proof.
  intros Hp.
  assert (H : prefix_round_trips p = true).
  { apply (forallb_range prefix_round_trips 0 33); [|lia].
    vm_compute. reflexivity. }
  unfold prefix_round_trips in H.
  apply andb_prop in H. destruct H as [H1 H2].
  destruct (_prefix_from_prefix_string (str_of_int p)) as [p'|];
    [|discriminate].
  apply Z.eqb_eq in H1. subst p'. auto.
Qed.

Lemma land_255 (x : Z) : Z.land x 255 = x mod 256.
Proof. change 255 with (Z.ones 8). now rewrite Z.land_ones by lia. Qed.

Lemma to_bytes4_spec (a : Z) :
  0 <= a < 2 ^ 32 ->
  Forall (fun b => 0 <= b < 256) (to_bytes4 a) /\
  from_bytes (to_bytes4 a) = a.
Proof.
  intros Ha. unfold to_bytes4, from_bytes.
  rewrite !land_255, !Z.shiftr_div_pow2 by lia. cbn [fold_left].
  change (2 ^ 24) with (256 * 256 * 256).
  change (2 ^ 16) with (256 * 256). change (2 ^ 8) with 256.
  change (2 ^ 32) with (256 * 256 * 256 * 256) in Ha.
  rewrite <- !Z.div_div by lia.
  pose proof (Z.div_mod a 256 ltac:(lia)) as E1.
  pose proof (Z.mod_pos_bound a 256 ltac:(lia)) as B1.
  set (q1 := a / 256) in *.
  pose proof (Z.div_mod q1 256 ltac:(lia)) as E2.
  pose proof (Z.mod_pos_bound q1 256 ltac:(lia)) as B2.
  set (q2 := q1 / 256) in *.
  pose proof (Z.div_mod q2 256 ltac:(lia)) as E3.
  pose proof (Z.mod_pos_bound q2 256 ltac:(lia)) as B3.
  set (q3 := q2 / 256) in *.
  pose proof (Z.mod_pos_bound q3 256 ltac:(lia)) as B4.
  assert (Hq3 : 0 <= q3 < 256) by lia.
  rewrite (Z.mod_small q3 256 Hq3) in *.
  split; [|lia].
  repeat constructor; lia.
Qed.

Lemma address_round_trip (a : Z) :
  0 <= a < 2 ^ 32 ->
  _ip_int_from_string (address_compressed a) = Ok a /\
  lacks "/" (address_compressed a) = true.
Proof.
  intros Ha. destruct (to_bytes4_spec a Ha) as [Hb Hfrom].
  unfold address_compressed. unfold to_bytes4 in *.
  set (b1 := Z.land (Z.shiftr a 24) 255) in *.
  set (b2 := Z.land (Z.shiftr a 16) 255) in *.
  set (b3 := Z.land (Z.shiftr a 8) 255) in *.
  set (b4 := Z.land a 255) in *.
  pose proof (Forall_inv Hb) as H1.
  pose proof (Forall_inv (Forall_inv_tail Hb)) as H2.
  pose proof (Forall_inv (Forall_inv_tail (Forall_inv_tail Hb))) as H3.
  pose proof (Forall_inv
                (Forall_inv_tail (Forall_inv_tail (Forall_inv_tail Hb))))
    as H4.
  cbv beta in H1, H2, H3, H4.
  destruct (octets_round_trip b1 H1) as (P1 & D1 & S1).
  destruct (octets_round_trip b2 H2) as (P2 & D2 & S2).
  destruct (octets_round_trip b3 H3) as (P3 & D3 & S3).
  destruct (octets_round_trip b4 H4) as (P4 & D4 & S4).
  cbn [map join]. cbn [String.append].
  split.
  - unfold _ip_int_from_string. rewrite append_nonempty.
    rewrite !split_app, (split_lacks "." _ D4) by assumption.
    cbn [List.length Nat.eqb negb parse_octets].
    rewrite P1, P2, P3, P4. cbn [res_bind]. now rewrite Hfrom.
  - repeat (rewrite lacks_app; cbn [lacks Ascii.eqb Bool.eqb negb andb]).
    now rewrite S1, S2, S3, S4.
Qed.

Lemma network_round_trip (n : IPv4Network) :
  valid n -> IPv4Network_of_string (compressed n) = Ok n.
Proof.
  intros (Hp & Ha & Hm).
  destruct (address_round_trip _ Ha) as [Haddr Hslash].
  destruct (prefixes_round_trip _ Hp) as [Hpre Hps].
  unfold IPv4Network_of_string, compressed. cbn [String.append].
  rewrite (split_app "/" _ _ Hslash), (split_lacks "/" _ Hps).
  rewrite Haddr. cbn [res_bind]. unfold _make_netmask. rewrite Hpre.
  cbn [res_bind]. destruct n as [a p]. cbn [network_address prefixlen] in *.
  unfold netmask in *. cbn [prefixlen] in *. rewrite Hm, Z.eqb_refl.
  reflexivity.
Qed.

(** C9.  For every allocation plan whose blocks are networks, the
    structured form of [to_dict] has one element per record, in the order of
    the records, which are the entries of the plan in order; when the 'cidr'
    string of an element is read as a network and the fields are formed from
    that network again, the result is the cidr of the original record as a
    string, its first_address and its last_address, and these are the very
    strings the element holds. *)
Theorem structured_form_round_trip
  (cfg : NetworkStructureConfiguration) (alloc : dict IPv4Network)
  (dm : option SubnetMetadata.t) (e : Exporter.t) :
  Forall (fun kv => valid (snd kv)) alloc ->
  Exporter.init cfg alloc dm = Ok e ->
  map (fun info => (SubnetInfo.id info, SubnetInfo.cidr info))
      (Exporter.data e) = alloc /\
  Forall2 (fun info d =>
             SubnetDict.id d = SubnetInfo.id info /\
             rederive d
             = Ok (compressed (SubnetInfo.cidr info),
                   SubnetInfo.first_address info,
                   SubnetInfo.last_address info) /\
             rederive d
             = Ok (SubnetDict.cidr d, SubnetDict.first_address d,
                   SubnetDict.last_address d))
          (Exporter.data e) (ExportDict.subnets (Exporter.to_dict e)) /\
  Forall (fun d => rederive d
                   = Ok (SubnetDict.cidr d, SubnetDict.first_address d,
                         SubnetDict.last_address d))
         (ExportDict.subnets (Exporter.to_dict e)).
Proof.
  intros Hv He. pose proof (init_of_network cfg alloc dm e Hv He) as Hd.
  destruct (init_rows cfg alloc dm e He) as (_ & _ & _ & HF).
  assert (Hone : forall info, info_of_network info ->
            rederive (SubnetDict.make (SubnetInfo.id info)
                        (SubnetInfo.name info)
                        (compressed (SubnetInfo.cidr info))
                        (SubnetInfo.description info)
                        (SubnetInfo.first_address info)
                        (SubnetInfo.last_address info))
            = Ok (compressed (SubnetInfo.cidr info),
                  SubnetInfo.first_address info,
                  SubnetInfo.last_address info)).
  { intros info (Hvi & Hfirst & Hlast). unfold rederive.
    cbn [SubnetDict.cidr]. rewrite (network_round_trip _ Hvi).
    cbn [res_bind]. destruct (getitem_first_last _ Hvi) as [-> ->].
    cbn [res_bind]. now rewrite Hfirst, Hlast. }
  split; [|split].
  - clear Hd Hv He. induction HF as [|[id n] info plan rows Hinfo HF IH];
      [reflexivity|].
    cbn [map]. rewrite IH. f_equal. cbn [fst snd] in Hinfo.
    apply build_info_ok_inv in Hinfo.
    destruct Hinfo as (nm & ds & first & last & _ & _ & _ & _ & ->).
    reflexivity.
  - unfold Exporter.to_dict. cbn [ExportDict.subnets].
    clear HF. induction Hd as [|info rows Hinfo Hd IH]; constructor;
      [|exact IH].
    cbn [SubnetDict.id SubnetDict.cidr SubnetDict.first_address
         SubnetDict.last_address].
    split; [reflexivity|]. split; apply (Hone info Hinfo).
  - unfold Exporter.to_dict. cbn [ExportDict.subnets].
    apply Forall_map. eapply Forall_impl; [|exact Hd].
    intros info Hinfo. apply (Hone info Hinfo).
Qed.

Lemma structured_form_round_trip_witness :
  fst (allocate cfg_simple) = Ok plan_simple /\
  exists e,
    Exporter.init cfg_simple plan_simple None = Ok e /\
    map (fun info => (SubnetInfo.id info, SubnetInfo.cidr info))
        (Exporter.data e) = plan_simple /\
    map SubnetDict.cidr (ExportDict.subnets (Exporter.to_dict e))
    = ["10.1.0.0/18"; "10.1.64.0/18"; "10.1.128.0/18"] /\
    Forall (fun d => rederive d
                     = Ok (SubnetDict.cidr d, SubnetDict.first_address d,
                           SubnetDict.last_address d))
           (ExportDict.subnets (Exporter.to_dict e)).
Proof.
  split; [vm_compute; reflexivity|].
  eexists. split; [vm_compute; reflexivity|].
  destruct (structured_form_round_trip cfg_simple plan_simple None _
              ltac:(repeat constructor; apply validb_spec; vm_compute;
                    reflexivity)
              ltac:(vm_compute; reflexivity)) as (H1 & _ & H3).
  split; [exact H1|]. split; [vm_compute; reflexivity|]. exact H3.
Defined.

(** * Further properties of the calculator *)

(** ** Sizing *)

Lemma find_structure_len_from_closed (s : StructureType) :
  forall c,
  find_structure_len_from c s
  = if existsb lacks_key s then Raise KeyError else Ok (c + slot_count s).
Proof.
  induction s as [|it s IH]; intros c.
  - simpl. f_equal. unfold slot_count. simpl. lia.
  - destruct it as [| id | l | [k|]];
      cbn [find_structure_len_from existsb lacks_key orb];
      try reflexivity; rewrite IH;
      destruct (existsb lacks_key s); try reflexivity;
      f_equal; unfold slot_count; cbn [map fold_right slot_weight]; lia.
Qed.

Lemma slot_count_perm (s s' : StructureType) :
  Permutation s s' -> slot_count s = slot_count s'.
Proof.
  unfold slot_count. induction 1; simpl; lia.
Qed.

Lemma existsb_perm {A} (f : A -> bool) (l l' : list A) :
  Permutation l l' -> existsb f l = existsb f l'.
Proof.
  induction 1; simpl; try congruence.
  destruct (f x), (f y); reflexivity.
Qed.

Lemma find_structure_len_closed (s : StructureType) :
  find_structure_len s
  = if existsb lacks_key s then Raise KeyError else Ok (slot_count s).
Proof.
  unfold find_structure_len.
  rewrite find_structure_len_from_closed. now rewrite Z.add_0_l.
Qed.

(** X1.  The slot count of a level is the sum of the weights of its items (the
    count for a placeholder dict, 1 for anything else, a nested list
    included), a KeyError exactly when a dict of the level lacks the key;
    it does not depend on the order of the items. *)
Theorem find_structure_len_sum (s : StructureType) :
  find_structure_len s
  = (if existsb lacks_key s then Raise KeyError else Ok (slot_count s)) /\
  forall s', Permutation s s' ->
             find_structure_len s' = find_structure_len s.
Proof.
  split; [apply find_structure_len_closed|]. intros s' Hp.
  rewrite !find_structure_len_closed.
  now rewrite <- (existsb_perm _ _ _ Hp), <- (slot_count_perm _ _ Hp).
Qed.

(** X2.  [find_prefix] is monotone: a larger slot count never needs a shorter
    prefix, and a smaller one is sized whenever the larger one is. *)
Theorem find_prefix_monotone (n m q : Z) :
  n <= m -> find_prefix m = Ok q ->
  exists p, find_prefix n = Ok p /\ p <= q.
Proof.
  intros Hnm Hq. apply find_prefix_ok in Hq. destruct Hq as (Hr & Hle & _).
  assert (2 ^ q <= 2 ^ 31) by (apply Z.pow_le_mono_r; lia).
  destruct (find_prefix_small n ltac:(lia)) as [p Hp].
  exists p. split; [assumption|].
  apply find_prefix_ok in Hp. destruct Hp as (Hpr & _ & Hmin).
  destruct (Z.le_gt_cases p q) as [|Hlt]; [assumption|].
  specialize (Hmin q ltac:(lia)). lia.
Qed.

Lemma find_prefix_monotone_witness :
  exists p, find_prefix 3 = Ok p /\ p <= 3.
Proof.
  apply (find_prefix_monotone 3 5 3); [lia|reflexivity].
Defined.

(** X3.  An exact power of two is not rounded up, the next number is: for k
    in 0..31, find_prefix(2^k) = k, and for k below 31,
    find_prefix(2^k + 1) = k + 1.  Every n <= 1, negative ones included,
    gives 0. *)
Theorem find_prefix_powers_of_two (k n : Z) :
  0 <= k <= 31 ->
  find_prefix (2 ^ k) = Ok k /\
  (k < 31 -> find_prefix (2 ^ k + 1) = Ok (k + 1)) /\
  (n <= 1 -> find_prefix n = Ok 0).
Proof.
  intros Hk.
  assert (Hpos : forall j, 0 <= j -> 0 < 2 ^ j)
    by (intros; apply Z.pow_pos_nonneg; lia).
  assert (Hmono : forall i j, 0 <= i < j -> 2 * 2 ^ i <= 2 ^ j).
  { intros i j Hij. rewrite <- Z.pow_succ_r by lia.
    apply Z.pow_le_mono_r; lia. }
  split; [|split].
  - assert (2 ^ k <= 2 ^ 31) by (apply Z.pow_le_mono_r; lia).
    destruct (find_prefix_small (2 ^ k) ltac:(lia)) as [p Hp].
    rewrite Hp. f_equal.
    apply find_prefix_ok in Hp. destruct Hp as (Hr & Hle & Hmin).
    destruct (Z.lt_trichotomy p k) as [Hlt|[->|Hgt]]; [|reflexivity|].
    + pose proof (Hmono p k ltac:(lia)). pose proof (Hpos p ltac:(lia)). lia.
    + specialize (Hmin k ltac:(lia)). lia.
  - intros Hk'.
    assert (2 * 2 ^ k <= 2 ^ 31) by (apply Hmono; lia).
    pose proof (Hpos k ltac:(lia)).
    destruct (find_prefix_small (2 ^ k + 1) ltac:(lia)) as [p Hp].
    rewrite Hp. f_equal.
    apply find_prefix_ok in Hp. destruct Hp as (Hr & Hle & Hmin).
    destruct (Z.lt_trichotomy p (k + 1)) as [Hlt|[->|Hgt]]; [|reflexivity|].
    + assert (2 ^ p <= 2 ^ k) by (apply Z.pow_le_mono_r; lia). lia.
    + specialize (Hmin (k + 1) ltac:(lia)).
      pose proof (Hmono k (k + 1) ltac:(lia)). lia.
  - intros Hn.
    destruct (find_prefix_small n ltac:(lia)) as [p Hp].
    rewrite Hp. f_equal.
    apply find_prefix_ok in Hp. destruct Hp as (Hr & Hle & Hmin).
    destruct (Z.eq_dec p 0) as [|Hne]; [assumption|].
    specialize (Hmin 0 ltac:(lia)). simpl in Hmin. lia.
Qed.

Lemma find_prefix_powers_of_two_witness :
  find_prefix (2 ^ 8) = Ok 8 /\
  (8 < 31 -> find_prefix (2 ^ 8 + 1) = Ok (8 + 1)) /\
  (-4 <= 1 -> find_prefix (-4) = Ok 0).
Proof.
  apply (find_prefix_powers_of_two 8 (-4)). lia.
Defined.

(** ** Which exceptions the allocation raises *)




(** A structure with a string where the count of a nested placeholder
    should be has no items to stand for it. *)
Example string_count_is_no_item :
  structure_of [VStr "a"; VList [VStr "b"; VDict (Some (VStr "2"))]] = None.
Proof. reflexivity. Qed.



(** ** The sub-blocks of a level tile the parent *)

(** X5.  Every address of the parent block lies in exactly one sub-block of
    the level: the split leaves no gap and makes no overlap. *)
Theorem child_subnets_partition (parent : IPv4Network) (s : StructureType)
  (cs : list IPv4Network) (x : Z) :
  valid parent -> child_subnets_of parent s = Ok cs ->
  0 <= x < 2 ^ 32 -> contains parent x = true ->
  exists i c,
    nth_error cs i = Some c /\ contains c x = true /\
    forall j c', nth_error cs j = Some c' -> contains c' x = true -> j = i.
Proof.
  intros Hv Hcs Hx Hin.
  pose proof (child_subnets_well_split parent s cs Hv Hcs) as Hws.
  destruct (child_subnets_of_ok parent s cs Hv Hcs)
    as (n & p & _ & _ & Hp & _ & Hsum & Ecs).
  apply (contains_iff parent x Hv Hx) in Hin.
  rewrite (broadcast_eq parent Hv) in Hin.
  destruct (split_size parent p Hv Hp ltac:(lia)) as (Hsplit & Hs & Hdpos).
  set (sz := 2 ^ (32 - prefixlen parent - p)) in *.
  set (a := network_address parent) in *.
  set (k := (x - a) / sz).
  assert (Hk : 0 <= k < 2 ^ p).
  { unfold k. split.
    - apply Z.div_pos; lia.
    - apply Z.div_lt_upper_bound; lia. }
  pose proof (Z.div_mod (x - a) sz ltac:(lia)) as Hdm.
  pose proof (Z.mod_pos_bound (x - a) sz Hs) as Hmb. fold k in Hdm.
  assert (Hnth : nth_error cs (Z.to_nat k)
                 = Some (nth_subnet parent p (Z.to_nat k))).
  { rewrite Ecs, nth_error_map, nth_error_seq.
    destruct (Nat.ltb_spec (Z.to_nat k) (Z.to_nat (2 ^ p))); [|lia].
    reflexivity. }
  assert (Hrange : forall j c', nth_error cs j = Some c' ->
            valid c' /\
            (contains c' x = true <->
             a + Z.of_nat j * sz <= x <= a + Z.of_nat j * sz + sz - 1)).
  { intros j c' Hj. destruct (Hws j c' Hj) as (Hvc & _ & _).
    split; [assumption|].
    rewrite (contains_iff c' x Hvc Hx).
    rewrite Ecs in Hj. apply nth_error_children in Hj; [|assumption].
    destruct Hj as [-> Hjlt].
    destruct (nth_subnet_range parent p Hv Hp ltac:(lia) j Hjlt) as [-> ->].
    reflexivity. }
  exists (Z.to_nat k), (nth_subnet parent p (Z.to_nat k)).
  split; [assumption|]. split.
  - apply (Hrange _ _ Hnth). rewrite Z2Nat.id by lia. lia.
  - intros j c' Hj Hc'. apply (Hrange _ _ Hj) in Hc'.
    assert (Z.of_nat j = k); [|lia].
    assert (Z.of_nat j * sz <= x - a < (Z.of_nat j + 1) * sz) by lia.
    unfold k. apply Z.div_unique with (r := x - a - Z.of_nat j * sz);
      lia.
Qed.

Lemma child_subnets_partition_witness :
  exists i c,
    nth_error [cidr 10 0 0 0 10; cidr 10 64 0 0 10; cidr 10 128 0 0 10;
               cidr 10 192 0 0 10] i = Some c /\
    contains c (ip 10 200 3 4) = true /\
    forall j c',
      nth_error [cidr 10 0 0 0 10; cidr 10 64 0 0 10; cidr 10 128 0 0 10;
                 cidr 10 192 0 0 10] j = Some c' ->
      contains c' (ip 10 200 3 4) = true -> j = i.
Proof.
  apply (child_subnets_partition (network_cidr cfg_placeholder_inside)
           (structure cfg_placeholder_inside)).
  - apply validb_spec. vm_compute. reflexivity.
  - vm_compute. reflexivity.
  - vm_compute. split; [discriminate|reflexivity].
  - vm_compute. reflexivity.
Defined.

(** ** What a run leaves alone *)

Lemma extends_by_refl (ids : list string) (st : dict IPv4Network) :
  extends_by ids st st.
Proof.
  split; [|reflexivity]. exists []. split; [now rewrite app_nil_r|].
  intros x [].
Qed.

Lemma extends_by_trans (ids1 ids2 : list string)
  (st st1 st2 : dict IPv4Network) :
  extends_by ids1 st st1 -> extends_by ids2 st1 st2 ->
  extends_by (ids1 ++ ids2) st st2.
Proof.
  intros [(n1 & K1 & I1) G1] [(n2 & K2 & I2) G2]. split.
  - exists (n1 ++ n2). split.
    + now rewrite K2, K1, app_assoc.
    + intros x Hx. apply in_app_or in Hx. apply in_or_app.
      destruct Hx; [left; auto|right; auto].
  - intros id Hid. rewrite G2, G1; try reflexivity;
      intros Hin; apply Hid, in_or_app; auto.
Qed.

Lemma extends_by_incl (ids ids' : list string) (st st' : dict IPv4Network) :
  incl ids ids' -> extends_by ids st st' -> extends_by ids' st st'.
Proof.
  intros Hi [(n & K & I) G]. split.
  - exists n. split; [assumption|]. intros x Hx. auto.
  - intros id Hid. apply G. intros Hin. apply Hid. auto.
Qed.

Lemma keys_dict_set_list {V} (k : string) (v : V) (d : dict V) :
  map fst (dict_set k v d)
  = if existsb (String.eqb k) (map fst d) then map fst d
    else map fst d ++ [k].
Proof.
  induction d as [|[k0 v0] d IH]; simpl; [reflexivity|].
  destruct (String.eqb_spec k k0) as [->|Hne]; simpl; [reflexivity|].
  rewrite IH. destruct (existsb (String.eqb k) (map fst d)); reflexivity.
Qed.

Lemma extends_by_set (k : string) (v : IPv4Network) (st : dict IPv4Network) :
  extends_by [k] st (dict_set k v st).
Proof.
  split.
  - rewrite keys_dict_set_list.
    destruct (existsb (String.eqb k) (map fst st)).
    + exists []. split; [now rewrite app_nil_r|]. intros x [].
    + exists [k]. split; [reflexivity|]. intros x Hx. exact Hx.
  - intros id Hid. apply dict_get_set_other. intros ->. apply Hid. now left.
Qed.

Lemma walk_extends (cs : list IPv4Network) (xs : StructureType) :
  Forall (fun it => forall c st,
            extends_by (item_leaf_ids it) st
                       (snd (_compute_item c it st))) xs ->
  forall i st,
    extends_by (flat_map item_leaf_ids xs) st (snd (walk cs i xs st)).
Proof.
  induction 1 as [|x xs Hx HF IH]; intros i st.
  - rewrite walk_nil. apply extends_by_refl.
  - rewrite walk_cons. cbn [flat_map].
    destruct (nth_error cs i) as [c|]; [|apply extends_by_refl].
    specialize (Hx c st).
    destruct (_compute_item c x st) as [[[]|e] st1]; cbn [snd] in *.
    + eapply extends_by_trans; [exact Hx|apply IH].
    + eapply extends_by_incl; [|exact Hx].
      intros y Hy. apply in_or_app. now left.
Qed.

Lemma item_extends :
  forall it c st,
    extends_by (item_leaf_ids it) st (snd (_compute_item c it st)).
Proof.
  induction it as [| id | l IHl | k] using item_nested_ind; intros c st;
    try apply extends_by_refl.
  - simpl. destruct (String.eqb id placeholder_token).
    + apply extends_by_refl.
    + apply extends_by_set.
  - rewrite _compute_item_list, _compute_eq. cbn [item_leaf_ids].
    destruct (child_subnets_of c l) as [cs|e]; [|apply extends_by_refl].
    now apply walk_extends.
Qed.

Lemma token_is_no_leaf :
  forall it, ~ In placeholder_token (item_leaf_ids it).
Proof.
  induction it as [| id | l IHl | k] using item_nested_ind; simpl; auto.
  - destruct (String.eqb_spec id placeholder_token) as [|Hne]; simpl; tauto.
  - intros Hin. apply in_flat_map in Hin. destruct Hin as (x & Hx & Hin).
    rewrite Forall_forall in IHl. exact (IHl x Hx Hin).
Qed.

(** X10.  Whatever its outcome, a run of [_compute] only writes under the
    identifiers of the leaves of its structure: the keys that were there
    stay where they are, new keys are appended, an entry under any other
    identifier keeps its value, and nothing is ever stored under
    '__placeholder__'. *)
Theorem compute_writes_only_its_leaves (parent : IPv4Network)
  (s : StructureType) (st : dict IPv4Network) :
  extends_by (leaf_ids s) st (snd (_compute parent s st)) /\
  dict_get placeholder_token (snd (_compute parent s st))
  = dict_get placeholder_token st.
Proof.
  pose proof (item_extends (IList s) parent st) as H.
  rewrite _compute_item_list in H. cbn [item_leaf_ids] in H.
  split; [exact H|]. apply (proj2 H).
  apply (token_is_no_leaf (IList s)).
Qed.

(** ** Running [compute] again *)

Lemma dict_ext {V} (d d' : dict V) :
  NoDup (map fst d) -> map fst d' = map fst d ->
  (forall k, dict_get k d' = dict_get k d) -> d' = d.
Proof.
  revert d'. induction d as [|[k v] d IH]; intros d' Hnd Hk Hg.
  - destruct d'; [reflexivity|discriminate].
  - destruct d' as [|[k' v'] d']; [discriminate|].
    simpl in Hk. injection Hk as Ek Hk. subst k'.
    apply NoDup_cons_iff in Hnd. destruct Hnd as [Hnin Hnd'].
    pose proof (Hg k) as Hgk. simpl in Hgk. rewrite String.eqb_refl in Hgk.
    injection Hgk as Ev. subst v'. f_equal. apply IH; try assumption.
    intros k0. specialize (Hg k0). simpl in Hg.
    destruct (String.eqb_spec k0 k) as [E|Hne]; [subst k0|exact Hg].
    assert (N : forall (e : dict V), ~ In k (map fst e) -> dict_get k e = None).
    { induction e as [|[k1 v1] e IHe]; simpl; intros Hn; [reflexivity|].
      destruct (String.eqb_spec k k1) as [->|]; [tauto|]. apply IHe. tauto. }
    rewrite (N d Hnin), (N d'); [reflexivity|]. now rewrite Hk.
Qed.

Lemma keys_replay_present (ps : list placement) :
  forall st, incl (map leaf ps) (map fst st) ->
  map fst (replay st ps) = map fst st.
Proof.
  induction ps as [|p ps IH]; intros st Hi; simpl; [reflexivity|].
  assert (Hp : In (leaf p) (map fst st)) by (apply Hi; now left).
  assert (Hk : map fst (record st p) = map fst st).
  { unfold record. rewrite keys_dict_set_list.
    destruct (existsb (String.eqb (leaf p)) (map fst st)) eqn:E;
      [reflexivity|].
    exfalso. assert (existsb (String.eqb (leaf p)) (map fst st) = true);
      [|congruence].
    apply existsb_exists. exists (leaf p). split; [assumption|].
    apply String.eqb_refl. }
  rewrite IH; [exact Hk|]. rewrite Hk. intros x Hx. apply Hi. now right.
Qed.

Lemma replay_twice (ps : list placement) :
  replay (replay [] ps) ps = replay [] ps.
Proof.
  apply dict_ext.
  - apply NoDup_keys_replay. constructor.
  - apply keys_replay_present. intros id Hid. apply keys_replay. now right.
  - intros id. rewrite !dict_get_replay.
    destruct (last_block id ps); reflexivity.
Qed.

(** X12.  Calling [compute] a second time on the same calculator, whose result
    holds the mapping of the first call, raises nothing and returns the
    same mapping, in the same order. *)
Theorem compute_again_returns_the_same
  (cfg : NetworkStructureConfiguration) (m : dict IPv4Network) :
  fst (allocate cfg) = Ok m ->
  snd (allocate cfg) = m /\ compute cfg m = (Ok m, m).
Proof.
  intros Hok. pose proof (allocate_ok_feasible cfg m Hok) as Hf.
  rewrite (allocate_feasible cfg Hf) in *. cbn [fst snd] in *.
  injection Hok as <-. split; [reflexivity|].
  unfold compute, bind. rewrite (_compute_feasible _ _ _ Hf), replay_twice.
  reflexivity.
Qed.

Lemma compute_again_returns_the_same_witness :
  snd (allocate cfg_twice_nested)
  = plan_twice_nested /\
  compute cfg_twice_nested
    plan_twice_nested
  = (Ok plan_twice_nested,
     plan_twice_nested).
Proof.
  apply (compute_again_returns_the_same cfg_twice_nested).
  vm_compute. reflexivity.
Defined.

(** ** The mapping when identifiers repeat *)

Lemma dict_get_In {V} (d : dict V) (k : string) (v : V) :
  NoDup (map fst d) -> In (k, v) d -> dict_get k d = Some v.
Proof.
  induction d as [|[k0 v0] d IH]; simpl; intros Hnd Hin; [destruct Hin|].
  inversion Hnd as [|? ? Hnin Hnd']; subst.
  destruct Hin as [E|Hin].
  - injection E as -> ->. now rewrite String.eqb_refl.
  - destruct (String.eqb_spec k k0) as [->|]; [|auto].
    exfalso. apply Hnin. apply in_map_iff. exists (k0, v). auto.
Qed.

Lemma last_block_In (id : string) (ps : list placement) (b : IPv4Network) :
  last_block id ps = Some b ->
  exists p, In p ps /\ leaf p = id /\ block p = b.
Proof.
  unfold last_block. intros H.
  destruct (find (fun p => String.eqb id (leaf p)) (rev ps)) as [p|] eqn:E;
    [|discriminate].
  injection H as <-. apply find_some in E. destruct E as [Hin Heq].
  exists p. split; [now apply in_rev|].
  apply String.eqb_eq in Heq. auto.
Qed.

Lemma entry_is_a_placement (ps : list placement) (id : string)
  (b : IPv4Network) :
  In (id, b) (replay [] ps) ->
  exists p, In p ps /\ leaf p = id /\ block p = b.
Proof.
  intros Hin. apply dict_get_In in Hin;
    [|apply NoDup_keys_replay; constructor].
  rewrite dict_get_replay in Hin.
  destruct (last_block id ps) as [b'|] eqn:E; [|discriminate].
  injection Hin as ->. now apply last_block_In.
Qed.

(** X13.  Whenever the allocation succeeds on a valid root block, with repeated
    identifiers or placeholder counts of any sign, the mapping has each key
    once, every block is a valid network inside the root block with a prefix
    no shorter than the root's, and the blocks of two entries never
    overlap. *)
Theorem allocation_blocks_never_overlap
  (cfg : NetworkStructureConfiguration) (m : dict IPv4Network) :
  valid (network_cidr cfg) ->
  fst (allocate cfg) = Ok m ->
  NoDup (map fst m) /\
  (forall id b, In (id, b) m ->
     valid b /\ subnet_of b (network_cidr cfg) = true /\
     prefixlen (network_cidr cfg) <= prefixlen b <= 32) /\
  (forall i j e1 e2, i <> j ->
     nth_error m i = Some e1 -> nth_error m j = Some e2 ->
     overlaps (snd e1) (snd e2) = false).
Proof.
  intros Hv Hok. pose proof (allocate_ok_feasible cfg m Hok) as Hf.
  rewrite (allocate_feasible cfg Hf) in Hok. cbn [fst] in Hok.
  injection Hok as <-.
  set (ps := placements (network_cidr cfg) (structure cfg)).
  pose proof (item_placements_ok (IList (structure cfg)) _ _ Hv
                (inside_refl _)) as Hpok.
  pose proof (item_placements_apart (IList (structure cfg))
                (network_cidr cfg) _ Hv) as Hap.
  change (item_placements _ _ _) with ps in Hpok, Hap.
  rewrite Forall_forall in Hpok.
  assert (Hnd : NoDup (map fst (replay [] ps)))
    by (apply NoDup_keys_replay; constructor).
  split; [assumption|]. split.
  - intros id b Hin. apply entry_is_a_placement in Hin.
    destruct Hin as (p & Hp & _ & <-).
    destruct (Hpok p Hp) as (Hvb & Hroot & _ & _).
    split; [assumption|]. split; [now apply subnet_of_iff|].
    split; [now apply inside_prefixlen|]. apply valid_iff in Hvb. lia.
  - intros i j [id1 b1] [id2 b2] Hij H1 H2. cbn [snd].
    assert (Hne : id1 <> id2).
    { intros ->. apply Hij.
      apply (proj1 (NoDup_nth_error (map fst (replay [] ps))) Hnd).
      - apply nth_error_Some. rewrite nth_error_map, H1. discriminate.
      - now rewrite !nth_error_map, H1, H2. }
    apply nth_error_In in H1, H2.
    apply entry_is_a_placement in H1, H2.
    destruct H1 as (p1 & Hp1 & L1 & <-). destruct H2 as (p2 & Hp2 & L2 & <-).
    destruct (Hpok p1 Hp1) as (V1 & _). destruct (Hpok p2 Hp2) as (V2 & _).
    destruct (ForallOrdPairs_In Hap p1 p2 Hp1 Hp2) as [E|[A|A]].
    + subst p2. congruence.
    + now apply apart_overlaps.
    + apply apart_overlaps; try assumption. now apply apart_sym.
Qed.

Lemma allocation_blocks_never_overlap_witness :
  NoDup (map fst plan_twice_nested) /\
  overlaps (cidr 10 96 0 0 11) (cidr 10 64 0 0 11) = false.
Proof.
  assert (Hv : valid (network_cidr cfg_twice_nested))
    by (apply validb_spec; vm_compute; reflexivity).
  destruct (allocation_blocks_never_overlap cfg_twice_nested
              plan_twice_nested Hv)
    as (Hnd & _ & Hov); [vm_compute; reflexivity|].
  split; [exact Hnd|].
  apply (Hov 0%nat 1%nat ("a", cidr 10 96 0 0 11)
           ("b", cidr 10 64 0 0 11)); [lia|reflexivity|reflexivity].
Defined.

(** ** Positions *)

Lemma flat_map_enumerate_app {A B} (f : nat -> A -> list B) (xs ys : list A) :
  forall i,
  flat_map_enumerate f i (xs ++ ys)
  = flat_map_enumerate f i xs ++ flat_map_enumerate f (i + List.length xs) ys.
Proof.
  induction xs as [|x xs IH]; intros i; simpl.
  - now rewrite Nat.add_0_r.
  - rewrite IH, <- app_assoc. now rewrite Nat.add_succ_r.
Qed.

Lemma forallb_enumerate_app {A} (f : nat -> A -> bool) (xs ys : list A) :
  forall i,
  forallb_enumerate f i (xs ++ ys)
  = forallb_enumerate f i xs && forallb_enumerate f (i + List.length xs) ys.
Proof.
  induction xs as [|x xs IH]; intros i; simpl.
  - now rewrite Nat.add_0_r.
  - rewrite IH, andb_assoc. now rewrite Nat.add_succ_r.
Qed.

(** The leaves placed are leaves of the item, with or without an
    exception. *)
Lemma item_placements_incl :
  forall it parent child,
  incl (map leaf (item_placements parent child it)) (item_leaf_ids it).
Proof.
  induction it as [| id | l IHl | k] using item_nested_ind;
    intros parent child; simpl; try (intros x []).
  - destruct (String.eqb id placeholder_token); apply incl_refl.
  - destruct (child_subnets_of child l) as [cs|e]; [|intros x []].
    generalize 0%nat. induction IHl as [|x xs Hx HF IH]; intros i; simpl.
    + intros y [].
    + rewrite map_app. apply incl_app.
      * destruct (nth_error cs i) as [c|]; [|intros y []].
        apply incl_appl. apply Hx.
      * apply incl_appr. apply IH.
Qed.

Lemma level_placements_incl (parent : IPv4Network) (cs : list IPv4Network)
  (xs : StructureType) (i : nat) :
  incl (map leaf (flat_map_enumerate
                    (fun i x => match nth_error cs i with
                                | Some c => item_placements parent c x
                                | None => []
                                end) i xs))
       (flat_map item_leaf_ids xs).
Proof.
  revert i. induction xs as [|x xs IH]; intros i; simpl.
  - intros y [].
  - rewrite map_app. apply incl_app.
    + destruct (nth_error cs i) as [c|]; [|intros y []].
      apply incl_appl. apply item_placements_incl.
    + apply incl_appr. apply IH.
Qed.

Lemma last_block_app_absent (id : string) (ps qs : list placement) :
  ~ In id (map leaf qs) -> last_block id (ps ++ qs) = last_block id ps.
Proof.
  intros Hn. unfold last_block. rewrite rev_app_distr.
  assert (Hr : ~ In id (map leaf (rev qs))).
  { intros Hin. apply Hn. apply in_map_iff in Hin.
    destruct Hin as (p & E & Hp). apply in_map_iff. exists p.
    split; [assumption|]. now apply in_rev. }
  induction (rev qs) as [|q r IH]; simpl; [reflexivity|].
  destruct (String.eqb_spec id (leaf q)) as [->|].
  - exfalso. apply Hr. now left.
  - apply IH. intros Hin. apply Hr. now right.
Qed.

(** X7.  In a successful allocation the leaf that is the i-th item of the root
    level is given [child_subnets[i]], the sub-block at the index of the
    item (not at the sum of the weights before it), provided the identifier
    does not occur again later in the structure. *)
Theorem leaf_gets_the_block_at_its_index
  (cfg : NetworkStructureConfiguration) (m : dict IPv4Network)
  (cs : list IPv4Network) (i : nat) (id : string) :
  fst (allocate cfg) = Ok m ->
  child_subnets_of (network_cidr cfg) (structure cfg) = Ok cs ->
  nth_error (structure cfg) i = Some (IStr id) ->
  id <> placeholder_token ->
  ~ In id (leaf_ids (skipn (S i) (structure cfg))) ->
  exists c, nth_error cs i = Some c /\ dict_get id m = Some c.
Proof.
  intros Hok Hcs Hi Hne Hlater.
  pose proof (allocate_ok_feasible cfg m Hok) as Hf.
  rewrite (allocate_feasible cfg Hf) in Hok. cbn [fst] in Hok.
  injection Hok as <-.
  unfold feasible in Hf. unfold placements.
  cbn [item_feasible item_placements] in *. rewrite Hcs in *.
  destruct (nth_error_split _ _ Hi) as (l1 & l2 & Es & Hlen).
  assert (Hskip : skipn (S i) (structure cfg) = l2).
  { rewrite Es, <- Hlen.
    change (l1 ++ IStr id :: l2) with (l1 ++ [IStr id] ++ l2).
    rewrite app_assoc.
    replace (S (List.length l1)) with (List.length (l1 ++ [IStr id]))
      by (rewrite length_app; simpl; lia).
    now rewrite skipn_app, skipn_all, Nat.sub_diag. }
  rewrite Hskip in Hlater. rewrite Es in *.
  rewrite forallb_enumerate_app in Hf. cbn [Nat.add] in Hf.
  apply andb_prop in Hf. destruct Hf as [_ Hf].
  cbn [forallb_enumerate] in Hf. apply andb_prop in Hf.
  destruct Hf as [Hfi _]. rewrite Hlen in Hfi.
  destruct (nth_error cs i) as [c|] eqn:Ec; [|discriminate].
  exists c. split; [reflexivity|].
  rewrite dict_get_replay, flat_map_enumerate_app.
  cbn [Nat.add flat_map_enumerate]. rewrite Hlen, Ec.
  cbn [item_placements].
  destruct (String.eqb_spec id placeholder_token) as [|_]; [contradiction|].
  rewrite (app_assoc _ [_] _), last_block_app_absent.
  - unfold last_block. rewrite rev_unit. cbn [find leaf].
    now rewrite String.eqb_refl.
  - intros Hin. apply Hlater. eapply level_placements_incl. exact Hin.
Qed.

Lemma leaf_gets_the_block_at_its_index_witness :
  exists c,
    nth_error [cidr 10 0 0 0 10; cidr 10 64 0 0 10; cidr 10 128 0 0 10;
               cidr 10 192 0 0 10] 2 = Some c /\
    dict_get "b" [("a", cidr 10 0 0 0 10); ("b", cidr 10 128 0 0 10)]
    = Some c.
Proof.
  apply (leaf_gets_the_block_at_its_index cfg_placeholder_inside).
  - vm_compute. reflexivity.
  - vm_compute. reflexivity.
  - reflexivity.
  - discriminate.
  - vm_compute. tauto.
Defined.

Lemma level_placement_origin (parent : IPv4Network) (cs : list IPv4Network)
  (xs : StructureType) (p : placement) :
  forall i,
  In p (flat_map_enumerate
          (fun i x => match nth_error cs i with
                      | Some c => item_placements parent c x
                      | None => []
                      end) i xs) ->
  exists j x c,
    nth_error xs j = Some x /\ nth_error cs (i + j) = Some c /\
    In p (item_placements parent c x).
Proof.
  induction xs as [|x xs IH]; intros i Hin; simpl in Hin; [destruct Hin|].
  apply in_app_or in Hin. destruct Hin as [Hin|Hin].
  - destruct (nth_error cs i) as [c|] eqn:Ec; [|destruct Hin].
    exists 0%nat, x, c. rewrite Nat.add_0_r. auto.
  - destruct (IH (S i) Hin) as (j & y & c & Hj & Hc & Hp).
    exists (S j), y, c. rewrite Nat.add_succ_r. auto.
Qed.

(** X9.  In a successful allocation on a valid root block, a sub-block of the
    root level whose index is past the last item, or is the index of an item
    that records nothing (a placeholder of any form, or a group without
    leaves), overlaps no block of the mapping: it stays free. *)
Theorem blocks_without_a_leaf_stay_free
  (cfg : NetworkStructureConfiguration) (m : dict IPv4Network)
  (cs : list IPv4Network) (i : nat) (c : IPv4Network) :
  valid (network_cidr cfg) ->
  fst (allocate cfg) = Ok m ->
  child_subnets_of (network_cidr cfg) (structure cfg) = Ok cs ->
  nth_error cs i = Some c ->
  match nth_error (structure cfg) i with
  | Some x => records_nothing x = true
  | None => True
  end ->
  forall id b, In (id, b) m -> overlaps c b = false.
Proof.
  intros Hv Hok Hcs Hc Hfree id b Hin.
  pose proof (allocate_ok_feasible cfg m Hok) as Hf.
  rewrite (allocate_feasible cfg Hf) in Hok. cbn [fst] in Hok.
  injection Hok as <-. apply entry_is_a_placement in Hin.
  destruct Hin as (p & Hp & _ & <-).
  unfold placements in Hp. cbn [item_placements] in Hp. rewrite Hcs in Hp.
  apply level_placement_origin in Hp.
  destruct Hp as (j & x & cj & Hj & Hcj & Hp). cbn [Nat.add] in Hcj.
  pose proof (child_subnets_well_split _ _ _ Hv Hcs) as Hws.
  destruct (Hws i c Hc) as (Hvc & _ & Hbefore_c).
  destruct (Hws j cj Hcj) as (Hvj & Hij & Hbefore_j).
  pose proof (item_placements_ok x (network_cidr cfg) cj Hvj Hij) as Hpok.
  rewrite Forall_forall in Hpok.
  destruct (Hpok p Hp) as (Hvb & Hinside & _ & _).
  destruct (Nat.eq_dec j i) as [->|Hne].
  - exfalso. rewrite Hj in Hfree. unfold records_nothing in Hfree.
    assert (Hl : In (leaf p) (item_leaf_ids x)).
    { apply (item_placements_incl x (network_cidr cfg) cj).
      now apply in_map. }
    destruct (item_leaf_ids x); [destruct Hl|discriminate].
  - apply apart_overlaps; try assumption.
    apply (apart_inside c cj); try assumption; [|apply inside_refl].
    destruct (Nat.lt_total i j) as [Hlt|[Heq|Hgt]].
    + left. apply (Hbefore_j i c Hlt Hc).
    + congruence.
    + right. apply (Hbefore_c j cj Hgt Hcj).
Qed.

Lemma blocks_without_a_leaf_stay_free_witness :
  overlaps (cidr 10 64 0 0 10) (cidr 10 128 0 0 10) = false.
Proof.
  assert (Hv : valid (network_cidr cfg_placeholder_inside))
    by (apply validb_spec; vm_compute; reflexivity).
  apply (blocks_without_a_leaf_stay_free cfg_placeholder_inside
           [("a", cidr 10 0 0 0 10); ("b", cidr 10 128 0 0 10)]
           [cidr 10 0 0 0 10; cidr 10 64 0 0 10; cidr 10 128 0 0 10;
            cidr 10 192 0 0 10] 1%nat (cidr 10 64 0 0 10) Hv
           ltac:(vm_compute; reflexivity) ltac:(vm_compute; reflexivity)
           eq_refl eq_refl "b").
  right. left. reflexivity.
Defined.

(** ** How many subnets fit *)

Lemma scalar_level (s : StructureType) :
  forallb is_scalar s = true ->
  find_structure_len s = Ok (Z.of_nat (List.length s)).
Proof.
  intros Hs. rewrite find_structure_len_closed.
  assert (H : existsb lacks_key s = false /\
              slot_count s = Z.of_nat (List.length s)).
  { induction s as [|x s IH]; [split; reflexivity|].
    simpl in Hs. apply andb_prop in Hs. destruct Hs as [Hx Hs].
    destruct (IH Hs) as [E1 E2]. unfold slot_count in *.
    destruct x; simpl in Hx; try discriminate;
      cbn [existsb lacks_key orb map fold_right slot_weight List.length];
      (split; [exact E1|]); rewrite E2; lia. }
  destruct H as [-> ->]. reflexivity.
Qed.

Lemma scalar_walk_feasible (cs : list IPv4Network) (xs : StructureType) :
  forallb is_scalar xs = true ->
  forall i,
  forallb_enumerate
    (fun i x => match nth_error cs i with
                | Some c => item_feasible c x
                | None => false
                end) i xs
  = (i + List.length xs <=? List.length cs)%nat || (List.length xs =? 0)%nat.
Proof.
  induction xs as [|x xs IH]; intros Hs i.
  - simpl. now rewrite orb_true_r.
  - simpl in Hs. apply andb_prop in Hs. destruct Hs as [Hx Hs].
    cbn [forallb_enumerate List.length Nat.eqb]. rewrite orb_false_r.
    rewrite (IH Hs (S i)).
    destruct (nth_error cs i) as [c|] eqn:Ec.
    + assert (i < List.length cs)%nat
        by (apply nth_error_Some; congruence).
      replace (item_feasible c x) with true by (destruct x; easy).
      cbn [andb].
      destruct (Nat.leb_spec (i + S (List.length xs)) (List.length cs));
        destruct (Nat.leb_spec (S i + List.length xs) (List.length cs));
        destruct (Nat.eqb_spec (List.length xs) 0); try reflexivity; lia.
    + apply nth_error_None in Ec.
      destruct (Nat.leb_spec (i + S (List.length xs)) (List.length cs));
        [lia|reflexivity].
Qed.

(** X14.  A structure without groups and without placeholder dicts (leaves and
    single placeholders only) can be allocated in a valid root block exactly
    when its number of items is at most the number of addresses of the
    block, 2^(32 - prefixlen), and at most 2^31. *)
Theorem flat_structure_fits_iff (cfg : NetworkStructureConfiguration) :
  valid (network_cidr cfg) ->
  forallb is_scalar (structure cfg) = true ->
  (exists m, fst (allocate cfg) = Ok m) <->
  Z.of_nat (List.length (structure cfg))
  <= 2 ^ (32 - prefixlen (network_cidr cfg)) /\
  Z.of_nat (List.length (structure cfg)) <= 2 ^ 31.
Proof.
  intros Hv Hs.
  set (root := network_cidr cfg). set (s := structure cfg).
  set (n := Z.of_nat (List.length s)).
  pose proof (scalar_level s Hs) as Hlen. fold n in Hlen.
  assert (Hpl : 0 <= prefixlen root <= 32) by (apply valid_iff in Hv; tauto).
  assert (Hfeas : (exists m, fst (allocate cfg) = Ok m)
                  <-> feasible root s = true).
  { split.
    - intros [m Hm]. exact (allocate_ok_feasible cfg m Hm).
    - intros Hf. rewrite (allocate_feasible cfg Hf). eexists. reflexivity. }
  rewrite Hfeas. unfold feasible. cbn [item_feasible].
  split.
  - intros Hf.
    destruct (child_subnets_of root s) as [cs|e] eqn:Ecs; [|discriminate].
    destruct (child_subnets_of_ok root s cs Hv Ecs)
      as (n' & p & En & Ep & Hp & Hnp & Hsum & _).
    rewrite Hlen in En. injection En as <-.
    apply find_prefix_ok in Ep. destruct Ep as (Hp32 & _ & _).
    split.
    + assert (2 ^ p <= 2 ^ (32 - prefixlen root))
        by (apply Z.pow_le_mono_r; lia). lia.
    + assert (2 ^ p <= 2 ^ 31) by (apply Z.pow_le_mono_r; lia). lia.
  - intros [Hfit H31].
    destruct (find_prefix_small n H31) as [p Ep].
    pose proof (find_prefix_ok n p Ep) as (Hp32 & Hnp & Hmin).
    assert (Hsum : p + prefixlen root <= 32).
    { destruct (Z.le_gt_cases (p + prefixlen root) 32) as [|Hgt];
        [assumption|].
      specialize (Hmin (32 - prefixlen root) ltac:(lia)). lia. }
    assert (Ecs : child_subnets_of root s
                  = Ok (map (nth_subnet root p) (seq 0 (Z.to_nat (2 ^ p))))).
    { unfold child_subnets_of. rewrite Hlen. cbn [res_bind]. rewrite Ep.
      cbn [res_bind].
      destruct (Z.gtb_spec (p + prefixlen root) 32) as [|_]; [lia|].
      apply subnets_eq; try assumption; lia. }
    rewrite Ecs. rewrite (scalar_walk_feasible _ s Hs 0%nat).
    apply orb_true_iff. left. apply Nat.leb_le. cbn [Nat.add].
    pose proof (length_children root p ltac:(lia)). unfold n in Hnp. lia.
Qed.

Lemma flat_structure_fits_iff_witness :
  (exists m, fst (allocate cfg_simple) = Ok m) <->
  Z.of_nat (List.length (structure cfg_simple))
  <= 2 ^ (32 - prefixlen (network_cidr cfg_simple)) /\
  Z.of_nat (List.length (structure cfg_simple)) <= 2 ^ 31.
Proof.
  apply (flat_structure_fits_iff cfg_simple).
  - apply validb_spec. vm_compute. reflexivity.
  - reflexivity.
Defined.

(** * Further properties of the exporter *)

(** X15.  When the exporter is built, it holds one record per entry of the
    plan, in the order of the plan: the record has the identifier and the
    block of its entry, the description of the metadata the identifier
    resolves to, and as its name the name of that metadata, or the
    identifier when that name is the empty string. *)
Theorem exporter_records_follow_the_plan
  (cfg : NetworkStructureConfiguration) (plan : dict IPv4Network)
  (dm : option SubnetMetadata.t) (e : Exporter.t) :
  Exporter.init cfg plan dm = Ok e ->
  Forall2 (fun kv info =>
             SubnetInfo.id info = fst kv /\
             SubnetInfo.cidr info = snd kv /\
             SubnetMetadata.description (resolved cfg dm (fst kv))
             = Some (SubnetInfo.description info) /\
             exists nm,
               SubnetMetadata.name (resolved cfg dm (fst kv)) = Some nm /\
               SubnetInfo.name info
               = if String.eqb nm "" then fst kv else nm)
          plan (Exporter.data e).
Proof.
  intros H. destruct (init_rows cfg plan dm e H) as (_ & _ & Hdm & HF).
  rewrite Hdm in HF. clear H Hdm.
  induction HF as [|[id n] info plan' rows Hinfo HF IH]; constructor;
    [|exact IH].
  cbn [fst snd] in *. apply build_info_ok_inv in Hinfo.
  destruct Hinfo as (nm & ds & first & last & Hn & Hd & _ & _ & ->).
  unfold resolved. cbn [SubnetInfo.id SubnetInfo.cidr SubnetInfo.name
                        SubnetInfo.description].
  split; [reflexivity|]. split; [reflexivity|]. split; [exact Hd|].
  exists nm. split; [exact Hn|]. destruct nm; reflexivity.
Qed.

Lemma exporter_records_follow_the_plan_witness :
  exists e,
    Exporter.init cfg_simple plan_simple None = Ok e /\
    map SubnetInfo.name (Exporter.data e) = ["PUBLIC"; "PRIVATE"; "DATA"] /\
    Forall2 (fun kv info =>
               SubnetInfo.id info = fst kv /\
               SubnetInfo.cidr info = snd kv /\
               SubnetMetadata.description (resolved cfg_simple None (fst kv))
               = Some (SubnetInfo.description info) /\
               exists nm,
                 SubnetMetadata.name (resolved cfg_simple None (fst kv))
                 = Some nm /\
                 SubnetInfo.name info
                 = if String.eqb nm "" then fst kv else nm)
            plan_simple (Exporter.data e).
Proof.
  eexists. split; [vm_compute; reflexivity|].
  split; [reflexivity|].
  apply (exporter_records_follow_the_plan cfg_simple plan_simple None).
  vm_compute. reflexivity.
Defined.

Lemma build_loop_complete (cfg : NetworkStructureConfiguration)
  (dm : SubnetMetadata.t) (items : dict IPv4Network) :
  Forall (fun kv => valid (snd kv)) items ->
  forall data0,
    match Exporter.build_loop cfg dm items data0 with
    | Ok _ =>
        forallb (fun kv => complete (dict_get_default (fst kv) dm
                                       (metadata cfg))) items = true
    | Raise err =>
        forallb (fun kv => complete (dict_get_default (fst kv) dm
                                       (metadata cfg))) items = false /\
        (err = TypeError \/ err = ValidationError)
    end.
Proof.
  induction 1 as [|[id n] items Hn Hitems IH]; intros data0;
    [reflexivity|].
  cbn [Exporter.build_loop forallb fst snd] in *.
  unfold Exporter.build_info, complete.
  destruct (getitem_first_last n Hn) as [-> ->].
  destruct (SubnetMetadata.name _) as [nm|]; cbn [res_bind];
    [|split; [reflexivity|now left]].
  unfold SubnetInfo.new.
  destruct (SubnetMetadata.description _) as [ds|]; cbn [res_bind andb];
    [|split; [reflexivity|now right]].
  apply IH.
Qed.

(** X16.  On a plan of valid networks the exporter is built exactly when every
    identifier of the plan resolves to metadata with a name and a
    description; otherwise its construction raises a TypeError (a name is
    missing) or a ValidationError (a description is missing).  An identifier
    without an entry in the metadata resolves to the default, which has
    both. *)
Theorem exporter_built_iff_metadata_complete
  (cfg : NetworkStructureConfiguration) (plan : dict IPv4Network)
  (dm : option SubnetMetadata.t) :
  Forall (fun kv => valid (snd kv)) plan ->
  ((exists e, Exporter.init cfg plan dm = Ok e) <->
   forallb (fun kv => complete (resolved cfg dm (fst kv))) plan = true) /\
  (forall err, Exporter.init cfg plan dm = Raise err ->
               err = TypeError \/ err = ValidationError) /\
  (dm = None ->
   (forall id, In id (map fst plan) -> dict_get id (metadata cfg) = None) ->
   exists e, Exporter.init cfg plan dm = Ok e /\
             Exporter.data e
             = map default_record plan).
Proof.
  intros Hv.
  set (d := match dm with Some m => m | None => Exporter.fallback_metadata end).
  assert (Hinit : Exporter.init cfg plan dm
                  = res_bind (Exporter.build_loop cfg d plan [])
                      (fun data => Ok (Exporter.make cfg plan d data))).
  { reflexivity. }
  pose proof (build_loop_complete cfg d plan Hv []) as Hloop.
  fold (resolved cfg dm) in Hloop.
  change (fun kv : string * IPv4Network =>
            complete (dict_get_default (fst kv) d (metadata cfg)))
    with (fun kv : string * IPv4Network => complete (resolved cfg dm (fst kv)))
    in Hloop.
  split; [|split].
  - rewrite Hinit.
    destruct (Exporter.build_loop cfg d plan []) as [data|err];
      cbn [res_bind].
    + split; [intros _; exact Hloop|]. intros _. eexists. reflexivity.
    + destruct Hloop as [Hf _]. split.
      * intros [e He]. discriminate.
      * intros Ht. congruence.
  - intros err. rewrite Hinit.
    destruct (Exporter.build_loop cfg d plan []) as [data|err'];
      cbn [res_bind]; [discriminate|].
    intros E. injection E as <-. apply Hloop.
  - intros -> Habsent. rewrite Hinit. unfold d.
    assert (G : forall items data0,
              Forall (fun kv => valid (snd kv)) items ->
              (forall id, In id (map fst items) ->
                          dict_get id (metadata cfg) = None) ->
              Exporter.build_loop cfg Exporter.fallback_metadata items data0
              = Ok (data0 ++ map default_record items)).
    { induction items as [|[id n] items IH]; intros data0 Hvi Hab.
      - simpl. now rewrite app_nil_r.
      - apply Forall_cons_iff in Hvi. destruct Hvi as [Hn Hvi].
        cbn [Exporter.build_loop map fst snd].
        rewrite (build_info_named cfg Exporter.fallback_metadata id n
                   "" "---" Hn).
        + cbn [res_bind]. rewrite IH; try assumption.
          * now rewrite <- app_assoc.
          * intros id' Hid'. apply Hab. now right.
        + unfold dict_get_default. rewrite (Hab id); [reflexivity|now left].
        + unfold dict_get_default. rewrite (Hab id); [reflexivity|now left]. }
    rewrite (G plan [] Hv Habsent). cbn [res_bind app].
    eexists. split; reflexivity.
Qed.

Lemma exporter_built_iff_metadata_complete_witness :
  (exists e, Exporter.init cfg_unnamed [("a", cidr 10 0 0 0 8)] None = Ok e)
  <-> forallb (fun kv => complete (resolved cfg_unnamed None (fst kv)))
        [("a", cidr 10 0 0 0 8)] = true.
Proof.
  apply (exporter_built_iff_metadata_complete cfg_unnamed
           [("a", cidr 10 0 0 0 8)] None).
  constructor; [apply validb_spec; vm_compute; reflexivity|constructor].
Defined.

(** X17.  The first and the last address of a record are the lowest and the
    highest address of its block: both lie in the block, every 32-bit
    address of the block lies between them, and the two strings read back as
    these addresses. *)
Theorem exporter_addresses_bound_the_block
  (cfg : NetworkStructureConfiguration) (plan : dict IPv4Network)
  (dm : option SubnetMetadata.t) (e : Exporter.t) :
  Forall (fun kv => valid (snd kv)) plan ->
  Exporter.init cfg plan dm = Ok e ->
  Forall (fun info =>
            exists lo hi,
              _ip_int_from_string (SubnetInfo.first_address info) = Ok lo /\
              _ip_int_from_string (SubnetInfo.last_address info) = Ok hi /\
              contains (SubnetInfo.cidr info) lo = true /\
              contains (SubnetInfo.cidr info) hi = true /\
              forall x, 0 <= x < 2 ^ 32 ->
                        contains (SubnetInfo.cidr info) x = true ->
                        lo <= x <= hi)
         (Exporter.data e).
Proof.
  intros Hv He. pose proof (init_of_network cfg plan dm e Hv He) as Hd.
  eapply Forall_impl; [|exact Hd].
  intros info (Hvi & -> & ->).
  pose proof (broadcast_bounds _ Hvi) as Hb.
  assert (Ha : 0 <= network_address (SubnetInfo.cidr info) < 2 ^ 32)
    by (apply valid_iff in Hvi; tauto).
  exists (network_address (SubnetInfo.cidr info)),
         (broadcast_address (SubnetInfo.cidr info)).
  split; [apply address_round_trip; lia|].
  split; [apply address_round_trip; lia|].
  split; [apply contains_iff; try assumption; lia|].
  split; [apply contains_iff; try assumption; lia|].
  intros x Hx Hin. now apply contains_iff in Hin.
Qed.

Lemma exporter_addresses_bound_the_block_witness :
  exists e,
    Exporter.init cfg_simple plan_simple None = Ok e /\
    Forall (fun info =>
              exists lo hi,
                _ip_int_from_string (SubnetInfo.first_address info) = Ok lo /\
                _ip_int_from_string (SubnetInfo.last_address info) = Ok hi /\
                contains (SubnetInfo.cidr info) lo = true /\
                contains (SubnetInfo.cidr info) hi = true /\
                forall x, 0 <= x < 2 ^ 32 ->
                          contains (SubnetInfo.cidr info) x = true ->
                          lo <= x <= hi)
           (Exporter.data e).
Proof.
  eexists. split; [vm_compute; reflexivity|].
  apply (exporter_addresses_bound_the_block cfg_simple plan_simple None).
  - repeat constructor; apply validb_spec; vm_compute; reflexivity.
  - vm_compute. reflexivity.
Defined.

(** X18.  Calling [build_data] again on an exporter that is built leaves its
    records as they are: nothing is appended a second time. *)
Theorem build_data_again_changes_nothing
  (cfg : NetworkStructureConfiguration) (plan : dict IPv4Network)
  (dm : option SubnetMetadata.t) (e : Exporter.t) :
  Exporter.init cfg plan dm = Ok e ->
  Exporter.build_data e = Ok (Exporter.data e).
Proof.
  intros H. destruct (init_rows cfg plan dm e H) as (_ & Hplan & _ & HF).
  unfold Exporter.build_data.
  destruct (Exporter.data e) as [|info rows] eqn:Ed; [|reflexivity].
  inversion HF as [E|]. cbn [List.length Nat.ltb Nat.leb].
  rewrite Hplan, <- E. reflexivity.
Qed.

Lemma build_data_again_changes_nothing_witness :
  exists e,
    Exporter.init cfg_simple plan_simple None = Ok e /\
    List.length (Exporter.data e) = 3%nat /\
    Exporter.build_data e = Ok (Exporter.data e).
Proof.
  eexists. split; [vm_compute; reflexivity|]. split; [reflexivity|].
  apply (build_data_again_changes_nothing cfg_simple plan_simple None).
  vm_compute. reflexivity.
Defined.

(** X19.  The structured form of [to_dict] lists the entries of the plan in
    order under their identifiers; its 'network_cidr' string reads back as
    the configured network and the 'cidr' string of every element as the
    block of its entry. *)
Theorem to_dict_reads_back_as_the_plan
  (cfg : NetworkStructureConfiguration) (plan : dict IPv4Network)
  (dm : option SubnetMetadata.t) (e : Exporter.t) :
  valid (network_cidr cfg) ->
  Forall (fun kv => valid (snd kv)) plan ->
  Exporter.init cfg plan dm = Ok e ->
  IPv4Network_of_string (ExportDict.network_cidr (Exporter.to_dict e))
  = Ok (network_cidr cfg) /\
  map SubnetDict.id (ExportDict.subnets (Exporter.to_dict e))
  = map fst plan /\
  map (fun d => IPv4Network_of_string (SubnetDict.cidr d))
      (ExportDict.subnets (Exporter.to_dict e))
  = map (fun kv => Ok (snd kv)) plan.
Proof.
  intros Hroot Hv He.
  destruct (init_rows cfg plan dm e He) as (Hcfg & _ & _ & HF).
  unfold Exporter.to_dict.
  cbn [ExportDict.network_cidr ExportDict.subnets]. rewrite Hcfg.
  split; [now apply network_round_trip|].
  rewrite !map_map. cbn [SubnetDict.id SubnetDict.cidr].
  clear He. induction HF as [|[id n] info plan' rows Hinfo HF IH];
    [split; reflexivity|].
  apply Forall_cons_iff in Hv. destruct Hv as [Hn Hv].
  destruct (IH Hv) as [IH1 IH2]. cbn [map fst snd] in *.
  apply build_info_ok_inv in Hinfo.
  destruct Hinfo as (nm & ds & first & last & _ & _ & _ & _ & ->).
  cbn [SubnetInfo.id SubnetInfo.cidr].
  rewrite (network_round_trip n Hn), IH1, IH2. split; reflexivity.
Qed.

Lemma to_dict_reads_back_as_the_plan_witness :
  exists e,
    Exporter.init cfg_simple plan_simple None = Ok e /\
    IPv4Network_of_string (ExportDict.network_cidr (Exporter.to_dict e))
    = Ok (network_cidr cfg_simple) /\
    map SubnetDict.id (ExportDict.subnets (Exporter.to_dict e))
    = map fst plan_simple /\
    map (fun d => IPv4Network_of_string (SubnetDict.cidr d))
        (ExportDict.subnets (Exporter.to_dict e))
    = map (fun kv => Ok (snd kv)) plan_simple.
Proof.
  eexists. split; [vm_compute; reflexivity|].
  apply (to_dict_reads_back_as_the_plan cfg_simple plan_simple None).
  - apply validb_spec. vm_compute. reflexivity.
  - repeat constructor; apply validb_spec; vm_compute; reflexivity.
  - vm_compute. reflexivity.
Defined.

(** ** The text table *)

Lemma string_length_app (a b : string) :
  String.length (a ++ b)%string = (String.length a + String.length b)%nat.
Proof. induction a as [|c a IH]; simpl; [reflexivity|now rewrite IH]. Qed.

Lemma spaces_facts (n : nat) :
  String.length (spaces n) = n /\ lacks newline (spaces n) = true.
Proof. induction n as [|n [IH1 IH2]]; simpl; [auto|]. now rewrite IH1, IH2. Qed.

Lemma ljust_length (w : nat) (s : string) :
  String.length (ljust w s) = Nat.max w (String.length s).
Proof.
  unfold ljust. rewrite string_length_app, (proj1 (spaces_facts _)). lia.
Qed.

Lemma ljust_lacks (w : nat) (s : string) :
  lacks newline (ljust w s) = lacks newline s.
Proof.
  unfold ljust. rewrite lacks_app, (proj2 (spaces_facts _)).
  apply andb_true_r.
Qed.

Lemma prints_within_spec (w : nat) (n : Z) :
  prints_within w n = true ->
  (String.length (str_of_int n) <= w)%nat /\
  lacks newline (str_of_int n) = true.
Proof.
  unfold prints_within. intros H. apply andb_prop in H.
  destruct H as [H1 H2]. apply Nat.leb_le in H1. auto.
Qed.

Lemma octet_prints (b : Z) :
  0 <= b < 256 ->
  (String.length (str_of_int b) <= 3)%nat /\
  lacks newline (str_of_int b) = true.
Proof.
  intros Hb. apply prints_within_spec.
  apply (forallb_range (prints_within 3) 0 256); [|lia].
  vm_compute. reflexivity.
Qed.

Lemma prefix_prints (p : Z) :
  0 <= p <= 32 ->
  (String.length (str_of_int p) <= 2)%nat /\
  lacks newline (str_of_int p) = true.
Proof.
  intros Hp. apply prints_within_spec.
  apply (forallb_range (prints_within 2) 0 33); [|lia].
  vm_compute. reflexivity.
Qed.

Lemma num_addresses_prints (n : IPv4Network) :
  valid n ->
  num_addresses n = 2 ^ (32 - prefixlen n) /\
  (String.length (str_of_int (num_addresses n)) <= 10)%nat /\
  lacks newline (str_of_int (num_addresses n)) = true.
Proof.
  intros Hv. unfold num_addresses. rewrite (broadcast_eq n Hv).
  apply valid_iff in Hv. destruct Hv as (Hp & _ & _).
  replace (network_address n + 2 ^ (32 - prefixlen n) - 1
           - network_address n + 1) with (2 ^ (32 - prefixlen n)) by lia.
  split; [reflexivity|]. apply prints_within_spec.
  apply (forallb_range (fun p => prints_within 10 (2 ^ (32 - p))) 0 33);
    [|lia].
  vm_compute. reflexivity.
Qed.

Lemma address_prints (a : Z) :
  0 <= a < 2 ^ 32 ->
  (String.length (address_compressed a) <= 15)%nat /\
  lacks newline (address_compressed a) = true.
Proof.
  intros Ha. destruct (to_bytes4_spec a Ha) as [Hb _].
  unfold address_compressed. unfold to_bytes4 in *.
  pose proof (octet_prints _ (Forall_inv Hb)) as [L1 N1].
  pose proof (octet_prints _ (Forall_inv (Forall_inv_tail Hb))) as [L2 N2].
  pose proof (octet_prints _ (Forall_inv (Forall_inv_tail
                                           (Forall_inv_tail Hb)))) as [L3 N3].
  pose proof (octet_prints _ (Forall_inv (Forall_inv_tail (Forall_inv_tail
                                           (Forall_inv_tail Hb))))) as [L4 N4].
  cbn [map join]. cbn [String.append]. split.
  - repeat (rewrite string_length_app; cbn [String.length]). lia.
  - repeat (rewrite lacks_app; cbn [lacks]).
    rewrite N1, N2, N3, N4. reflexivity.
Qed.

Lemma compressed_prints (n : IPv4Network) :
  valid n ->
  (String.length (compressed n) <= 18)%nat /\
  lacks newline (compressed n) = true.
Proof.
  intros (Hp & Ha & _).
  destruct (address_prints _ Ha) as [La Na].
  destruct (prefix_prints _ Hp) as [Lp Np].
  unfold compressed. cbn [String.append]. split.
  - rewrite string_length_app. cbn [String.length]. lia.
  - rewrite lacks_app. cbn [lacks]. rewrite Na, Np. reflexivity.
Qed.

Lemma split_join (c : ascii) (parts : list string) :
  parts <> [] -> Forall (fun p => lacks c p = true) parts ->
  split c (join (String c "") parts) = parts.
Proof.
  induction parts as [|p rest IH]; intros Hne HF; [contradiction|].
  apply Forall_cons_iff in HF. destruct HF as [Hp HF].
  destruct rest as [|q rest].
  - cbn [join]. now apply split_lacks.
  - change (join (String c "") (p :: q :: rest))
      with (p ++ String c (join (String c "") (q :: rest)))%string.
    rewrite (split_app c _ _ Hp). f_equal. apply IH; [discriminate|exact HF].
Qed.

Lemma txt_row_facts (info : SubnetInfo.t) :
  info_of_network info ->
  String.length (txt_row info)
  = (Nat.max 20 (String.length (SubnetInfo.name info)) + 80
     + Nat.max 50 (String.length (SubnetInfo.description info)))%nat /\
  lacks newline (txt_row info)
  = lacks newline (SubnetInfo.name info)
    && lacks newline (SubnetInfo.description info).
Proof.
  intros (Hv & Hfirst & Hlast).
  pose proof (broadcast_bounds _ Hv) as Hb.
  assert (Ha : 0 <= network_address (SubnetInfo.cidr info) < 2 ^ 32)
    by (apply valid_iff in Hv; tauto).
  destruct (compressed_prints _ Hv) as [Lc Nc].
  destruct (num_addresses_prints _ Hv) as (_ & Ln & Nn).
  destruct (address_prints _ Ha) as [Lf Nf].
  destruct (address_prints (broadcast_address (SubnetInfo.cidr info))
              ltac:(lia)) as [Ll Nl].
  unfold txt_row. rewrite Hfirst, Hlast. split.
  - rewrite !string_length_app, !ljust_length. lia.
  - rewrite !lacks_app, !ljust_lacks, Nc, Nn, Nf, Nl. reflexivity.
Qed.

(** X20.  In the text table only a name or a description can break the
    columns: the header row is 150 characters wide, and the row of a record
    is 150 characters wide when its name has at most 20 and its description
    at most 50 characters, and longer by the excess otherwise (nothing is
    cut off); the CIDR, the address count and the two addresses always fit
    their columns. *)
Theorem export_txt_row_width
  (cfg : NetworkStructureConfiguration) (plan : dict IPv4Network)
  (dm : option SubnetMetadata.t) (e : Exporter.t) :
  Forall (fun kv => valid (snd kv)) plan ->
  Exporter.init cfg plan dm = Ok e ->
  String.length txt_header = 150%nat /\
  Forall (fun info =>
            String.length (txt_row info)
            = (Nat.max 20 (String.length (SubnetInfo.name info)) + 80
               + Nat.max 50 (String.length (SubnetInfo.description info)))%nat
            /\
            (String.length (compressed (SubnetInfo.cidr info)) <= 25)%nat /\
            (String.length (str_of_int (num_addresses (SubnetInfo.cidr info)))
             <= 15)%nat /\
            (String.length (SubnetInfo.first_address info) <= 20)%nat /\
            (String.length (SubnetInfo.last_address info) <= 20)%nat)
         (Exporter.data e).
Proof.
  intros Hv He. split; [reflexivity|].
  pose proof (init_of_network cfg plan dm e Hv He) as Hd.
  eapply Forall_impl; [|exact Hd].
  intros info Hinfo. split; [apply (txt_row_facts info Hinfo)|].
  destruct Hinfo as (Hvi & -> & ->).
  pose proof (broadcast_bounds _ Hvi) as Hb.
  assert (Ha : 0 <= network_address (SubnetInfo.cidr info) < 2 ^ 32)
    by (apply valid_iff in Hvi; tauto).
  destruct (compressed_prints _ Hvi) as [Lc _].
  destruct (num_addresses_prints _ Hvi) as (_ & Ln & _).
  destruct (address_prints _ Ha) as [Lf _].
  destruct (address_prints (broadcast_address (SubnetInfo.cidr info))
              ltac:(lia)) as [Ll _].
  repeat split; lia.
Qed.

Lemma export_txt_row_width_witness :
  exists e,
    Exporter.init cfg_simple plan_simple None = Ok e /\
    map (fun info => String.length (txt_row info)) (Exporter.data e)
    = [150; 150; 150]%nat /\
    String.length txt_header = 150%nat.
Proof.
  eexists. split; [vm_compute; reflexivity|].
  split; [vm_compute; reflexivity|].
  refine (proj1 (export_txt_row_width cfg_simple plan_simple None _ _ _)).
  - repeat constructor; apply validb_spec; vm_compute; reflexivity.
  - vm_compute. reflexivity.
Defined.

(** X21.  When no name and no description of the records has a line break in
    it, the text of [export_txt] splits at its line breaks into the header
    row followed by one row per record, in the order of the records. *)
Theorem export_txt_lines
  (cfg : NetworkStructureConfiguration) (plan : dict IPv4Network)
  (dm : option SubnetMetadata.t) (e : Exporter.t) :
  Forall (fun kv => valid (snd kv)) plan ->
  Exporter.init cfg plan dm = Ok e ->
  Forall (fun info =>
            lacks newline (SubnetInfo.name info) = true /\
            lacks newline (SubnetInfo.description info) = true)
         (Exporter.data e) ->
  split newline (export_txt e)
  = txt_header :: map txt_row (Exporter.data e) /\
  List.length (split newline (export_txt e))
  = S (List.length plan).
Proof.
  intros Hv He Hnl.
  pose proof (init_of_network cfg plan dm e Hv He) as Hd.
  destruct (init_rows cfg plan dm e He) as (_ & _ & _ & HF).
  assert (Hs : split newline (export_txt e)
               = txt_header :: map txt_row (Exporter.data e)).
  { unfold export_txt. apply split_join; [discriminate|].
    constructor; [vm_compute; reflexivity|].
    apply Forall_map. rewrite Forall_forall in *. intros info Hin.
    rewrite (proj2 (txt_row_facts info (Hd info Hin))).
    destruct (Hnl info Hin) as [-> ->]. reflexivity. }
  split; [exact Hs|]. rewrite Hs. cbn [List.length].
  rewrite length_map. f_equal. symmetry. exact (Forall2_length HF).
Qed.

Lemma export_txt_lines_witness :
  exists e,
    Exporter.init cfg_simple plan_simple None = Ok e /\
    split newline (export_txt e)
    = txt_header :: map txt_row (Exporter.data e) /\
    List.length (split newline (export_txt e)) = 4%nat.
Proof.
  eexists. split; [vm_compute; reflexivity|].
  apply (export_txt_lines cfg_simple plan_simple None).
  - repeat constructor; apply validb_spec; vm_compute; reflexivity.
  - vm_compute. reflexivity.
  - repeat constructor.
Defined.

(** ** Levels *)

(** X6.  The sub-blocks of a level are 2^prefix blocks of one size, in
    increasing order and back to back: the i-th has the prefix length of the
    parent plus the prefix, the same number of addresses as the others, and
    starts i block sizes after the parent's network address. *)
Theorem child_subnets_equal_size (parent : IPv4Network) (s : StructureType)
  (cs : list IPv4Network) :
  valid parent -> child_subnets_of parent s = Ok cs ->
  exists n p,
    find_structure_len s = Ok n /\ find_prefix n = Ok p /\
    Z.of_nat (List.length cs) = 2 ^ p /\
    forall i c, nth_error cs i = Some c ->
      prefixlen c = prefixlen parent + p /\
      num_addresses c = 2 ^ (32 - prefixlen parent - p) /\
      network_address c
      = network_address parent + Z.of_nat i * num_addresses c.
Proof.
  intros Hv Hcs.
  pose proof (child_subnets_well_split parent s cs Hv Hcs) as Hws.
  destruct (child_subnets_of_ok parent s cs Hv Hcs)
    as (n & p & En & Ep & Hp & _ & Hsum & Ecs).
  exists n, p. split; [assumption|]. split; [assumption|].
  split; [rewrite Ecs; now apply length_children|].
  intros i c Hc. destruct (Hws i c Hc) as (Hvc & _ & _).
  destruct (num_addresses_prints c Hvc) as (Hnum & _).
  rewrite Ecs in Hc. apply nth_error_children in Hc; [|assumption].
  destruct Hc as [-> _]. rewrite Hnum. unfold nth_subnet.
  cbn [prefixlen network_address].
  replace (32 - (prefixlen parent + p)) with (32 - prefixlen parent - p)
    by lia.
  auto.
Qed.

Lemma child_subnets_equal_size_witness :
  exists n p,
    find_structure_len (structure cfg_placeholder_inside) = Ok n /\
    find_prefix n = Ok p /\
    Z.of_nat (List.length [cidr 10 0 0 0 10; cidr 10 64 0 0 10;
                           cidr 10 128 0 0 10; cidr 10 192 0 0 10]) = 2 ^ p /\
    forall i c,
      nth_error [cidr 10 0 0 0 10; cidr 10 64 0 0 10; cidr 10 128 0 0 10;
                 cidr 10 192 0 0 10] i = Some c ->
      prefixlen c = prefixlen (network_cidr cfg_placeholder_inside) + p /\
      num_addresses c
      = 2 ^ (32 - prefixlen (network_cidr cfg_placeholder_inside) - p) /\
      network_address c
      = network_address (network_cidr cfg_placeholder_inside)
        + Z.of_nat i * num_addresses c.
Proof.
  apply (child_subnets_equal_size (network_cidr cfg_placeholder_inside)
           (structure cfg_placeholder_inside)).
  - apply validb_spec. vm_compute. reflexivity.
  - vm_compute. reflexivity.
Defined.

(** X8.  In a successful allocation on a valid root block, an identifier that
    occurs in the i-th item of the root level and in no other item is given
    a block inside [child_subnets[i]]: the subnets of a group are carved out
    of the block of the group. *)
Theorem item_leaves_lie_in_its_block
  (cfg : NetworkStructureConfiguration) (m : dict IPv4Network)
  (cs : list IPv4Network) (i : nat) (x : item) (id : string)
  (b : IPv4Network) :
  valid (network_cidr cfg) ->
  fst (allocate cfg) = Ok m ->
  child_subnets_of (network_cidr cfg) (structure cfg) = Ok cs ->
  nth_error (structure cfg) i = Some x ->
  ~ In id (leaf_ids (firstn i (structure cfg))) ->
  ~ In id (leaf_ids (skipn (S i) (structure cfg))) ->
  In (id, b) m ->
  exists c, nth_error cs i = Some c /\ subnet_of b c = true /\
            In id (item_leaf_ids x).
Proof.
  intros Hv Hok Hcs Hx Hbefore Hafter Hin.
  pose proof (allocate_ok_feasible cfg m Hok) as Hf.
  rewrite (allocate_feasible cfg Hf) in Hok. cbn [fst] in Hok.
  injection Hok as <-. apply entry_is_a_placement in Hin.
  destruct Hin as (p & Hp & <- & <-).
  unfold placements in Hp. cbn [item_placements] in Hp. rewrite Hcs in Hp.
  apply level_placement_origin in Hp.
  destruct Hp as (j & y & cj & Hj & Hcj & Hp). cbn [Nat.add] in Hcj.
  pose proof (child_subnets_well_split _ _ _ Hv Hcs) as Hws.
  destruct (Hws j cj Hcj) as (Hvj & Hij & _).
  pose proof (item_placements_ok y (network_cidr cfg) cj Hvj Hij) as Hpok.
  rewrite Forall_forall in Hpok.
  destruct (Hpok p Hp) as (_ & Hinside & _ & _).
  assert (Hl : In (leaf p) (item_leaf_ids y)).
  { apply (item_placements_incl y (network_cidr cfg) cj). now apply in_map. }
  destruct (Nat.lt_total j i) as [Hlt|[->|Hgt]].
  - exfalso. apply Hbefore. unfold leaf_ids. apply in_flat_map.
    exists y. split; [|assumption].
    rewrite <- (firstn_skipn i (structure cfg)) in Hj.
    rewrite nth_error_app1 in Hj.
    + eapply nth_error_In; eassumption.
    + assert (i < List.length (structure cfg))%nat
        by (apply nth_error_Some; congruence).
      rewrite length_firstn. lia.
  - rewrite Hx in Hj. injection Hj as <-.
    exists cj. split; [assumption|]. split; [now apply subnet_of_iff|].
    assumption.
  - exfalso. apply Hafter. unfold leaf_ids. apply in_flat_map.
    exists y. split; [|assumption].
    apply (nth_error_In _ (j - S i)). rewrite nth_error_skipn.
    replace (S i + (j - S i))%nat with j by lia. assumption.
Qed.

Lemma item_leaves_lie_in_its_block_witness :
  exists c,
    nth_error [cidr 10 0 0 0 10; cidr 10 64 0 0 10; cidr 10 128 0 0 10;
               cidr 10 192 0 0 10] 1 = Some c /\
    subnet_of (cidr 10 64 0 0 11) c = true /\
    In "b" (item_leaf_ids (IList [IStr "b"; IStr "a"])).
Proof.
  assert (Hv : valid (network_cidr cfg_twice_nested))
    by (apply validb_spec; vm_compute; reflexivity).
  apply (item_leaves_lie_in_its_block cfg_twice_nested plan_twice_nested
           _ 1%nat (IList [IStr "b"; IStr "a"]) "b" (cidr 10 64 0 0 11) Hv).
  - vm_compute. reflexivity.
  - vm_compute. reflexivity.
  - reflexivity.
  - vm_compute. intros [H|[]]. discriminate.
  - vm_compute. intros [H|[]]. discriminate.
  - right. left. reflexivity.
Defined.

(** ** The outcome and the result at hand *)




